(** * convert_svm.py: exporting a fitted SVM to JSON

    A shallow embedding of [src/lib/cough-detection-models/convert_svm.py].
    The script is a straight line of four statements:

      svm_model  = joblib.load('svm_param.joblib')
      model_data = { 'support_vectors': svm_model.support_vectors_.tolist(), ... }
      with open('svm_model.json', 'w') as f: json.dump(model_data, f)
      print("SVM model converted to JSON format")

    Python objects are a small inductive universe, numpy arrays are a flat
    C-ordered buffer with a shape, exceptions are values of an error monad
    that also threads the file system, standard output and an event trace. *)

From Stdlib Require Import ZArith NArith List String Ascii Bool Lia.
From Stdlib Require Import Floats.SpecFloat.
From stdpp Require Import base option list strings gmap.

Import ListNotations.
Local Open Scope string_scope.
Local Open Scope list_scope.
Local Open Scope Z_scope.

(** ** Python values *)

Module Py.

(** A [str] is a sequence of Unicode code points. *)
Definition pystr := list N.

(** A source literal made of ASCII characters. *)
Definition str (s : string) : pystr :=
  List.map N_of_ascii (list_ascii_of_string s).

(** A Python [float] is an IEEE-754 binary64 value. *)
Abbreviation pyfloat := spec_float.

(** Elements of a numpy buffer: [float64] or a (signed) integer dtype. *)
Inductive npscalar :=
| NpFloat (f : pyfloat)
| NpInt (z : Z).

(** [numpy.ndarray]: a shape and the elements in C (row-major) order. *)
Record ndarray := mk_ndarray {
  shape : list nat;
  data : list npscalar
}.

#[local] Unset Elimination Schemes.
Inductive pyobj :=
| PyNone
| PyBool (b : bool)
| PyInt (z : Z)
| PyFloat (f : pyfloat)
| PyStr (s : pystr)
| PyList (l : list pyobj)
| PyDict (d : list (pystr * pyobj))   (* str-keyed, in insertion order *)
| PyArray (a : ndarray)
| PyCallable (name : string)          (* a function object *)
| PyInstance (cls : string) (attrs : list (string * pyobj)).
#[local] Set Elimination Schemes.

Inductive pyexc :=
| FileNotFoundError (path : string)
| PermissionError (path : string)
| UnpicklingError (msg : string)
| AttributeError (attr : string)
| TypeError (msg : string).

(** Results of fallible evaluation. *)
Inductive result (A : Type) :=
| Ok (a : A)
| Raise (e : pyexc).
Arguments Ok {A} a.
Arguments Raise {A} e.

#[global] Instance result_ret : MRet result := fun A a => Ok a.
#[global] Instance result_bind : MBind result := fun A B k r =>
  match r with
  | Ok a => k a
  | Raise e => Raise e
  end.

Fixpoint assoc {A} (k : string) (l : list (string * A)) : option A :=
  match l with
  | [] => None
  | (k', v) :: l' => if String.eqb k k' then Some v else assoc k l'
  end.

(** [o.name] for a data attribute. *)
Definition getattr (o : pyobj) (name : string) : result pyobj :=
  match o with
  | PyInstance _ attrs =>
      match assoc name attrs with
      | Some v => Ok v
      | None => Raise (AttributeError name)
      end
  | _ => Raise (AttributeError name)
  end.

(** [d[k]] on a dict, first (and, in a well-formed dict, only) entry. *)
Fixpoint dict_get (k : pystr) (d : list (pystr * pyobj)) : option pyobj :=
  match d with
  | [] => None
  | (k', v) :: d' => if decide (k = k') then Some v else dict_get k d'
  end.

Definition getitem (o : pyobj) (k : pystr) : option pyobj :=
  match o with
  | PyDict d => dict_get k d
  | _ => None
  end.

(** [sum (l)] of a list of ints. *)
Fixpoint sum (l : list pyobj) : option Z :=
  match l with
  | [] => Some 0
  | PyInt z :: l' => Z.add z <$> sum l'
  | _ :: _ => None
  end.

(** [v[i0][i1]...] on nested lists. *)
Fixpoint index (o : pyobj) (idx : list nat) : option pyobj :=
  match idx with
  | [] => Some o
  | i :: idx' =>
      match o with
      | PyList l =>
          match nth_error l i with
          | Some x => index x idx'
          | None => None
          end
      | _ => None
      end
  end.

End Py.

Import Py.

(** ** numpy: [ndarray.tolist] *)

Module Np.

(** [PyArray_GETITEM]: a buffer element as a Python scalar. *)
Definition getitem (x : npscalar) : pyobj :=
  match x with
  | NpFloat f => PyFloat f
  | NpInt z => PyInt z
  end.

Definition size (shp : list nat) : nat := fold_right Nat.mul 1%nat shp.

(** The element stride of the first axis of a C-contiguous array. *)
Definition stride (shp : list nat) : nat := size (tl shp).

(** numpy's [recursive_tolist (self, dataptr, startdim)]: past the last
    axis the element under the pointer, otherwise a list of [n] items read
    at [dataptr], [dataptr + stride], ... The pointer is an offset into
    the buffer. *)
Fixpoint recursive_tolist (buf : list npscalar) (dims : list nat)
         (dataptr : nat) : pyobj :=
  match dims with
  | [] => getitem (nth dataptr buf (NpInt 0))
  | n :: dims' =>
      PyList (List.map
                (fun i => recursive_tolist buf dims' (dataptr + i * size dims'))
                (seq 0 n))
  end.

Definition tolist (a : ndarray) : pyobj :=
  recursive_tolist (data a) (shape a) 0.

(** [a[i0, i1, ...]]: the flat offset of a full multi-index. *)
Fixpoint ravel (dims : list nat) (idx : list nat) : nat :=
  match dims, idx with
  | _ :: dims', i :: idx' => i * size dims' + ravel dims' idx'
  | _, _ => 0
  end.

Definition item (a : ndarray) (idx : list nat) : npscalar :=
  nth (ravel (shape a) idx) (data a) (NpInt 0).

(** A full multi-index inside the bounds of a shape. *)
Fixpoint in_bounds (dims : list nat) (idx : list nat) : bool :=
  match dims, idx with
  | [], [] => true
  | n :: dims', i :: idx' => (i <? n)%nat && in_bounds dims' idx'
  | _, _ => false
  end.

(** The buffer holds exactly the elements the shape asks for. *)
Definition wf (a : ndarray) : bool :=
  (List.length (data a) =? size (shape a))%nat.

(** [a.sum ()] of an integer array. *)
Fixpoint sum_ints (l : list npscalar) : option Z :=
  match l with
  | [] => Some 0
  | NpInt z :: l' => Z.add z <$> sum_ints l'
  | NpFloat _ :: _ => None
  end.

Definition sum (a : ndarray) : option Z := sum_ints (data a).

End Np.

(** [o.tolist()]: the method exists on arrays only. *)
Definition call_tolist (o : pyobj) : result pyobj :=
  match o with
  | PyArray a => Ok (Np.tolist a)
  | _ => Raise (AttributeError "tolist")
  end.

(** ** The dictionary display of the script

    Entries are evaluated top to bottom; the first attribute access that
    fails raises and no dictionary is built. *)

Definition tolist_attr (o : pyobj) (name : string) : result pyobj :=
  a ← getattr o name; call_tolist a.

Definition model_data (svm_model : pyobj) : result pyobj :=
  support_vectors ← tolist_attr svm_model "support_vectors_";
  dual_coef ← tolist_attr svm_model "dual_coef_";
  intercept ← tolist_attr svm_model "intercept_";
  gamma ← getattr svm_model "gamma";
  C ← getattr svm_model "C";
  kernel ← getattr svm_model "kernel";
  support ← tolist_attr svm_model "support_";
  n_support ← tolist_attr svm_model "n_support_";
  Ok (PyDict [ (str "support_vectors", support_vectors);
               (str "dual_coef", dual_coef);
               (str "intercept", intercept);
               (str "gamma", gamma);
               (str "C", C);
               (str "kernel", kernel);
               (str "support", support);
               (str "n_support", n_support) ]).

(** ** Number formatting: [int.__repr__] and [float.__repr__] *)

Module Repr.

(** Decimal digits of a positive integer, most significant first. *)
Fixpoint digits_aux (fuel : nat) (n : Z) (acc : list Z) : list Z :=
  match fuel with
  | O => acc
  | S fuel' =>
      if n <? 10 then n :: acc
      else digits_aux fuel' (n / 10) (n mod 10 :: acc)
  end.

Definition digits (n : Z) : list Z :=
  digits_aux (S (Z.to_nat (Z.log2 n))) n [].

Definition digit_char (d : Z) : ascii := ascii_of_N (48 + Z.to_N d).

Fixpoint digs (ds : list Z) : string :=
  match ds with
  | [] => ""
  | d :: ds' => String (digit_char d) (digs ds')
  end.

Fixpoint zeros (n : nat) : string :=
  match n with
  | O => ""
  | S n' => String "0" (zeros n')
  end.

(** [int.__repr__]. *)
Definition int_repr (z : Z) : string :=
  if z <? 0 then "-" +:+ digs (digits (- z)) else digs (digits z).

(** *** The shortest decimal that reads back as the same binary64

    A finite nonzero double is [m * 2^e]. Every real between the midpoints
    to its two neighbours rounds to it (the midpoints themselves when [m] is
    even). In units of [2^(e-2)] the value is [4m], the upper midpoint
    [4m + 2] and the lower midpoint [4m - 2], or [4m - 1] when the lower
    neighbour is in the binade below. A decimal [D * 10^k] is compared with
    [X * 2^(e-2)] by cross-multiplying: [D * num  ?  X * den]. *)

Definition scale_num (e k : Z) : Z := 10 ^ Z.max k 0 * 2 ^ Z.max (2 - e) 0.
Definition scale_den (e k : Z) : Z := 10 ^ Z.max (- k) 0 * 2 ^ Z.max (e - 2) 0.

Definition lower_mid (m e : Z) : Z :=
  if (m =? 2 ^ 52) && (-1074 <? e) then 4 * m - 1 else 4 * m - 2.
Definition upper_mid (m : Z) : Z := 4 * m + 2.

(** Does [D * 10^k] read back as [m * 2^e]? *)
Definition in_interval (m e k D : Z) : bool :=
  let c := D * scale_num e k in
  let lo := lower_mid m e * scale_den e k in
  let hi := upper_mid m * scale_den e k in
  if Z.even m then (lo <=? c) && (c <=? hi) else (lo <? c) && (c <? hi).

(** The multiples of [10^k] next to the value; the nearer one that reads
    back, the even one on a tie. *)
Definition candidate (m e k : Z) : option Z :=
  let v := 4 * m * scale_den e k in
  let p := scale_num e k in
  let Dlo := v / p in
  let Dhi := Dlo + 1 in
  match in_interval m e k Dlo, in_interval m e k Dhi with
  | true, true =>
      match (v - Dlo * p) ?= (Dhi * p - v) with
      | Lt => Some Dlo
      | Gt => Some Dhi
      | Eq => Some (if Z.even Dlo then Dlo else Dhi)
      end
  | true, false => Some Dlo
  | false, true => Some Dhi
  | false, false => None
  end.

(** The value itself as a decimal: [m * 2^e = (m * 5^-e) * 10^e] for
    [e < 0]. *)
Definition exact_decimal (m e : Z) : Z * Z :=
  if e <? 0 then (m * 5 ^ (- e), e) else (m * 2 ^ e, 0).

(** Search for the largest [k] with a candidate, from [k] downwards. *)
Fixpoint shortest_search (fuel : nat) (m e k : Z) : Z * Z :=
  match fuel with
  | O => exact_decimal m e
  | S fuel' =>
      match candidate m e k with
      | Some D => (D, k)
      | None => shortest_search fuel' m e (k - 1)
      end
  end.

(** No power of ten above [10^k0] is below the upper midpoint. *)
Definition start_exponent (m e : Z) : Z :=
  let x := Z.log2 m + e + 2 in
  if x <? 0 then 0 else x * 30103 / 100000 + 1.

Definition shortest_decimal (m e : Z) : Z * Z :=
  let k0 := start_exponent m e in
  shortest_search (Z.to_nat (k0 - Z.min e 0 + 1)) m e k0.

(** *** CPython's [format_float_short] in repr mode

    [ds] are the significant digits and [decpt] the position of the decimal
    point: the value is [0.d1d2... * 10^decpt]. *)

Definition exp_str (x : Z) : string :=
  let a := Z.abs x in
  (if x <? 0 then "-" else "+") +:+
  (if a <? 10 then "0" else "") +:+ digs (if a =? 0 then [0] else digits a).

Fixpoint strip_trailing_dot (s : string) : string :=
  match s with
  | "" => ""
  | String c "" => if Ascii.eqb c "." then "" else s
  | String c s' => String c (strip_trailing_dot s')
  end.

Definition format_float_short (sign : bool) (ds : list Z) (decpt : Z) : string :=
  let digits_len := Z.of_nat (List.length ds) in
  let use_exp := (decpt <=? -4) || (16 <? decpt) in
  let exp := decpt - 1 in
  let decpt := if use_exp then 1 else decpt in
  let vdigits_end :=
    if use_exp then Z.max digits_len decpt else Z.max digits_len (decpt + 1) in
  let left :=
    if decpt <=? 0 then "0." +:+ zeros (Z.to_nat (- decpt)) else "" in
  let mid :=
    if (0 <? decpt) && (decpt <=? digits_len)
    then digs (firstn (Z.to_nat decpt) ds) +:+ "." +:+
         digs (skipn (Z.to_nat decpt) ds)
    else digs ds in
  let right :=
    if digits_len <? decpt
    then zeros (Z.to_nat (decpt - digits_len)) +:+ "." +:+
         zeros (Z.to_nat (vdigits_end - decpt))
    else zeros (Z.to_nat (vdigits_end - digits_len)) in
  (if sign then "-" else "") +:+
  strip_trailing_dot (left +:+ mid +:+ right) +:+
  (if use_exp then "e" +:+ exp_str exp else "").

(** [float.__repr__]. *)
Definition float_repr (f : pyfloat) : string :=
  match f with
  | S754_nan => "nan"
  | S754_infinity false => "inf"
  | S754_infinity true => "-inf"
  | S754_zero s => format_float_short s [0] 1
  | S754_finite s m e =>
      let '(D, k) := shortest_decimal (Z.pos m) e in
      let ds := digits D in
      format_float_short s ds (Z.of_nat (List.length ds) + k)
  end.

End Repr.

(** ** The [json] encoder with its default settings

    [json.dump (obj, fp)] runs [JSONEncoder (ensure_ascii=True,
    allow_nan=True, indent=None, separators=(', ', ': ')).iterencode (obj)]
    and writes every chunk to [fp] as it is produced. *)

Module Json.

Definition dquote : string := String (ascii_of_nat 34) "".

Definition hex_digit (n : N) : ascii :=
  if (n <? 10)%N then ascii_of_N (48 + n) else ascii_of_N (87 + n).

(** ['{0:04x}'.format (n)] for [n < 0x10000]. *)
Definition hex4 (n : N) : string :=
  String (hex_digit (N.shiftr n 12 mod 16))
    (String (hex_digit (N.shiftr n 8 mod 16))
       (String (hex_digit (N.shiftr n 4 mod 16))
          (String (hex_digit (n mod 16)) ""))).

(** The [replace] callback of [py_encode_basestring_ascii]: [ESCAPE_DCT]
    first, then a [\uXXXX] escape, a surrogate pair above the basic plane.
    Characters from space to [~] other than the quote and the backslash are
    not matched by [ESCAPE_ASCII] and stay as they are. *)
Definition escape_char (c : N) : string :=
  if (c =? 92)%N then "\\"
  else if (c =? 34)%N then "\" +:+ dquote
  else if (c =? 8)%N then "\b"
  else if (c =? 12)%N then "\f"
  else if (c =? 10)%N then "\n"
  else if (c =? 13)%N then "\r"
  else if (c =? 9)%N then "\t"
  else if (32 <=? c)%N && (c <=? 126)%N then String (ascii_of_N c) ""
  else if (c <? 65536)%N then "\u" +:+ hex4 c
  else
    let n := (c - 65536)%N in
    let s1 := N.lor 55296 (N.land (N.shiftr n 10) 1023) in
    let s2 := N.lor 56320 (N.land n 1023) in
    "\u" +:+ hex4 s1 +:+ "\u" +:+ hex4 s2.

Fixpoint escape (s : pystr) : string :=
  match s with
  | [] => ""
  | c :: s' => escape_char c +:+ escape s'
  end.

Definition encode_basestring_ascii (s : pystr) : string :=
  dquote +:+ escape s +:+ dquote.

(** [floatstr]: with [allow_nan] the three special values are written as
    their JavaScript names, every other float by [float.__repr__]. *)
Definition floatstr (f : pyfloat) : string :=
  match f with
  | S754_nan => "NaN"
  | S754_infinity false => "Infinity"
  | S754_infinity true => "-Infinity"
  | _ => Repr.float_repr f
  end.

(** The scalars that [_iterencode_list] and [_iterencode_dict] emit in the
    same chunk as the preceding separator. *)
Definition encode_scalar (o : pyobj) : option string :=
  match o with
  | PyStr s => Some (encode_basestring_ascii s)
  | PyNone => Some "null"
  | PyBool true => Some "true"
  | PyBool false => Some "false"
  | PyInt z => Some (Repr.int_repr z)
  | PyFloat f => Some (floatstr f)
  | _ => None
  end.

Definition not_serializable (o : pyobj) : pyexc :=
  TypeError
    match o with
    | PyArray _ => "Object of type ndarray is not JSON serializable"
    | PyCallable _ => "Object of type function is not JSON serializable"
    | PyInstance cls _ => "Object of type " +:+ cls +:+ " is not JSON serializable"
    | _ => "not JSON serializable"
    end.

(** The chunks a generator yields and, if it stops by raising, the
    exception. *)
Definition chunks : Type := list string * option pyexc.

Definition yield (c : string) (rest : chunks) : chunks := (c :: rest.1, rest.2).

(** [yield from g] followed by [rest]: [rest] runs only if [g] finishes. *)
Definition yield_from (g rest : chunks) : chunks :=
  match g.2 with
  | Some e => g
  | None => (g.1 ++ rest.1, rest.2)
  end.

Section Loops.

(** The encoder of the items, [_iterencode] itself in the end. *)
Variable iterencode : pyobj -> chunks.

(** The loop of [_iterencode_list] over a non-empty list; [first] tells
    whether the opening bracket or the item separator goes in front of the
    next item. *)
Fixpoint iterencode_list (first : bool) (l : list pyobj) : chunks :=
  match l with
  | [] => (["]"], None)
  | v :: l' =>
      let buf := if first then "[" else ", " in
      match encode_scalar v with
      | Some s => yield (buf +:+ s) (iterencode_list false l')
      | None => yield buf (yield_from (iterencode v) (iterencode_list false l'))
      end
  end.

(** The loop of [_iterencode_dict] over a non-empty dict, after the opening
    brace. *)
Fixpoint iterencode_dict (first : bool) (d : list (pystr * pyobj)) : chunks :=
  match d with
  | [] => (["}"], None)
  | (k, v) :: d' =>
      let sep := if first then [] else [", "] in
      yield_from (sep ++ [encode_basestring_ascii k; ": "], None)
        match encode_scalar v with
        | Some s => yield s (iterencode_dict false d')
        | None => yield_from (iterencode v) (iterencode_dict false d')
        end
  end.

End Loops.

(** [_iterencode]. *)
Fixpoint iterencode (o : pyobj) : chunks :=
  match o with
  | PyList [] => (["[]"], None)
  | PyList l => iterencode_list iterencode true l
  | PyDict [] => (["{}"], None)
  | PyDict d => yield "{" (iterencode_dict iterencode true d)
  | _ =>
      match encode_scalar o with
      | Some s => ([s], None)
      | None => ([], Some (not_serializable o))
      end
  end.

(** [json.dumps]: the chunks joined, when no exception is raised. *)
Definition dumps (o : pyobj) : result string :=
  match iterencode o with
  | (cs, None) => Ok (String.concat "" cs)
  | (_, Some e) => Raise e
  end.

End Json.

(** ** The process: files, standard output and the order of effects *)

Inductive event :=
| EvLoad (path : string)                (* the artifact was read *)
| EvOpen (path : string)                (* created or truncated for writing *)
| EvWrite (path : string) (chunk : string)
| EvClose (path : string)
| EvPrint (text : string).

(** The files hold bytes. The text this script writes is ASCII, which
    every ASCII-compatible text encoding maps to the same bytes. *)
Record world := mk_world {
  files : gmap string string;
  readonly : gset string;               (* paths that cannot be opened for writing *)
  stdout : string;
  trace : list event                    (* oldest first *)
}.

Definition log (ev : event) (w : world) : world :=
  mk_world (files w) (readonly w) (stdout w) (trace w ++ [ev]).

Definition set_files (fs : gmap string string) (w : world) : world :=
  mk_world fs (readonly w) (stdout w) (trace w).

(** A statement runs in a world and returns normally or raises. *)
Definition io (A : Type) : Type := world -> result A * world.

#[global] Instance io_ret : MRet io := fun A a w => (Ok a, w).
#[global] Instance io_bind : MBind io := fun A B k m w =>
  match m w with
  | (Ok a, w') => k a w'
  | (Raise e, w') => (Raise e, w')
  end.

Definition lift {A} (r : result A) : io A := fun w => (r, w).

Definition newline : string := String (ascii_of_nat 10) "".

(** [open (path, 'w')]: the file is created, or truncated if it exists. *)
Definition open_w (path : string) : io unit := fun w =>
  if decide (path ∈ readonly w) then (Raise (PermissionError path), w)
  else (Ok tt, log (EvOpen path) (set_files (<[path := ""]> (files w)) w)).

(** [fp.write (chunk)] appends to the open file. *)
Definition write (path : string) (chunk : string) : io unit := fun w =>
  (Ok tt,
   log (EvWrite path chunk)
     (set_files (alter (fun old => old +:+ chunk) path (files w)) w)).

Definition close (path : string) : io unit := fun w =>
  (Ok tt, log (EvClose path) w).

Fixpoint write_all (path : string) (cs : list string) : io unit :=
  match cs with
  | [] => mret tt
  | c :: cs' => write path c ≫= fun _ => write_all path cs'
  end.

(** [json.dump (obj, fp)]: [for chunk in iterable: fp.write (chunk)]. *)
Definition json_dump (obj : pyobj) (fp : string) : io unit :=
  let '(cs, err) := Json.iterencode obj in
  write_all fp cs ≫= fun _ =>
  match err with
  | None => mret tt
  | Some e => lift (Raise e)
  end.

(** [with open (path, 'w') as f: body]: the file is closed on the way out,
    also when the body raises, and the exception goes on. *)
Definition with_open_w {A} (path : string) (body : string -> io A) : io A :=
  fun w =>
    match open_w path w with
    | (Raise e, w') => (Raise e, w')
    | (Ok _, w1) =>
        let '(r, w2) := body path w1 in
        (r, (close path w2).2)
    end.

(** [print (text)]. *)
Definition print (text : string) : io unit := fun w =>
  (Ok tt,
   log (EvPrint text)
     (mk_world (files w) (readonly w) (stdout w +:+ text +:+ newline) (trace w))).

Definition input_path : string := "svm_param.joblib".
Definition output_path : string := "svm_model.json".
Definition success_message : string := "SVM model converted to JSON format".

Section Script.

(** What joblib makes of the bytes of an artifact: an object, or the
    exception it raises on a file it cannot read. *)
Variable unpickle : string -> result pyobj.

(** [joblib.load (path)]. *)
Definition joblib_load (path : string) : io pyobj := fun w =>
  match files w !! path with
  | None => (Raise (FileNotFoundError path), w)
  | Some bytes => (unpickle bytes, log (EvLoad path) w)
  end.

(** The module body of [convert_svm.py]. Nothing is caught: the result of
    the run is the result of the first statement that raises. *)
Definition convert_svm : io unit :=
  svm_model ← joblib_load input_path;
  model_data ← lift (model_data svm_model);
  _ ← with_open_w output_path (json_dump model_data);
  print success_message.

End Script.

(** ** Reading JSON text

    A recursive-descent reader for the grammar of RFC 8259. With [ext] set
    it also accepts the three names [NaN], [Infinity] and [-Infinity], as
    Python's [json.loads] does; without, it is the standard grammar. The
    text is read byte by byte; bytes above 127 inside a string are kept as
    they are. *)

Module JsonText.

Inductive special := NaN | Infinity | NegInfinity.

(** A number as it is spelled: sign, integer digits, the digits after the
    point if there is one, the exponent if there is one. *)
Record number := mk_number {
  negative : bool;
  int_part : list Z;
  frac_part : option (list Z);
  exp_part : option Z
}.

#[local] Unset Elimination Schemes.
Inductive json :=
| JNull
| JBool (b : bool)
| JNumber (n : number)
| JSpecial (s : special)
| JString (units : list N)            (* 16-bit code units *)
| JArray (items : list json)
| JObject (members : list (list N * json)).
#[local] Set Elimination Schemes.

Definition is_ws (c : ascii) : bool :=
  let n := N_of_ascii c in
  ((n =? 32) || (n =? 9) || (n =? 10) || (n =? 13))%N.

Fixpoint skip_ws (s : string) : string :=
  match s with
  | "" => ""
  | String c s' => if is_ws c then skip_ws s' else s
  end.

Definition is_digit (c : ascii) : bool :=
  let n := N_of_ascii c in ((48 <=? n) && (n <=? 57))%N.

Definition digit_val (c : ascii) : Z := Z.of_N (N_of_ascii c) - 48.

Fixpoint span_digits (s : string) : list Z * string :=
  match s with
  | "" => ([], "")
  | String c s' =>
      if is_digit c
      then let '(ds, r) := span_digits s' in (digit_val c :: ds, r)
      else ([], s)
  end.

(** The integer a digit sequence spells. *)
Definition value (ds : list Z) : Z := fold_left (fun acc d => 10 * acc + d) ds 0.

(** [int = zero / ( digit1-9 *DIGIT )] *)
Definition scan_int (s : string) : option (list Z * string) :=
  match s with
  | "" => None
  | String c s' =>
      if is_digit c then
        if (N_of_ascii c =? 48)%N then Some ([0], s')
        else let '(ds, r) := span_digits s' in Some (digit_val c :: ds, r)
      else None
  end.

(** [frac = decimal-point 1*DIGIT], if present. *)
Definition scan_frac (s : string) : option (list Z) * string :=
  match s with
  | String c s' =>
      if Ascii.eqb c "." then
        match span_digits s' with
        | ([], _) => (None, s)
        | (ds, r) => (Some ds, r)
        end
      else (None, s)
  | "" => (None, s)
  end.

(** [exp = e [ minus / plus ] 1*DIGIT], if present. *)
Definition scan_exp (s : string) : option Z * string :=
  match s with
  | String c s' =>
      if Ascii.eqb c "e" || Ascii.eqb c "E" then
        let '(neg, s'') :=
          match s' with
          | String c' t =>
              if Ascii.eqb c' "-" then (true, t)
              else if Ascii.eqb c' "+" then (false, t)
              else (false, s')
          | "" => (false, s')
          end in
        match span_digits s'' with
        | ([], _) => (None, s)
        | (ds, r) => (Some (if neg then - value ds else value ds), r)
        end
      else (None, s)
  | "" => (None, s)
  end.

(** [number = [ minus ] int [ frac ] [ exp ]] *)
Definition scan_number (s : string) : option (number * string) :=
  let '(neg, s1) :=
    match s with
    | String c t => if Ascii.eqb c "-" then (true, t) else (false, s)
    | "" => (false, s)
    end in
  match scan_int s1 with
  | None => None
  | Some (ip, s2) =>
      let '(fp, s3) := scan_frac s2 in
      let '(ep, s4) := scan_exp s3 in
      Some (mk_number neg ip fp ep, s4)
  end.

Definition hex_val (c : ascii) : option N :=
  let n := N_of_ascii c in
  if ((48 <=? n) && (n <=? 57))%N then Some (n - 48)%N
  else if ((97 <=? n) && (n <=? 102))%N then Some (n - 87)%N
  else if ((65 <=? n) && (n <=? 70))%N then Some (n - 55)%N
  else None.

Definition hex4_val (h1 h2 h3 h4 : ascii) : option N :=
  match hex_val h1, hex_val h2, hex_val h3, hex_val h4 with
  | Some a, Some b, Some c, Some d => Some (((a * 16 + b) * 16 + c) * 16 + d)%N
  | _, _, _, _ => None
  end.

(** The character after a backslash, other than [u]. *)
Definition unescape (c : ascii) : option N :=
  let n := N_of_ascii c in
  if (n =? 34)%N then Some 34%N          (* quotation mark *)
  else if (n =? 92)%N then Some 92%N     (* reverse solidus *)
  else if (n =? 47)%N then Some 47%N     (* solidus *)
  else if (n =? 98)%N then Some 8%N      (* b *)
  else if (n =? 102)%N then Some 12%N    (* f *)
  else if (n =? 110)%N then Some 10%N    (* n *)
  else if (n =? 114)%N then Some 13%N    (* r *)
  else if (n =? 116)%N then Some 9%N     (* t *)
  else None.

Definition prepend {A B} (a : A) (r : option (list A * B)) : option (list A * B) :=
  match r with
  | Some (l, b) => Some (a :: l, b)
  | None => None
  end.

(** The characters of a string up to the closing quotation mark. *)
Fixpoint scan_string (s : string) : option (list N * string) :=
  match s with
  | "" => None
  | String c s' =>
      let n := N_of_ascii c in
      if (n =? 34)%N then Some ([], s')
      else if (n =? 92)%N then
        match s' with
        | "" => None
        | String e s'' =>
            if (N_of_ascii e =? 117)%N then
              match s'' with
              | String h1 (String h2 (String h3 (String h4 r))) =>
                  match hex4_val h1 h2 h3 h4 with
                  | Some u => prepend u (scan_string r)
                  | None => None
                  end
              | _ => None
              end
            else
              match unescape e with
              | Some u => prepend u (scan_string s'')
              | None => None
              end
        end
      else if (n <? 32)%N then None
      else prepend n (scan_string s')
  end.

Fixpoint strip_prefix (p s : string) : option string :=
  match p, s with
  | "", _ => Some s
  | String a p', String b s' => if Ascii.eqb a b then strip_prefix p' s' else None
  | String _ _, "" => None
  end.

(** The literal names. *)
Definition scan_name (ext : bool) (s : string) : option (json * string) :=
  match strip_prefix "null" s with
  | Some r => Some (JNull, r)
  | None =>
  match strip_prefix "true" s with
  | Some r => Some (JBool true, r)
  | None =>
  match strip_prefix "false" s with
  | Some r => Some (JBool false, r)
  | None =>
      if ext then
        match strip_prefix "NaN" s with
        | Some r => Some (JSpecial NaN, r)
        | None =>
        match strip_prefix "Infinity" s with
        | Some r => Some (JSpecial Infinity, r)
        | None =>
        match strip_prefix "-Infinity" s with
        | Some r => Some (JSpecial NegInfinity, r)
        | None => None
        end end end
      else None
  end end end.

Definition on_fst {A B C} (f : A -> B) (r : option (A * C)) : option (B * C) :=
  match r with
  | Some (a, c) => Some (f a, c)
  | None => None
  end.

(** [parse_value] reads one value at the head of [s]; [parse_items] the
    items of an array up to its closing bracket and [parse_members] the
    members of an object up to its closing brace, both from the first item
    on. *)
Fixpoint parse_value (ext : bool) (fuel : nat) (s : string) {struct fuel}
  : option (json * string) :=
  match fuel with
  | O => None
  | S fuel' =>
      match scan_number s with
      | Some (n, r) => Some (JNumber n, r)
      | None =>
          match s with
          | "" => None
          | String c r =>
              if (N_of_ascii c =? 34)%N then on_fst JString (scan_string r)
              else if Ascii.eqb c "[" then
                match skip_ws r with
                | "" => None
                | String c' r' =>
                    if Ascii.eqb c' "]" then Some (JArray [], r')
                    else on_fst JArray (parse_items ext fuel' (skip_ws r))
                end
              else if Ascii.eqb c "{" then
                match skip_ws r with
                | "" => None
                | String c' r' =>
                    if Ascii.eqb c' "}" then Some (JObject [], r')
                    else on_fst JObject (parse_members ext fuel' (skip_ws r))
                end
              else scan_name ext s
          end
      end
  end
with parse_items (ext : bool) (fuel : nat) (s : string) {struct fuel}
  : option (list json * string) :=
  match fuel with
  | O => None
  | S fuel' =>
      match parse_value ext fuel' s with
      | None => None
      | Some (v, r) =>
          match skip_ws r with
          | "" => None
          | String c r' =>
              if Ascii.eqb c "," then prepend v (parse_items ext fuel' (skip_ws r'))
              else if Ascii.eqb c "]" then Some ([v], r')
              else None
          end
      end
  end
with parse_members (ext : bool) (fuel : nat) (s : string) {struct fuel}
  : option (list (list N * json) * string) :=
  match fuel with
  | O => None
  | S fuel' =>
      match s with
      | "" => None
      | String q s1 =>
          if (N_of_ascii q =? 34)%N then
            match scan_string s1 with
            | None => None
            | Some (k, s2) =>
                match skip_ws s2 with
                | "" => None
                | String c s3 =>
                    if Ascii.eqb c ":" then
                      match parse_value ext fuel' (skip_ws s3) with
                      | None => None
                      | Some (v, s4) =>
                          match skip_ws s4 with
                          | "" => None
                          | String c' s5 =>
                              if Ascii.eqb c' ","
                              then prepend (k, v) (parse_members ext fuel' (skip_ws s5))
                              else if Ascii.eqb c' "}" then Some ([(k, v)], s5)
                              else None
                          end
                      end
                    else None
                end
            end
          else None
      end
  end.

(** A JSON text: one value with optional white space around it and
    nothing else. *)
Definition parse (ext : bool) (text : string) : option json :=
  let s := skip_ws text in
  match parse_value ext (2 * String.length s + 1) s with
  | Some (v, r) =>
      match skip_ws r with
      | "" => Some v
      | String _ _ => None
      end
  | None => None
  end.

(** The grammar of RFC 8259. *)
Definition parse_strict : string -> option json := parse false.

Definition member_names (v : json) : option (list (list N)) :=
  match v with
  | JObject ms => Some (List.map fst ms)
  | _ => None
  end.

End JsonText.

(** ** UTF-8 *)

Module Utf8.

Definition between (lo hi : N) (c : ascii) : bool :=
  let b := N_of_ascii c in ((lo <=? b) && (b <=? hi))%N.

(** A continuation byte. *)
Definition cont : ascii -> bool := between 128 191.

(** Well-formed UTF-8 byte sequences (Unicode, table 3-7): no overlong
    forms, no surrogates, nothing above U+10FFFF. *)
Fixpoint valid (s : string) : bool :=
  match s with
  | "" => true
  | String c s1 =>
      if between 0 127 c then valid s1
      else
        match s1 with
        | "" => false
        | String c1 s2 =>
            if between 194 223 c then cont c1 && valid s2
            else
              match s2 with
              | "" => false
              | String c2 s3 =>
                  if between 224 239 c then
                    (if between 224 224 c then between 160 191 c1
                     else if between 237 237 c then between 128 159 c1
                     else cont c1)
                    && cont c2 && valid s3
                  else
                    match s3 with
                    | "" => false
                    | String c3 s4 =>
                        if between 240 244 c then
                          (if between 240 240 c then between 144 191 c1
                           else if between 244 244 c then between 128 143 c1
                           else cont c1)
                          && cont c2 && cont c3 && valid s4
                        else false
                    end
              end
        end
  end.

(** Text of ASCII characters only. *)
Fixpoint ascii_only (s : string) : bool :=
  match s with
  | "" => true
  | String c s' => between 0 127 c && ascii_only s'
  end.

End Utf8.

(** ** Reading numbers: [float (s)] and [int (s)]

    [float] of a decimal string is the binary64 nearest to the decimal
    value, ties to even, an infinity past the largest finite value. *)

Module Strtod.

(** The integer nearest to [a / b], ties to even, for [0 < b]. *)
Definition round_half_even (a b : Z) : Z :=
  let q := a / b in
  match 2 * (a mod b) ?= b with
  | Lt => q
  | Gt => q + 1
  | Eq => if Z.even q then q else q + 1
  end.

(** The exponent [e] of the binade of [num / den]: the one with
    [2^52 <= num / den / 2^e < 2^53], but not below the exponent [-1074] of
    the subnormal numbers. From the bit lengths it is [c] or [c + 1]. *)
Definition binade (num den : Z) : Z :=
  let c := Z.log2 num - Z.log2 den - 53 in
  if c + 1 <? -1074 then -1074
  else if 2 ^ 52 * den * 2 ^ (c + 1 + 1074) <=? num * 2 ^ 1074 then c + 1
  else Z.max (-1074) c.

(** The binary64 nearest to [num / den], for positive [num] and [den]. *)
Definition nearest_binary64 (neg : bool) (num den : Z) : pyfloat :=
  let e := binade num den in
  let m := round_half_even (num * 2 ^ 1074) (den * 2 ^ (e + 1074)) in
  let '(m, e) := if m =? 2 ^ 53 then (2 ^ 52, e + 1) else (m, e) in
  if m =? 0 then S754_zero neg
  else if 971 <? e then S754_infinity neg
  else S754_finite neg (Z.to_pos m) e.

(** The binary64 nearest to [D * 10^k], with the sign [neg]. *)
Definition float_of_decimal (neg : bool) (D k : Z) : pyfloat :=
  if D <=? 0 then S754_zero neg
  else nearest_binary64 neg (D * 10 ^ Z.max k 0) (10 ^ Z.max (- k) 0).

End Strtod.

(** ** [json.loads] *)

Module Loads.

Import JsonText.

Definition is_high (u : N) : bool := ((55296 <=? u) && (u <=? 56319))%N.
Definition is_low (u : N) : bool := ((56320 <=? u) && (u <=? 57343))%N.

(** [py_scanstring] joins a high surrogate escape and the low surrogate
    escape after it into one code point; a lone surrogate stays. *)
Fixpoint combine (us : list N) : pystr :=
  match us with
  | [] => []
  | u :: us' =>
      match us' with
      | u2 :: us'' =>
          if is_high u && is_low u2
          then (65536 + N.lor (N.shiftl (u - 55296) 10) (u2 - 56320))%N :: combine us''
          else u :: combine us'
      | [] => [u]
      end
  end.

(** [int (s)] when the number has neither fraction nor exponent,
    [float (s)] otherwise. *)
Definition of_number (n : number) : pyobj :=
  match frac_part n, exp_part n with
  | None, None =>
      PyInt (if negative n then - value (int_part n) else value (int_part n))
  | fp, ep =>
      let fd := match fp with Some ds => ds | None => [] end in
      let x := match ep with Some x => x | None => 0 end in
      PyFloat (Strtod.float_of_decimal (negative n)
                 (value (int_part n ++ fd))
                 (x - Z.of_nat (List.length fd)))
  end.

(** [d[k] = v]: a new key goes last, an old key keeps its place. *)
Fixpoint dict_set (k : pystr) (v : pyobj) (d : list (pystr * pyobj))
  : list (pystr * pyobj) :=
  match d with
  | [] => [(k, v)]
  | (k', v') :: d' =>
      if decide (k = k') then (k, v) :: d' else (k', v') :: dict_set k v d'
  end.

Definition dict_of_pairs (l : list (pystr * pyobj)) : list (pystr * pyobj) :=
  fold_left (fun d kv => dict_set kv.1 kv.2 d) l [].

(** The Python value of a syntax tree. *)
Fixpoint to_py (j : json) : pyobj :=
  match j with
  | JNull => PyNone
  | JBool b => PyBool b
  | JNumber n => of_number n
  | JSpecial NaN => PyFloat S754_nan
  | JSpecial Infinity => PyFloat (S754_infinity false)
  | JSpecial NegInfinity => PyFloat (S754_infinity true)
  | JString us => PyStr (combine us)
  | JArray l => PyList (List.map to_py l)
  | JObject ms =>
      PyDict (dict_of_pairs (List.map (fun kv => (combine kv.1, to_py kv.2)) ms))
  end.

(** [json.loads (text)]. *)
Definition loads (text : string) : option pyobj :=
  to_py <$> parse true text.

End Loads.

(** ** A small fitted classifier

    Two classes, three support vectors with two features, an RBF kernel
    with [gamma = 0.1] and [C = 1.0]. *)

Module Example.

Definition f_0_1 : pyfloat := S754_finite false 7205759403792794 (-56).
Definition f_1_0 : pyfloat := S754_finite false 4503599627370496 (-52).
Definition f_2_5 : pyfloat := S754_finite false 5629499534213120 (-51).
Definition f_m0_75 : pyfloat := S754_finite true 6755399441055744 (-53).

Definition floats (shp : list nat) (l : list pyfloat) : pyobj :=
  PyArray (mk_ndarray shp (List.map NpFloat l)).
Definition ints (shp : list nat) (l : list Z) : pyobj :=
  PyArray (mk_ndarray shp (List.map NpInt l)).

Definition svc_with (gamma C kernel : pyobj) : pyobj :=
  PyInstance "SVC"
    [ ("C", C);
      ("kernel", kernel);
      ("gamma", gamma);
      ("support_", ints [3%nat] [0; 4; 7]);
      ("support_vectors_",
        floats [3%nat; 2%nat] [f_1_0; f_2_5; f_0_1; f_m0_75; f_2_5; f_1_0]);
      ("n_support_", ints [2%nat] [1; 2]);
      ("dual_coef_", floats [1%nat; 3%nat] [f_m0_75; f_0_1; f_1_0]);
      ("intercept_", floats [1%nat] [f_m0_75]) ].

Definition svc : pyobj := svc_with (PyFloat f_0_1) (PyFloat f_1_0) (PyStr (str "rbf")).

(** The record the script builds from it. *)
Definition record : pyobj :=
  match model_data svc with
  | Ok md => md
  | Raise _ => PyNone
  end.

(** The same classifier fitted with a hard margin, [C = float ('inf')]. *)
Definition svc_hard_margin : pyobj :=
  svc_with (PyFloat f_0_1) (PyFloat (S754_infinity false)) (PyStr (str "rbf")).

(** A classifier with a user-supplied kernel function. *)
Definition svc_callable_kernel : pyobj :=
  svc_with (PyFloat f_0_1) (PyFloat f_1_0) (PyCallable "my_kernel").

(** A toy persistence format: the artifact's first byte selects the
    object, an empty file does not load. *)
Definition unpickle (bytes : string) : result pyobj :=
  match bytes with
  | "" => Raise (UnpicklingError "ran out of input")
  | String "h" _ => Ok svc_hard_margin
  | String "k" _ => Ok svc_callable_kernel
  | String "n" _ => Ok PyNone
  | String _ _ => Ok svc
  end.

Definition world_with (fs : list (string * string)) (ro : list string) : world :=
  mk_world (list_to_map fs) (list_to_set ro) "" [].

(** A directory holding the artifact and a stale output file. *)
Definition w0 : world :=
  world_with [(input_path, "svc"); (output_path, "stale")] [].

(** No artifact. *)
Definition w_missing : world := world_with [(output_path, "stale")] [].

(** The artifact holds the hard-margin classifier. *)
Definition w_hard_margin : world := world_with [(input_path, "hard")] [].

(** The record the display builds from the classifier with the kernel
    function. *)
Definition record_callable_kernel : pyobj :=
  match model_data svc_callable_kernel with
  | Ok md => md
  | Raise _ => PyNone
  end.

(** A three by two array on its own. *)
Definition matrix : ndarray :=
  mk_ndarray [3%nat; 2%nat]
    (List.map NpFloat [f_1_0; f_2_5; f_0_1; f_m0_75; f_2_5; f_1_0]).

(** A classifier whose kernel name holds an accented letter and a
    character outside the basic plane. *)
Definition svc_unicode_kernel : pyobj :=
  svc_with (PyStr (str "scale")) (PyFloat f_1_0)
    (PyStr [114%N; 233%N; 128512%N]).

Definition unpickle_unicode (bytes : string) : result pyobj :=
  Ok svc_unicode_kernel.

Definition record_unicode_kernel : pyobj :=
  match model_data svc_unicode_kernel with
  | Ok md => md
  | Raise _ => PyNone
  end.

(** A classifier whose [gamma] is a NaN. *)
Definition svc_nan : pyobj :=
  svc_with (PyFloat S754_nan) (PyFloat f_1_0) (PyStr (str "rbf")).

Definition unpickle_nan (bytes : string) : result pyobj := Ok svc_nan.

(** The artifact holds [None] instead of a classifier. *)
Definition w_not_a_model : world :=
  world_with [(input_path, "none"); (output_path, "stale")] [].

(** The artifact holds the classifier with the kernel function. *)
Definition w_callable_kernel : world :=
  world_with [(input_path, "kernel"); (output_path, "stale")] [].

(** The output file is write-protected. *)
Definition w_readonly : world :=
  world_with [(input_path, "svc"); (output_path, "stale")] [output_path].

End Example.

(** ** Vocabulary of the properties *)

(** What a successful evaluation of the display tells about the object. *)
Inductive extracted (o : pyobj) (md : pyobj) : Prop :=
| mk_extracted (sv dc ic sp ns : ndarray) (gamma C kernel : pyobj)
    (get_sv : getattr o "support_vectors_" = Ok (PyArray sv))
    (get_dc : getattr o "dual_coef_" = Ok (PyArray dc))
    (get_ic : getattr o "intercept_" = Ok (PyArray ic))
    (get_gamma : getattr o "gamma" = Ok gamma)
    (get_C : getattr o "C" = Ok C)
    (get_kernel : getattr o "kernel" = Ok kernel)
    (get_sp : getattr o "support_" = Ok (PyArray sp))
    (get_ns : getattr o "n_support_" = Ok (PyArray ns))
    (record : md = PyDict [ (str "support_vectors", Np.tolist sv);
                            (str "dual_coef", Np.tolist dc);
                            (str "intercept", Np.tolist ic);
                            (str "gamma", gamma);
                            (str "C", C);
                            (str "kernel", kernel);
                            (str "support", Np.tolist sp);
                            (str "n_support", Np.tolist ns) ]).

(** A nested list with the given dimensions and scalars at the leaves. *)
Fixpoint has_shape (dims : list nat) (v : pyobj) : Prop :=
  match dims with
  | [] => match v with PyFloat _ | PyInt _ => True | _ => False end
  | n :: dims' =>
      match v with
      | PyList l => List.length l = n /\ Forall (has_shape dims') l
      | _ => False
      end
  end.

(** The Python number [v] is the array element [x] unchanged: a float64
    as a float of the same value, an int64 as an int of the same value. *)
Definition same_number (x : npscalar) (v : pyobj) : Prop :=
  match x, v with
  | NpFloat f, PyFloat g => g = f
  | NpInt z, PyInt y => y = z
  | _, _ => False
  end.

(** The array and the nested list hold the same elements at the same
    places. *)
Definition same_elements (a : ndarray) (v : pyobj) : Prop :=
  has_shape (shape a) v /\
  forall idx, Np.in_bounds (shape a) idx = true ->
              exists leaf, Py.index v idx = Some leaf /\
                           same_number (Np.item a idx) leaf.

(** The fields of the record and the attribute each one is read from. *)
Definition array_fields : list (string * string) :=
  [ ("support_vectors", "support_vectors_"); ("dual_coef", "dual_coef_");
    ("intercept", "intercept_"); ("support", "support_");
    ("n_support", "n_support_") ].
Definition verbatim_fields : list string := ["gamma"; "C"; "kernel"].

(** The record [md] is a projection of the object [o]. *)
Definition projection_of (o md : pyobj) : Prop :=
  (forall field attr, In (field, attr) array_fields ->
     exists a v, getattr o attr = Ok (PyArray a) /\
                 Py.getitem md (str field) = Some v /\
                 v = Np.tolist a /\ same_elements a v) /\
  (forall field, In field verbatim_fields ->
     exists v, getattr o field = Ok v /\ Py.getitem md (str field) = Some v).

(** The counts scikit-learn documents for a fitted [SVC]: [support_] has
    shape [(n_SV,)], [support_vectors_] has shape [(n_SV, n_features)] and
    [n_support_] holds the number of support vectors of each class. *)
Definition fitted_counts (sv sp ns : ndarray) : bool :=
  match shape sv, shape sp, shape ns with
  | [n; _], [n'], [_] =>
      (n =? n')%nat && Np.wf ns &&
      bool_decide (Np.sum ns = Some (Z.of_nat n))
  | _, _, _ => false
  end.

(** In the record, [n_support] sums to [len (support)], which is the
    number of rows of [support_vectors]. *)
Definition counts_agree (md : pyobj) : Prop :=
  exists l_ns l_sp rows,
    Py.getitem md (str "n_support") = Some (PyList l_ns) /\
    Py.getitem md (str "support") = Some (PyList l_sp) /\
    Py.getitem md (str "support_vectors") = Some (PyList rows) /\
    Py.sum l_ns = Some (Z.of_nat (List.length l_sp)) /\
    List.length l_sp = List.length rows.

(** The world after the chunks [cs] went to the file at [path]. *)
Definition written (path : string) (cs : list string) (w : world) : world :=
  mk_world (alter (fun old => old +:+ String.concat "" cs) path (files w))
           (readonly w) (stdout w)
           (trace w ++ List.map (EvWrite path) cs).

(** The world after the serialization step wrote [cs]: the artifact was
    loaded, the output file was opened, written and closed. *)
Definition serialized (cs : list string) (w : world) : world :=
  mk_world (<[output_path := String.concat "" cs]> (files w))
           (readonly w) (stdout w)
           (trace w ++ EvLoad input_path :: EvOpen output_path ::
              List.map (EvWrite output_path) cs ++ [EvClose output_path]).

(** The same world with another content, or none, at the output path. *)
Definition with_output (old : option string) (w : world) : world :=
  set_files (match old with
             | Some s => <[output_path := s]> (files w)
             | None => delete output_path (files w)
             end) w.

Definition is_print (ev : event) : bool :=
  match ev with
  | EvPrint _ => true
  | _ => false
  end.

(** The run, statement by statement: what the script does in a world,
    written out as one case analysis. *)
Definition run_cases (unpickle : string -> result pyobj) (w : world)
  : result unit * world :=
  match files w !! input_path with
  | None => (Raise (FileNotFoundError input_path), w)
  | Some bytes =>
      match unpickle bytes with
      | Raise e => (Raise e, log (EvLoad input_path) w)
      | Ok o =>
          match model_data o with
          | Raise e => (Raise e, log (EvLoad input_path) w)
          | Ok md =>
              if decide (output_path ∈ readonly w)
              then (Raise (PermissionError output_path),
                    log (EvLoad input_path) w)
              else
                match Json.iterencode md with
                | (cs, Some e) => (Raise e, serialized cs w)
                | (cs, None) => print success_message (serialized cs w)
                end
          end
      end
  end.

(** The load step of the run in [w] raises [e]. *)
Definition load_raises (unpickle : string -> result pyobj) (w : world)
           (e : pyexc) : Prop :=
  (joblib_load unpickle input_path w).1 = Raise e.

(** The write step of the run in [w] is reached and raises [e]. *)
Definition write_raises (unpickle : string -> result pyobj) (w : world)
           (e : pyexc) : Prop :=
  exists o md w1,
    joblib_load unpickle input_path w = (Ok o, w1) /\
    model_data o = Ok md /\
    (with_open_w output_path (json_dump md) w1).1 = Raise e.

(** The events of a run that ends normally. *)
Definition successful_trace (cs : list string) : list event :=
  [EvLoad input_path; EvOpen output_path] ++
  List.map (EvWrite output_path) cs ++
  [EvClose output_path; EvPrint success_message].

(** The print events of a trace. *)
Definition prints (t : list event) : list event := List.filter is_print t.

(** ** The text of a value

    What the chunks of [iterencode] add up to, for a value that has only
    serializable parts. *)

Fixpoint serializable (v : pyobj) : bool :=
  match v with
  | PyNone | PyBool _ | PyInt _ | PyFloat _ | PyStr _ => true
  | PyList l => forallb serializable l
  | PyDict d => forallb (fun kv => serializable kv.2) d
  | _ => false
  end.

Definition is_finite (f : pyfloat) : bool :=
  match f with
  | S754_zero _ | S754_finite _ _ _ => true
  | _ => false
  end.

(** No float in the value is a NaN or an infinity. *)
Fixpoint all_finite (v : pyobj) : bool :=
  match v with
  | PyFloat f => is_finite f
  | PyList l => forallb all_finite l
  | PyDict d => forallb (fun kv => all_finite kv.2) d
  | _ => true
  end.

Section Texts.

Variable render : pyobj -> string.

Fixpoint items_text (l : list pyobj) : string :=
  match l with
  | [] => "]"
  | v :: l' => ", " +:+ render v +:+ items_text l'
  end.

Definition member_text (kv : pystr * pyobj) : string :=
  Json.encode_basestring_ascii kv.1 +:+ ": " +:+ render kv.2.

Fixpoint members_text (d : list (pystr * pyobj)) : string :=
  match d with
  | [] => "}"
  | kv :: d' => ", " +:+ member_text kv +:+ members_text d'
  end.

End Texts.

Fixpoint render (v : pyobj) : string :=
  match v with
  | PyList [] => "[]"
  | PyList (v0 :: l) => "[" +:+ render v0 +:+ items_text render l
  | PyDict [] => "{}"
  | PyDict (kv :: d) => "{" +:+ member_text render kv +:+ members_text render d
  | _ =>
      match Json.encode_scalar v with
      | Some s => s
      | None => ""
      end
  end.

(** The UTF-16 code units of a string, as [\uXXXX] escapes spell them. *)
Definition units_of (c : N) : list N :=
  if (c <? 65536)%N then [c]
  else
    let n := (c - 65536)%N in
    [N.lor 55296 (N.land (N.shiftr n 10) 1023); N.lor 56320 (N.land n 1023)].

Definition units (s : pystr) : list N := flat_map units_of s.

(** The spelling of an int. *)
Definition int_number (z : Z) : JsonText.number :=
  JsonText.mk_number (z <? 0) (Repr.digits (Z.abs z)) None None.

(** The spelling [format_float_short] gives to the digits [ds] with the
    decimal point at [decpt]. *)
Definition short_number (sign : bool) (ds : list Z) (decpt : Z) : JsonText.number :=
  let len := Z.of_nat (List.length ds) in
  if (decpt <=? -4) || (16 <? decpt) then
    JsonText.mk_number sign (firstn 1 ds)
      (match skipn 1 ds with [] => None | tl => Some tl end)
      (Some (decpt - 1))
  else if decpt <=? 0 then
    JsonText.mk_number sign [0]
      (Some (repeat 0 (Z.to_nat (- decpt)) ++ ds)) None
  else if decpt <? len then
    JsonText.mk_number sign (firstn (Z.to_nat decpt) ds)
      (Some (skipn (Z.to_nat decpt) ds)) None
  else
    JsonText.mk_number sign (ds ++ repeat 0 (Z.to_nat (decpt - len)))
      (Some [0]) None.

Definition float_number (f : pyfloat) : JsonText.number :=
  match f with
  | S754_finite s m e =>
      let '(D, k) := Repr.shortest_decimal (Z.pos m) e in
      let ds := Repr.digits D in
      short_number s ds (Z.of_nat (List.length ds) + k)
  | S754_zero s => short_number s [0] 1
  | _ => JsonText.mk_number false [] None None
  end.

(** The syntax tree of the text of a value. *)
Fixpoint to_json (v : pyobj) : JsonText.json :=
  match v with
  | PyNone => JsonText.JNull
  | PyBool b => JsonText.JBool b
  | PyInt z => JsonText.JNumber (int_number z)
  | PyFloat S754_nan => JsonText.JSpecial JsonText.NaN
  | PyFloat (S754_infinity false) => JsonText.JSpecial JsonText.Infinity
  | PyFloat (S754_infinity true) => JsonText.JSpecial JsonText.NegInfinity
  | PyFloat f => JsonText.JNumber (float_number f)
  | PyStr s => JsonText.JString (units s)
  | PyList l => JsonText.JArray (List.map to_json l)
  | PyDict d => JsonText.JObject (List.map (fun kv => (units kv.1, to_json kv.2)) d)
  | _ => JsonText.JNull
  end.

(** Where a number may end: at the end of the text or in front of a
    separator or a closing bracket. *)
Definition delimited (rest : string) : bool :=
  match rest with
  | "" => true
  | String c _ => Ascii.eqb c "," || Ascii.eqb c "]" || Ascii.eqb c "}"
  end.

(** The names of the eight fields, in the order of the display. *)
Definition field_names : list pystr :=
  List.map str ["support_vectors"; "dual_coef"; "intercept"; "gamma"; "C";
                "kernel"; "support"; "n_support"].

(** ** Spelling numbers *)

Definition is_dig (d : Z) : Prop := 0 <= d <= 9.

Definition sign_text (neg : bool) : string := if neg then "-" else "".

Definition frac_text (fp : option (list Z)) : string :=
  match fp with
  | Some ds => "." +:+ Repr.digs ds
  | None => ""
  end.

Definition exp_text (ep : option Z) : string :=
  match ep with
  | Some x => "e" +:+ Repr.exp_str x
  | None => ""
  end.

(** The text of a number from its parts. *)
Definition spell (n : JsonText.number) : string :=
  sign_text (JsonText.negative n) +:+ Repr.digs (JsonText.int_part n) +:+
  frac_text (JsonText.frac_part n) +:+ exp_text (JsonText.exp_part n).

(** The parts are digits; the integer part is [0] or starts with a
    non-zero digit; a fraction has at least one digit. *)
Definition wf_number (n : JsonText.number) : Prop :=
  Forall is_dig (JsonText.int_part n) /\
  (JsonText.int_part n = [0] \/
   exists d tl, JsonText.int_part n = d :: tl /\ d <> 0) /\
  match JsonText.frac_part n with
  | Some fp => Forall is_dig fp /\ fp <> []
  | None => True
  end.

Definition not_digit_head (s : string) : Prop :=
  match s with
  | "" => True
  | String c _ => JsonText.is_digit c = false
  end.

(** The record a run builds: the display evaluated on what [joblib.load]
    returns. *)
Definition exported_record (unpickle : string -> result pyobj) (w : world)
  : option pyobj :=
  match files w !! input_path with
  | None => None
  | Some bytes =>
      match unpickle bytes with
      | Ok o =>
          match model_data o with
          | Ok md => Some md
          | Raise _ => None
          end
      | Raise _ => None
      end
  end.

(** The output file is UTF-8 text holding one JSON value, an object whose
    keys are exactly the eight fields; with [ext] the grammar also has the
    names [NaN], [Infinity] and [-Infinity]. *)
Definition json_export (ext : bool) (w : world) : Prop :=
  exists text v,
    files w !! output_path = Some text /\
    Utf8.valid text = true /\
    JsonText.parse ext text = Some v /\
    JsonText.member_names v = Some (List.map units field_names).

(** ** Binary64 values *)

(** The mantissa and exponent of a finite non-zero binary64: 53 bits at an
    exponent from [-1074] to [971], or fewer bits at the exponent [-1074] of
    the subnormal numbers. *)
Definition canonical (m e : Z) : Prop :=
  (2 ^ 52 <= m < 2 ^ 53 /\ -1074 <= e <= 971) \/
  (1 <= m < 2 ^ 52 /\ e = -1074).

(** A float is a binary64 value. *)
Definition binary64 (f : pyfloat) : bool := valid_binary 53 1024 f.

(** [num / den] rounds to [m * 2^e]: it lies between the midpoints to the
    neighbours, in units of [2^-1076]. *)
Definition rounds_to (m e num den : Z) : Prop :=
  let lo := Repr.lower_mid m e * 2 ^ (e + 1074) * den in
  let hi := Repr.upper_mid m * 2 ^ (e + 1074) * den in
  let c := num * 2 ^ 1076 in
  if Z.even m then lo <= c <= hi else lo < c < hi.

(** Every float of a value is a binary64 value. *)
Fixpoint all_binary64 (v : pyobj) : bool :=
  match v with
  | PyFloat f => binary64 f
  | PyList l => forallb all_binary64 l
  | PyDict d => forallb (fun kv => all_binary64 kv.2) d
  | _ => true
  end.

(** Numbers, nested lists of numbers, [None], booleans, and strings of
    code points below the surrogates. *)
Fixpoint lossless (v : pyobj) : bool :=
  match v with
  | PyNone | PyBool _ | PyInt _ | PyFloat _ => true
  | PyStr s => forallb (fun c => (c <? 55296)%N) s
  | PyList l => forallb lossless l
  | _ => false
  end.

(** ** Reading the file back *)

(** Equality of numbers, [==] on two floats or on two ints: a NaN is equal
    to nothing, itself included. *)
Definition num_eq (x v : pyobj) : bool :=
  match x, v with
  | PyFloat f, PyFloat g => SFeqb f g
  | PyInt a, PyInt b => a =? b
  | _, _ => false
  end.

(** The same between an array element and a Python number. *)
Definition elem_eq (x : npscalar) (v : pyobj) : bool :=
  match x, v with
  | NpFloat f, PyFloat g => SFeqb f g
  | NpInt z, PyInt y => z =? y
  | _, _ => false
  end.

Definition is_number (x : pyobj) : bool :=
  match x with
  | PyFloat _ | PyInt _ => true
  | _ => false
  end.

Definition not_nan (f : pyfloat) : bool :=
  match f with
  | S754_nan => false
  | _ => true
  end.

(** Every float of an attribute value, be it a float or an array, has the
    property [P]. *)
Definition elem_floats (P : pyfloat -> bool) (x : npscalar) : bool :=
  match x with
  | NpFloat f => P f
  | NpInt _ => true
  end.

Fixpoint value_floats (P : pyfloat -> bool) (x : pyobj) : bool :=
  match x with
  | PyFloat f => P f
  | PyArray a => forallb (elem_floats P) (data a)
  | PyList l => forallb (value_floats P) l
  | PyDict d => forallb (fun kv => value_floats P kv.2) d
  | _ => true
  end.

(** Every float the object holds in an attribute has the property [P]. *)
Definition model_floats (P : pyfloat -> bool) (o : pyobj) : bool :=
  match o with
  | PyInstance _ attrs => forallb (fun kv => value_floats P kv.2) attrs
  | _ => true
  end.

(** The values a reader makes of the output file are the numbers of the
    loaded model [o]: the file holds one value of the JSON grammar (with
    [ext], of the grammar [json.loads] reads, which has [NaN], [Infinity]
    and [-Infinity] too); in the dict it stands for, every array field is a
    nested list of the shape of the model's attribute whose number at each
    index is equal to the attribute's element there, and [gamma], [C] and
    [kernel], where the model holds a number, are equal to it. *)
Definition reads_back (ext : bool) (o : pyobj) (w : world) : Prop :=
  exists text tree,
    files w !! output_path = Some text /\
    JsonText.parse ext text = Some tree /\
    (forall field attr a,
       In (field, attr) array_fields ->
       getattr o attr = Ok (PyArray a) ->
       exists v,
         Py.getitem (Loads.to_py tree) (str field) = Some v /\
         has_shape (shape a) v /\
         forall idx, Np.in_bounds (shape a) idx = true ->
                     exists leaf, Py.index v idx = Some leaf /\
                                  elem_eq (Np.item a idx) leaf = true) /\
    (forall field x,
       In field verbatim_fields ->
       getattr o field = Ok x ->
       is_number x = true ->
       exists v, Py.getitem (Loads.to_py tree) (str field) = Some v /\
                 num_eq x v = true).

(** ** Further vocabulary *)

(** The attributes the display reads, in the order it reads them, and the
    method it calls on five of them. *)
Definition attributes_read : list string :=
  ["support_vectors_"; "dual_coef_"; "intercept_"; "gamma"; "C"; "kernel";
   "support_"; "n_support_"; "tolist"].

(** The leaves of a nested list, left to right. *)
Fixpoint flatten (v : pyobj) : list pyobj :=
  match v with
  | PyList l => flat_map flatten l
  | _ => [v]
  end.

(** Text of printable ASCII characters only: no control character, no
    line break, nothing above [~]. *)
Fixpoint printable (s : string) : bool :=
  match s with
  | "" => true
  | String c s' => Utf8.between 32 126 c && printable s'
  end.

(** A Unicode scalar value: a code point that is not a surrogate. *)
Definition scalar_value (c : N) : bool :=
  ((c <? 55296) || ((57344 <=? c) && (c <? 1114112)))%N.

(** Where a run stands: nothing done yet, the artifact loaded, the output
    file open, the file closed, the message printed. *)
Inductive phase := Start | Loaded | Opened | Closed | Printed.

(** The events of a run come in the order of the script: the artifact at
    [input_path] is loaded first; only then is the file at [output_path]
    opened; chunks are written to that file, and only while it is open; it
    is closed; the message is printed after that, and nothing follows. A
    run may stop after any step but not with the file open. *)
Fixpoint in_order (ph : phase) (evs : list event) : bool :=
  match evs, ph with
  | [], Opened => false
  | [], _ => true
  | EvLoad p :: evs', Start => String.eqb p input_path && in_order Loaded evs'
  | EvOpen p :: evs', Loaded => String.eqb p output_path && in_order Opened evs'
  | EvWrite p _ :: evs', Opened => String.eqb p output_path && in_order Opened evs'
  | EvClose p :: evs', Opened => String.eqb p output_path && in_order Closed evs'
  | EvPrint _ :: evs', Closed => in_order Printed evs'
  | _, _ => false
  end.

(** An encoder that stops does so with a [TypeError]. *)
Definition fails_with_type_error (g : Json.chunks) : Prop :=
  match g.2 with
  | Some e => exists msg, e = TypeError msg
  | None => True
  end.

(** * Properties *)

(** ** Evaluation of the dictionary display *)

Lemma bind_ok {A B} (r : result A) (k : A -> result B) (b : B) :
  r ≫= k = Ok b -> exists a, r = Ok a /\ k a = Ok b.
Proof.
  destruct r as [a|e]; cbn; intros H; [eauto | discriminate].
Qed.

Lemma tolist_attr_ok o name v :
  tolist_attr o name = Ok v ->
  exists a, getattr o name = Ok (PyArray a) /\ v = Np.tolist a.
Proof.
  unfold tolist_attr. intros H.
  apply bind_ok in H as (x & Hx & Hc).
  destruct x; cbn in Hc; try discriminate.
  injection Hc as <-. eauto.
Qed.

Lemma model_data_inv o md : model_data o = Ok md -> extracted o md.
Proof.
  unfold model_data. intros H.
  apply bind_ok in H as (v1 & H1 & H). apply tolist_attr_ok in H1 as (sv & Hsv & ->).
  apply bind_ok in H as (v2 & H2 & H). apply tolist_attr_ok in H2 as (dc & Hdc & ->).
  apply bind_ok in H as (v3 & H3 & H). apply tolist_attr_ok in H3 as (ic & Hic & ->).
  apply bind_ok in H as (g & Hg & H).
  apply bind_ok in H as (c & Hc & H).
  apply bind_ok in H as (k & Hk & H).
  apply bind_ok in H as (v4 & H4 & H). apply tolist_attr_ok in H4 as (sp & Hsp & ->).
  apply bind_ok in H as (v5 & H5 & H). apply tolist_attr_ok in H5 as (ns & Hns & ->).
  injection H as <-.
  by eapply mk_extracted.
Qed.

(** ** [tolist] is a change of format *)

Lemma nth_error_map_seq {A} (f : nat -> A) (n i : nat) :
  (i < n)%nat -> nth_error (List.map f (seq 0 n)) i = Some (f i).
Proof.
  intros Hi. rewrite nth_error_map, nth_error_seq.
  destruct (Nat.ltb_spec i n); [reflexivity | lia].
Qed.

Lemma recursive_tolist_index buf dims : forall idx p,
  Np.in_bounds dims idx = true ->
  Py.index (Np.recursive_tolist buf dims p) idx =
  Some (Np.getitem (nth (p + Np.ravel dims idx) buf (NpInt 0))).
Proof.
  induction dims as [|n dims IH]; intros [|i idx] p Hb; cbn in Hb; try discriminate.
  - cbn. by rewrite Nat.add_0_r.
  - apply andb_prop in Hb as [Hi Hb]. apply Nat.ltb_lt in Hi.
    cbn [Np.recursive_tolist Py.index Np.ravel].
    rewrite nth_error_map_seq by assumption.
    rewrite IH by assumption. by rewrite Nat.add_assoc.
Qed.

(** Element [idx] of the nested list is element [idx] of the array. *)
Lemma tolist_index a idx :
  Np.in_bounds (shape a) idx = true ->
  Py.index (Np.tolist a) idx = Some (Np.getitem (Np.item a idx)).
Proof.
  intros Hb. unfold Np.tolist, Np.item.
  by rewrite recursive_tolist_index.
Qed.

Lemma recursive_tolist_shape buf dims : forall p,
  has_shape dims (Np.recursive_tolist buf dims p).
Proof.
  induction dims as [|n dims IH]; intros p; cbn.
  - by destruct (nth p buf (NpInt 0)).
  - split.
    + by rewrite length_map, length_seq.
    + apply Forall_forall. intros x Hx.
      apply list_elem_of_In, in_map_iff in Hx as (i & <- & _). apply IH.
Qed.

Lemma tolist_shape a : has_shape (shape a) (Np.tolist a).
Proof. apply recursive_tolist_shape. Qed.

Lemma getitem_same_number x : same_number x (Np.getitem x).
Proof. by destruct x. Qed.

Lemma tolist_same_elements a : same_elements a (Np.tolist a).
Proof.
  split; [apply tolist_shape|]. intros idx Hb.
  exists (Np.getitem (Np.item a idx)).
  split; [by apply tolist_index | apply getitem_same_number].
Qed.

(** C1. Every field of the exported record is the fitted parameter of the
    loaded model it is named after: an array attribute appears as the nested
    list of the same shape whose number at every index is the array's element
    at that index, a float for a float and an int for an int, of the same
    value; [gamma], [C] and [kernel] are the attribute values themselves. *)
Theorem model_data_is_projection (o md : pyobj) :
  model_data o = Ok md -> projection_of o md.
Proof.
  intros H. destruct (model_data_inv _ _ H)
    as [sv dc ic sp ns g c k Hsv Hdc Hic Hg Hc Hk Hsp Hns ->].
  split.
  - intros field attr Hin. cbn in Hin.
    destruct Hin as [E|[E|[E|[E|[E|[]]]]]]; injection E as <- <-;
      eexists; eexists; (split; [eassumption|]);
      (split; [reflexivity|]); (split; [reflexivity|]);
      apply tolist_same_elements.
  - intros field Hin. cbn in Hin.
    destruct Hin as [<-|[<-|[<-|[]]]]; eexists; (split; [eassumption|]); reflexivity.
Qed.

Lemma model_data_is_projection_witness :
  model_data Example.svc = Ok Example.record /\
  projection_of Example.svc Example.record.
Proof.
  split; [reflexivity|].
  apply (model_data_is_projection Example.svc Example.record). reflexivity.
Defined.

(** ** Shapes and counts *)

Lemma getattr_det o name v1 v2 :
  getattr o name = Ok v1 -> getattr o name = Ok v2 -> v1 = v2.
Proof. congruence. Qed.

(** C9. When the loaded model's [support_vectors_] is an array of
    [n] support vectors with [d] features, the exported [support_vectors]
    is a list of [n] rows, each a list of [d] numbers. *)
Theorem support_vectors_dimensions (o md : pyobj) (a : ndarray) (n d : nat) :
  model_data o = Ok md ->
  getattr o "support_vectors_" = Ok (PyArray a) ->
  shape a = [n; d] ->
  exists rows,
    Py.getitem md (str "support_vectors") = Some (PyList rows) /\
    List.length rows = n /\
    Forall (fun row => exists cells,
              row = PyList cells /\ List.length cells = d /\
              Forall (has_shape []) cells) rows.
Proof.
  intros H Ha Hs. destruct (model_data_inv _ _ H)
    as [sv dc ic sp ns g c k Hsv Hdc Hic Hg Hc Hk Hsp Hns ->].
  assert (sv = a) as -> by (pose proof (getattr_det _ _ _ _ Hsv Ha); congruence).
  pose proof (tolist_shape a) as Hshape. rewrite Hs in Hshape.
  destruct (Np.tolist a) as [| | | | |rows| | | |] eqn:E; cbn in Hshape; try contradiction.
  destruct Hshape as [Hlen Hrows].
  exists rows. split; [cbn; by rewrite decide_True|]. split; [exact Hlen|].
  eapply Forall_impl; [exact Hrows|]. cbn. intros row Hrow.
  destruct row; try contradiction. destruct Hrow as [? ?]. eauto.
Qed.

Lemma support_vectors_dimensions_witness :
  exists rows,
    Py.getitem Example.record (str "support_vectors") = Some (PyList rows) /\
    List.length rows = 3%nat /\
    Forall (fun row => exists cells,
              row = PyList cells /\ List.length cells = 2%nat /\
              Forall (has_shape []) cells) rows.
Proof.
  apply (support_vectors_dimensions Example.svc Example.record
           (mk_ndarray [3%nat; 2%nat]
              (List.map NpFloat
                 [Example.f_1_0; Example.f_2_5; Example.f_0_1;
                  Example.f_m0_75; Example.f_2_5; Example.f_1_0]))
           3 2); reflexivity.
Defined.

Lemma map_nth_seq {A B} (f : A -> B) (d : A) (l : list A) :
  List.map (fun i => f (nth (0 + i * 1) l d)) (seq 0 (List.length l)) = List.map f l.
Proof.
  apply nth_ext with (d := f d) (d' := f d).
  - by rewrite !length_map, length_seq.
  - intros i Hi. rewrite length_map, length_seq in Hi.
    rewrite (nth_indep _ _ (f (nth (0 + 0 * 1) l d))) by (by rewrite length_map, length_seq).
    rewrite (map_nth (fun i => f (nth (0 + i * 1) l d)) (seq 0 (List.length l)) 0%nat i).
    rewrite seq_nth by assumption. cbn [Nat.add]. rewrite Nat.mul_1_r.
    by rewrite (map_nth f l d i).
Qed.

(** The list of a one-dimensional array is its buffer, element by
    element. *)
Lemma tolist_vector a n :
  shape a = [n] -> Np.wf a = true ->
  Np.tolist a = PyList (List.map Np.getitem (data a)).
Proof.
  intros Hs Hwf. unfold Np.tolist, Np.wf in *. rewrite Hs in *.
  cbn in Hwf. apply Nat.eqb_eq in Hwf. rewrite Nat.mul_1_r in Hwf. subst n.
  cbn [Np.recursive_tolist Np.size fold_right].
  by rewrite map_nth_seq.
Qed.

Lemma sum_getitem l : Py.sum (List.map Np.getitem l) = Np.sum_ints l.
Proof.
  induction l as [|[f|z] l IH]; cbn; [reflexivity..|]. by rewrite IH.
Qed.

(** C8. When the loaded model satisfies the counts of a fitted classifier,
    the exported [n_support] sums to the length of the exported [support],
    which is also the number of rows of the exported [support_vectors]. *)
Theorem n_support_sums_to_support (o md : pyobj) (sv sp ns : ndarray) :
  model_data o = Ok md ->
  getattr o "support_vectors_" = Ok (PyArray sv) ->
  getattr o "support_" = Ok (PyArray sp) ->
  getattr o "n_support_" = Ok (PyArray ns) ->
  fitted_counts sv sp ns = true ->
  counts_agree md.
Proof.
  intros H Hsv' Hsp' Hns' Hfit. destruct (model_data_inv _ _ H)
    as [sv0 dc ic sp0 ns0 g c k Hsv Hdc Hic Hg Hc Hk Hsp Hns ->].
  assert (sv0 = sv) as -> by (pose proof (getattr_det _ _ _ _ Hsv Hsv'); congruence).
  assert (sp0 = sp) as -> by (pose proof (getattr_det _ _ _ _ Hsp Hsp'); congruence).
  assert (ns0 = ns) as -> by (pose proof (getattr_det _ _ _ _ Hns Hns'); congruence).
  unfold fitted_counts in Hfit.
  destruct (shape sv) as [|n [|d [|]]] eqn:Esv; try discriminate.
  destruct (shape sp) as [|n' [|]] eqn:Esp; try discriminate.
  destruct (shape ns) as [|kk [|]] eqn:Ens; try discriminate.
  apply andb_prop in Hfit as [Hfit Hsum]. apply andb_prop in Hfit as [Hn Hwf].
  apply Nat.eqb_eq in Hn. subst n'. apply bool_decide_eq_true in Hsum.
  pose proof (tolist_shape sv) as Hshv. rewrite Esv in Hshv.
  pose proof (tolist_shape sp) as Hshp. rewrite Esp in Hshp.
  destruct (Np.tolist sv) as [| | | | |rows| | | |] eqn:Ev; cbn in Hshv; try contradiction.
  destruct (Np.tolist sp) as [| | | | |l_sp| | | |] eqn:Ep; cbn in Hshp; try contradiction.
  exists (List.map Np.getitem (data ns)), l_sp, rows.
  split; [|split; [|split; [|split]]].
  - rewrite (tolist_vector ns kk) by assumption. reflexivity.
  - reflexivity.
  - reflexivity.
  - rewrite sum_getitem. fold (Np.sum ns). rewrite Hsum. do 2 f_equal. symmetry. apply Hshp.
  - destruct Hshv as [-> _]. apply Hshp.
Qed.

Lemma n_support_sums_to_support_witness : counts_agree Example.record.
Proof.
  apply (n_support_sums_to_support Example.svc Example.record
           (mk_ndarray [3%nat; 2%nat]
              (List.map NpFloat
                 [Example.f_1_0; Example.f_2_5; Example.f_0_1;
                  Example.f_m0_75; Example.f_2_5; Example.f_1_0]))
           (mk_ndarray [3%nat] (List.map NpInt [0; 4; 7]))
           (mk_ndarray [2%nat] (List.map NpInt [1; 2]))); reflexivity.
Defined.

(** ** Strings *)

Lemma append_cons c s t : String c s +:+ t = String c (s +:+ t).
Proof. reflexivity. Qed.

Lemma append_nil_l s : "" +:+ s = s.
Proof. reflexivity. Qed.

Lemma append_nil_r s : s +:+ "" = s.
Proof.
  induction s as [|c s IH]; [reflexivity | by rewrite append_cons, IH].
Qed.

Lemma append_assoc s1 s2 s3 : (s1 +:+ s2) +:+ s3 = s1 +:+ (s2 +:+ s3).
Proof.
  induction s1 as [|c s1 IH]; [reflexivity | by rewrite !append_cons, IH].
Qed.

Lemma length_append s1 s2 :
  String.length (s1 +:+ s2) = (String.length s1 + String.length s2)%nat.
Proof.
  induction s1 as [|c s1 IH]; [reflexivity|].
  rewrite append_cons. cbn [String.length]. by rewrite IH.
Qed.

Lemma concat_cons c cs : String.concat "" (c :: cs) = c +:+ String.concat "" cs.
Proof. destruct cs; [symmetry; apply append_nil_r | reflexivity]. Qed.

Lemma concat_app cs1 cs2 :
  String.concat "" (cs1 ++ cs2) = String.concat "" cs1 +:+ String.concat "" cs2.
Proof.
  induction cs1 as [|c cs1 IH]; [reflexivity|].
  rewrite <- app_comm_cons, !concat_cons, IH. by rewrite append_assoc.
Qed.

(** ** The steps of the run *)

Lemma write_all_spec path cs : forall w,
  write_all path cs w = (Ok tt, written path cs w).
Proof.
  induction cs as [|c cs IH]; intros w.
  - cbn. unfold written. cbn. rewrite app_nil_r. destruct w; cbn. do 2 f_equal.
    rewrite <- (alter_id (fun old => old +:+ "")) at 1; [reflexivity|].
    intros; apply append_nil_r.
  - cbn [write_all]. unfold mbind, io_bind, write. rewrite IH.
    unfold written, log, set_files.
    cbn [files readonly stdout trace List.map]. do 2 f_equal.
    + rewrite alter_alter_eq. apply alter_ext. intros x _. unfold compose.
      rewrite concat_cons. apply append_assoc.
    + by rewrite <- app_assoc.
Qed.

Lemma json_dump_spec md path w :
  json_dump md path w =
  (match (Json.iterencode md).2 with None => Ok tt | Some e => Raise e end,
   written path (Json.iterencode md).1 w).
Proof.
  unfold json_dump. destruct (Json.iterencode md) as [cs [e|]]; cbn;
    unfold mbind, io_bind; by rewrite write_all_spec.
Qed.

Lemma convert_svm_unfold unpickle w :
  convert_svm unpickle w = run_cases unpickle w.
Proof.
  unfold convert_svm, run_cases, mbind, io_bind, joblib_load.
  destruct (files w !! input_path) as [bytes|] eqn:Hf; [|reflexivity].
  destruct (unpickle bytes) as [o|e] eqn:Hu; [|reflexivity].
  unfold lift. destruct (model_data o) as [md|e] eqn:Hm; [|reflexivity].
  unfold with_open_w, open_w. cbn [readonly log].
  destruct (decide (output_path ∈ readonly w)) as [Hro|Hro]; [reflexivity|].
  rewrite json_dump_spec.
  destruct (Json.iterencode md) as [cs err] eqn:Hj. cbn [fst snd].
  assert (Hw : (close output_path
                  (written output_path cs
                     (log (EvOpen output_path)
                        (set_files (<[output_path:=""]> (files (log (EvLoad input_path) w)))
                           (log (EvLoad input_path) w))))).2 = serialized cs w).
  { unfold close, written, serialized, log, set_files. cbn. f_equal.
    - by rewrite alter_insert_eq.
    - rewrite <- !app_assoc. reflexivity. }
  destruct err as [e|]; by rewrite Hw.
Qed.

Lemma paths_differ : output_path <> input_path.
Proof. discriminate. Qed.

Lemma prints_app t1 t2 : prints (t1 ++ t2) = prints t1 ++ prints t2.
Proof. unfold prints. apply List.filter_app. Qed.

Lemma prints_writes path cs : prints (List.map (EvWrite path) cs) = [].
Proof. induction cs as [|c cs IH]; [reflexivity | exact IH]. Qed.

Lemma prints_serialized cs w : prints (trace (serialized cs w)) = prints (trace w).
Proof.
  unfold serialized. cbn [trace].
  rewrite prints_app. change (prints (?a :: ?b :: ?l)) with (prints l).
  rewrite prints_app, prints_writes. cbn. by rewrite app_nil_r.
Qed.

(** A run that raises leaves standard output as it was and prints
    nothing. *)
Lemma raise_prints_nothing unpickle w e w' :
  convert_svm unpickle w = (Raise e, w') ->
  stdout w' = stdout w /\ prints (trace w') = prints (trace w).
Proof.
  rewrite convert_svm_unfold. unfold run_cases.
  destruct (files w !! input_path) as [bytes|].
  2:{ intros [= <- <-]. by split. }
  assert (Hlog : prints (trace (log (EvLoad input_path) w)) = prints (trace w)).
  { cbn. rewrite prints_app. cbn. by rewrite app_nil_r. }
  destruct (unpickle bytes) as [o|e1]; [|by intros [= <- <-]].
  destruct (model_data o) as [md|e1]; [|by intros [= <- <-]].
  destruct (decide _); [by intros [= <- <-]|].
  destruct (Json.iterencode md) as [cs [e1|]]; [|discriminate].
  intros [= <- <-]. split; [reflexivity | apply prints_serialized].
Qed.

(** C6. With no file at the artifact's path the run raises the load
    error and leaves the world as it was: no file is created or changed,
    at the output path or anywhere else. *)
Theorem missing_input_changes_nothing unpickle (w : world) :
  files w !! input_path = None ->
  convert_svm unpickle w = (Raise (FileNotFoundError input_path), w).
Proof.
  intros H. rewrite convert_svm_unfold. unfold run_cases. by rewrite H.
Qed.

Lemma missing_input_changes_nothing_witness :
  convert_svm Example.unpickle Example.w_missing =
  (Raise (FileNotFoundError input_path), Example.w_missing).
Proof.
  apply (missing_input_changes_nothing Example.unpickle Example.w_missing).
  reflexivity.
Defined.

(** C5. When the load step or the write step raises, the run ends with
    that very exception, standard output is as it was before the run and
    nothing was printed. *)
Theorem errors_propagate unpickle (w : world) (e : pyexc) :
  load_raises unpickle w e \/ write_raises unpickle w e ->
  (convert_svm unpickle w).1 = Raise e /\
  stdout (convert_svm unpickle w).2 = stdout w /\
  prints (trace (convert_svm unpickle w).2) = prints (trace w).
Proof.
  intros H.
  assert (Hr : (convert_svm unpickle w).1 = Raise e).
  { unfold convert_svm, mbind, io_bind.
    destruct H as [H | (o & md & w1 & Hl & Hm & Hw)].
    - unfold load_raises in H.
      destruct (joblib_load unpickle input_path w) as [[o|e1] w1]; cbn in H |- *;
        [discriminate | by injection H as ->].
    - rewrite Hl. unfold lift. rewrite Hm.
      destruct (with_open_w output_path (json_dump md) w1) as [[u|e1] w2];
        cbn in Hw |- *; [discriminate | by injection Hw as ->]. }
  split; [exact Hr|].
  destruct (convert_svm unpickle w) as [r w'] eqn:E. cbn in Hr. subst r.
  by apply raise_prints_nothing in E.
Qed.

Lemma errors_propagate_witness :
  ((convert_svm Example.unpickle Example.w_missing).1 =
     Raise (FileNotFoundError input_path) /\
   stdout (convert_svm Example.unpickle Example.w_missing).2 = "" /\
   prints (trace (convert_svm Example.unpickle Example.w_missing).2) = []) /\
  ((convert_svm Example.unpickle Example.w_readonly).1 =
     Raise (PermissionError output_path) /\
   stdout (convert_svm Example.unpickle Example.w_readonly).2 = "" /\
   prints (trace (convert_svm Example.unpickle Example.w_readonly).2) = []).
Proof.
  split.
  - apply (errors_propagate Example.unpickle Example.w_missing).
    left. reflexivity.
  - apply (errors_propagate Example.unpickle Example.w_readonly).
    right. exists Example.svc, Example.record, (log (EvLoad input_path) Example.w_readonly).
    split; [reflexivity|]. split; reflexivity.
Defined.

(** A run that ends normally went through every statement. *)
Lemma ok_inv unpickle w w' :
  convert_svm unpickle w = (Ok tt, w') ->
  exists bytes o md cs,
    files w !! input_path = Some bytes /\ unpickle bytes = Ok o /\
    model_data o = Ok md /\ (output_path ∉ readonly w) /\
    Json.iterencode md = (cs, None) /\
    w' = (print success_message (serialized cs w)).2.
Proof.
  rewrite convert_svm_unfold. unfold run_cases.
  destruct (files w !! input_path) as [bytes|]; [|discriminate].
  destruct (unpickle bytes) as [o|e1] eqn:Hu; [|discriminate].
  destruct (model_data o) as [md|e1] eqn:Hm; [|discriminate].
  destruct (decide _) as [|Hro]; [discriminate|].
  destruct (Json.iterencode md) as [cs [e1|]] eqn:Hj; [discriminate|].
  intros [= <-]. by exists bytes, o, md, cs.
Qed.

Lemma ok_intro unpickle w bytes o md cs :
  files w !! input_path = Some bytes -> unpickle bytes = Ok o ->
  model_data o = Ok md -> output_path ∉ readonly w ->
  Json.iterencode md = (cs, None) ->
  convert_svm unpickle w = (Ok tt, (print success_message (serialized cs w)).2).
Proof.
  intros Hf Hu Hm Hro Hj. rewrite convert_svm_unfold. unfold run_cases.
  rewrite Hf, Hu, Hm, decide_False, Hj by assumption. reflexivity.
Qed.

(** C7. A run that ends normally loaded the artifact, built the record
    from the loaded object, opened the output file, wrote the chunks of the
    record's encoding, closed the file and only then printed the message,
    once; a run that raises prints nothing. *)
Theorem steps_in_order unpickle (w w' : world) (r : result unit) :
  convert_svm unpickle w = (r, w') ->
  match r with
  | Ok _ =>
      exists bytes o md cs,
        files w !! input_path = Some bytes /\ unpickle bytes = Ok o /\
        model_data o = Ok md /\ Json.iterencode md = (cs, None) /\
        trace w' = trace w ++ successful_trace cs /\
        stdout w' = stdout w +:+ success_message +:+ newline
  | Raise _ =>
      stdout w' = stdout w /\ prints (trace w') = prints (trace w)
  end.
Proof.
  intros H. destruct r as [[]|e]; [|by eapply raise_prints_nothing].
  apply ok_inv in H as (bytes & o & md & cs & Hf & Hu & Hm & _ & Hj & ->).
  exists bytes, o, md, cs. repeat (split; [assumption|]).
  split; [|reflexivity].
  unfold successful_trace, serialized. cbn.
  rewrite <- app_assoc. cbn. by rewrite <- app_assoc.
Qed.

Lemma steps_in_order_witness :
  exists bytes o md cs,
    files Example.w0 !! input_path = Some bytes /\
    Example.unpickle bytes = Ok o /\
    model_data o = Ok md /\ Json.iterencode md = (cs, None) /\
    trace (convert_svm Example.unpickle Example.w0).2 =
      trace Example.w0 ++ successful_trace cs /\
    stdout (convert_svm Example.unpickle Example.w0).2 =
      stdout Example.w0 +:+ success_message +:+ newline.
Proof.
  apply (steps_in_order Example.unpickle Example.w0
           (convert_svm Example.unpickle Example.w0).2 (Ok tt)).
  vm_compute. reflexivity.
Defined.

(** C4. A second run after a successful one finds the artifact unchanged,
    succeeds again and leaves every file, the output file included, with the
    same bytes as the first run did. *)
Theorem export_idempotent unpickle (w w1 : world) :
  convert_svm unpickle w = (Ok tt, w1) ->
  files w1 !! input_path = files w !! input_path /\
  exists w2, convert_svm unpickle w1 = (Ok tt, w2) /\
             files w2 = files w1 /\
             files w2 !! output_path = files w1 !! output_path.
Proof.
  intros H.
  apply ok_inv in H as (bytes & o & md & cs & Hf & Hu & Hm & Hro & Hj & ->).
  assert (Hin : files (print success_message (serialized cs w)).2 !! input_path
                = files w !! input_path).
  { cbn. apply lookup_insert_ne, paths_differ. }
  split; [exact Hin|].
  eexists. split.
  - eapply ok_intro; [by rewrite Hin | eassumption.. ].
  - cbn. rewrite insert_insert_eq. by split.
Qed.

Lemma export_idempotent_witness :
  files (convert_svm Example.unpickle Example.w0).2 !! input_path =
    files Example.w0 !! input_path /\
  exists w2,
    convert_svm Example.unpickle (convert_svm Example.unpickle Example.w0).2 =
      (Ok tt, w2) /\
    files w2 = files (convert_svm Example.unpickle Example.w0).2 /\
    files w2 !! output_path =
      files (convert_svm Example.unpickle Example.w0).2 !! output_path.
Proof.
  apply (export_idempotent Example.unpickle Example.w0).
  vm_compute. reflexivity.
Defined.

Lemma with_output_input old w :
  files (with_output old w) !! input_path = files w !! input_path.
Proof.
  destruct old; cbn; [apply lookup_insert_ne | apply lookup_delete_ne];
    apply paths_differ.
Qed.

Lemma insert_with_output old w s :
  <[output_path := s]> (files (with_output old w)) = <[output_path := s]> (files w).
Proof.
  destruct old; cbn; [apply insert_insert_eq | apply insert_delete_eq].
Qed.

(** C10. Whatever is at the output path before the run, some content or
    no file at all, a run that reaches the write step ends the same way and
    leaves there exactly the chunks it wrote: the earlier content is gone
    and is never looked at. *)
Theorem output_overwritten unpickle (w : world) bytes o md (old : option string) :
  files w !! input_path = Some bytes ->
  unpickle bytes = Ok o ->
  model_data o = Ok md ->
  output_path ∉ readonly w ->
  (convert_svm unpickle (with_output old w)).1 = (convert_svm unpickle w).1 /\
  files (convert_svm unpickle (with_output old w)).2 =
    <[output_path := String.concat "" (Json.iterencode md).1]> (files w).
Proof.
  intros Hf Hu Hm Hro.
  rewrite !convert_svm_unfold. unfold run_cases.
  rewrite with_output_input, Hf, Hu, Hm.
  change (readonly (with_output old w)) with (readonly w).
  rewrite !decide_False by assumption.
  destruct (Json.iterencode md) as [cs [e|]]; cbn [fst snd print serialized files];
    by rewrite insert_with_output.
Qed.

Lemma output_overwritten_witness :
  (convert_svm Example.unpickle (with_output (Some "{}") Example.w0)).1 =
    (convert_svm Example.unpickle Example.w0).1 /\
  files (convert_svm Example.unpickle (with_output (Some "{}") Example.w0)).2 =
    <[output_path := String.concat "" (Json.iterencode Example.record).1]>
      (files Example.w0).
Proof.
  apply (output_overwritten Example.unpickle Example.w0 "svc" Example.svc
           Example.record (Some "{}")); try reflexivity.
  vm_compute. intros H. inversion H.
Defined.

(** ** The encoder's chunks add up to the text *)

Section PyobjInd.

Variable P : pyobj -> Prop.
Hypothesis HNone : P PyNone.
Hypothesis HBool : forall b, P (PyBool b).
Hypothesis HInt : forall z, P (PyInt z).
Hypothesis HFloat : forall f, P (PyFloat f).
Hypothesis HStr : forall s, P (PyStr s).
Hypothesis HList : forall l, Forall P l -> P (PyList l).
Hypothesis HDict : forall d, Forall (fun kv => P kv.2) d -> P (PyDict d).
Hypothesis HArray : forall a, P (PyArray a).
Hypothesis HCallable : forall n, P (PyCallable n).
Hypothesis HInstance : forall c attrs, P (PyInstance c attrs).

Fixpoint pyobj_ind (v : pyobj) : P v :=
  match v with
  | PyNone => HNone
  | PyBool b => HBool b
  | PyInt z => HInt z
  | PyFloat f => HFloat f
  | PyStr s => HStr s
  | PyList l =>
      HList l ((fix go (l : list pyobj) : Forall P l :=
                  match l with
                  | [] => @List.Forall_nil _ P
                  | x :: l' => @List.Forall_cons _ P x l' (pyobj_ind x) (go l')
                  end) l)
  | PyDict d =>
      HDict d ((fix go (d : list (pystr * pyobj)) : Forall (fun kv => P kv.2) d :=
                  match d with
                  | [] => @List.Forall_nil _ (fun kv => P kv.2)
                  | kv :: d' =>
                      @List.Forall_cons _ (fun kv => P kv.2) kv d'
                        (pyobj_ind kv.2) (go d')
                  end) d)
  | PyArray a => HArray a
  | PyCallable n => HCallable n
  | PyInstance c attrs => HInstance c attrs
  end.

End PyobjInd.

(** A generator that finishes, and the text its chunks add up to. *)
Definition yields (g : Json.chunks) (text : string) : Prop :=
  g.2 = None /\ String.concat "" g.1 = text.

Lemma yields_yield c g text :
  yields g text -> yields (Json.yield c g) (c +:+ text).
Proof.
  intros [Hn Ht]. split; [exact Hn|].
  cbn [Json.yield fst]. by rewrite concat_cons, Ht.
Qed.

Lemma yields_yield_from g1 g2 t1 t2 :
  yields g1 t1 -> yields g2 t2 -> yields (Json.yield_from g1 g2) (t1 +:+ t2).
Proof.
  intros [Hn1 Ht1] [Hn2 Ht2]. unfold Json.yield_from. rewrite Hn1.
  split; [exact Hn2|]. cbn [fst]. by rewrite concat_app, Ht1, Ht2.
Qed.

Lemma encode_scalar_render v s : Json.encode_scalar v = Some s -> render v = s.
Proof.
  destruct v as [|[]| | | | | | | |]; cbn; try discriminate; congruence.
Qed.

Lemma encode_scalar_yields v s :
  Json.encode_scalar v = Some s -> yields (Json.iterencode v) s.
Proof.
  destruct v as [|[]| | | |l|d| | |]; cbn; try discriminate;
    intros [= <-]; by split; cbn; rewrite ?append_nil_r.
Qed.

Lemma encode_scalar_serializable v :
  Json.encode_scalar v = None -> serializable v = true ->
  (exists l, v = PyList l) \/ (exists d, v = PyDict d).
Proof.
  destruct v as [|[]| | | |l|d| | |]; cbn; try discriminate; eauto.
Qed.

Lemma iterencode_list_yields (l : list pyobj) : forall first,
  Forall (fun v => serializable v = true -> yields (Json.iterencode v) (render v)) l ->
  forallb serializable l = true ->
  yields (Json.iterencode_list Json.iterencode first l)
         match l with
         | [] => "]"
         | v :: l' => (if first then "[" else ", ") +:+ render v +:+ items_text render l'
         end.
Proof.
  induction l as [|v l IH]; intros first HP Hs.
  - split; reflexivity.
  - apply Forall_cons_1 in HP as [Hv HP]. cbn in Hs.
    apply andb_prop in Hs as [Hsv Hs].
    specialize (IH false HP Hs).
    assert (Htl : yields (Json.iterencode_list Json.iterencode false l)
                         (items_text render l)).
    { destruct l; exact IH. }
    cbn [Json.iterencode_list].
    destruct (Json.encode_scalar v) as [s|] eqn:E.
    + rewrite (encode_scalar_render _ _ E).
      rewrite <- append_assoc. by apply yields_yield.
    + apply yields_yield, yields_yield_from; [by apply Hv | exact Htl].
Qed.

Lemma iterencode_dict_yields (d : list (pystr * pyobj)) : forall first,
  Forall (fun kv => serializable kv.2 = true ->
                    yields (Json.iterencode kv.2) (render kv.2)) d ->
  forallb (fun kv => serializable kv.2) d = true ->
  yields (Json.iterencode_dict Json.iterencode first d)
         match d with
         | [] => "}"
         | kv :: d' =>
             (if first then "" else ", ") +:+ member_text render kv +:+
             members_text render d'
         end.
Proof.
  induction d as [|[k v] d IH]; intros first HP Hs.
  - split; reflexivity.
  - apply Forall_cons_1 in HP as [Hv HP]. cbn in Hs, Hv.
    apply andb_prop in Hs as [Hsv Hs].
    specialize (IH false HP Hs).
    assert (Htl : yields (Json.iterencode_dict Json.iterencode false d)
                         (members_text render d)).
    { destruct d; exact IH. }
    cbn [Json.iterencode_dict]. unfold member_text. cbn [fst snd].
    assert (Hhead : yields ((if first then [] else [", "]) ++
                              [Json.encode_basestring_ascii k; ": "], None)
                           ((if first then "" else ", ") +:+
                            Json.encode_basestring_ascii k +:+ ": ")).
    { split; [reflexivity|]. destruct first; cbn; by rewrite ?append_nil_r. }
    replace ((if first then "" else ", ") +:+
             (Json.encode_basestring_ascii k +:+ ": " +:+ render v) +:+
             members_text render d)
      with (((if first then "" else ", ") +:+
             Json.encode_basestring_ascii k +:+ ": ") +:+
            (render v +:+ members_text render d))
      by (by rewrite !append_assoc).
    apply yields_yield_from; [exact Hhead|].
    destruct (Json.encode_scalar v) as [s|] eqn:E.
    + rewrite (encode_scalar_render _ _ E). by apply yields_yield.
    + apply yields_yield_from; [by apply Hv | exact Htl].
Qed.

(** For a value with only serializable parts the generator finishes and
    its chunks, joined, are the text of the value. *)
Lemma iterencode_yields v :
  serializable v = true -> yields (Json.iterencode v) (render v).
Proof.
  induction v as [|b|z|f|s|l IH|d IH|a|n|c attrs] using pyobj_ind;
    intros Hs; try discriminate;
    try (by apply encode_scalar_yields).
  - destruct b; by apply encode_scalar_yields.
  - destruct l as [|v l]; [by split|].
    apply (iterencode_list_yields (v :: l) true IH Hs).
  - destruct d as [|kv d]; [by split|].
    change (Json.iterencode (PyDict (kv :: d)))
      with (Json.yield "{" (Json.iterencode_dict Json.iterencode true (kv :: d))).
    change (render (PyDict (kv :: d)))
      with ("{" +:+ ("" +:+ member_text render kv +:+ members_text render d)).
    apply yields_yield. apply (iterencode_dict_yields (kv :: d) true IH Hs).
Qed.

Lemma encode_scalar_some_serializable v s :
  Json.encode_scalar v = Some s -> serializable v = true.
Proof. destruct v; cbn; try discriminate; reflexivity. Qed.

Lemma iterencode_list_finishes (l : list pyobj) : forall first,
  Forall (fun v => (Json.iterencode v).2 = None -> serializable v = true) l ->
  (Json.iterencode_list Json.iterencode first l).2 = None ->
  forallb serializable l = true.
Proof.
  induction l as [|v l IHl]; intros first IH H; [reflexivity|].
  apply Forall_cons_1 in IH as [Hv IH]. cbn [forallb].
  cbn [Json.iterencode_list] in H.
  destruct (Json.encode_scalar v) as [s|] eqn:E.
  - cbn in H. rewrite (IHl false IH H), andb_true_r.
    by eapply encode_scalar_some_serializable.
  - cbn in H. unfold Json.yield_from in H.
    destruct (Json.iterencode v).2 eqn:Ev; [by rewrite H in Ev|].
    cbn in H. by rewrite (Hv eq_refl), (IHl false IH H).
Qed.

Lemma iterencode_dict_finishes (d : list (pystr * pyobj)) : forall first,
  Forall (fun kv => (Json.iterencode kv.2).2 = None -> serializable kv.2 = true) d ->
  (Json.iterencode_dict Json.iterencode first d).2 = None ->
  forallb (fun kv => serializable kv.2) d = true.
Proof.
  induction d as [|[k v] d IHd]; intros first IH H; [reflexivity|].
  apply Forall_cons_1 in IH as [Hv IH]. cbn [forallb snd]. cbn [snd] in Hv.
  cbn [Json.iterencode_dict] in H. unfold Json.yield_from at 1 in H.
  cbn [snd fst] in H.
  destruct (Json.encode_scalar v) as [s|] eqn:E.
  - cbn in H. rewrite (IHd false IH H), andb_true_r.
    by eapply encode_scalar_some_serializable.
  - unfold Json.yield_from in H.
    destruct (Json.iterencode v).2 eqn:Ev; [by rewrite H in Ev|].
    cbn in H. by rewrite (Hv eq_refl), (IHd false IH H).
Qed.

(** The generator finishes exactly on the values with only serializable
    parts. *)
Lemma serializable_iff v :
  serializable v = true <-> (Json.iterencode v).2 = None.
Proof.
  split; [apply iterencode_yields|].
  induction v as [|b|z|f|s|l IH|d IH|a|n|c attrs] using pyobj_ind;
    try reflexivity; try discriminate.
  - destruct l as [|v0 l]; [reflexivity|].
    apply (iterencode_list_finishes (v0 :: l) true IH).
  - destruct d as [|kv0 d]; [reflexivity|].
    apply (iterencode_dict_finishes (kv0 :: d) true IH).
Qed.

(** ** Decimal digits *)

Lemma is_dig_cases d :
  is_dig d ->
  d = 0 \/ d = 1 \/ d = 2 \/ d = 3 \/ d = 4 \/ d = 5 \/ d = 6 \/ d = 7 \/
  d = 8 \/ d = 9.
Proof. unfold is_dig. lia. Qed.

Ltac dig_cases H :=
  apply is_dig_cases in H;
  repeat (destruct H as [H|H]; [subst|]); [..|subst].

Lemma digit_char_is_digit d :
  is_dig d -> JsonText.is_digit (Repr.digit_char d) = true.
Proof. intros H. dig_cases H; reflexivity. Qed.

Lemma digit_char_val d :
  is_dig d -> JsonText.digit_val (Repr.digit_char d) = d.
Proof. intros H. dig_cases H; reflexivity. Qed.

Lemma digit_char_zero d :
  is_dig d -> (N_of_ascii (Repr.digit_char d) =? 48)%N = (d =? 0).
Proof. intros H. dig_cases H; reflexivity. Qed.

Lemma digit_char_not_minus d :
  is_dig d -> Ascii.eqb (Repr.digit_char d) "-" = false.
Proof. intros H. dig_cases H; reflexivity. Qed.

Lemma digit_char_not_ws d :
  is_dig d -> JsonText.is_ws (Repr.digit_char d) = false.
Proof. intros H. dig_cases H; reflexivity. Qed.

Lemma digs_app l1 l2 : Repr.digs (l1 ++ l2) = Repr.digs l1 +:+ Repr.digs l2.
Proof.
  induction l1 as [|d l1 IH]; [reflexivity|].
  cbn [app Repr.digs]. by rewrite append_cons, IH.
Qed.

Lemma zeros_digs n : Repr.zeros n = Repr.digs (repeat 0 n).
Proof. induction n as [|n IH]; [reflexivity|]. cbn. by rewrite IH. Qed.

Lemma Forall_repeat_zero n : Forall is_dig (repeat 0 n).
Proof. induction n; constructor; [unfold is_dig; lia | assumption]. Qed.

Lemma value_snoc l d : JsonText.value (l ++ [d]) = 10 * JsonText.value l + d.
Proof. unfold JsonText.value. by rewrite fold_left_app. Qed.

Lemma digits_aux_acc fuel : forall n acc,
  Repr.digits_aux fuel n acc = Repr.digits_aux fuel n [] ++ acc.
Proof.
  induction fuel as [|fuel IH]; intros n acc; [reflexivity|].
  cbn [Repr.digits_aux]. destruct (n <? 10); [reflexivity|].
  rewrite (IH _ (_ :: acc)), (IH _ [_]). by rewrite <- app_assoc.
Qed.

Lemma digits_aux_step fuel n :
  10 <= n ->
  Repr.digits_aux (S fuel) n [] = Repr.digits_aux fuel (n / 10) [] ++ [n mod 10].
Proof.
  intros Hn. cbn [Repr.digits_aux].
  destruct (Z.ltb_spec n 10); [lia|]. apply digits_aux_acc.
Qed.

Lemma digits_aux_small fuel n :
  n < 10 -> Repr.digits_aux (S fuel) n [] = [n].
Proof.
  intros Hn. cbn [Repr.digits_aux]. destruct (Z.ltb_spec n 10); [reflexivity|lia].
Qed.

(** With enough fuel the digits of a positive number are digits, start
    with a non-zero digit and spell the number. *)
Lemma digits_aux_spec fuel : forall n,
  1 <= n < 2 ^ Z.of_nat fuel ->
  Forall is_dig (Repr.digits_aux fuel n []) /\
  JsonText.value (Repr.digits_aux fuel n []) = n /\
  exists d tl, Repr.digits_aux fuel n [] = d :: tl /\ d <> 0.
Proof.
  induction fuel as [|fuel IH]; intros n Hn.
  - cbn in Hn. lia.
  - destruct (Z.lt_ge_cases n 10) as [Hs|Hb].
    + rewrite digits_aux_small by assumption. split; [|split].
      * constructor; [unfold is_dig; lia | constructor].
      * cbn. lia.
      * exists n, []. split; [reflexivity | lia].
    + rewrite digits_aux_step by assumption.
      assert (Hq : 1 <= n / 10 < 2 ^ Z.of_nat fuel).
      { rewrite Nat2Z.inj_succ, Z.pow_succ_r in Hn by lia.
        split; [apply Z.div_le_lower_bound; lia|].
        apply Z.div_lt_upper_bound; lia. }
      destruct (IH _ Hq) as (Hd & Hv & d & tl & E & Hne).
      pose proof (Z.mod_pos_bound n 10 ltac:(lia)) as Hm.
      split; [|split].
      * apply Forall_app. split; [exact Hd|].
        constructor; [unfold is_dig; lia | constructor].
      * rewrite value_snoc, Hv. pose proof (Z.div_mod n 10). lia.
      * exists d, (tl ++ [n mod 10]). rewrite E. split; [reflexivity|exact Hne].
Qed.

Lemma digits_fuel n : 1 <= n -> n < 2 ^ Z.of_nat (S (Z.to_nat (Z.log2 n))).
Proof.
  intros Hn. rewrite Nat2Z.inj_succ, Z2Nat.id by apply Z.log2_nonneg.
  apply Z.log2_spec. lia.
Qed.

Lemma digits_spec n :
  1 <= n ->
  Forall is_dig (Repr.digits n) /\ JsonText.value (Repr.digits n) = n /\
  exists d tl, Repr.digits n = d :: tl /\ d <> 0.
Proof.
  intros Hn. apply digits_aux_spec. split; [exact Hn | by apply digits_fuel].
Qed.

Lemma digits_zero : Repr.digits 0 = [0].
Proof. reflexivity. Qed.

(** ** Scanning the spelling of a number *)

Lemma span_digits_digs ds rest :
  Forall is_dig ds -> not_digit_head rest ->
  JsonText.span_digits (Repr.digs ds +:+ rest) = (ds, rest).
Proof.
  intros Hds Hrest. induction Hds as [|d ds Hd Hds IH].
  - cbn [Repr.digs]. rewrite append_nil_l.
    destruct rest as [|c r]; [reflexivity|]. cbn in Hrest |- *. by rewrite Hrest.
  - cbn [Repr.digs]. rewrite append_cons. cbn [JsonText.span_digits].
    by rewrite digit_char_is_digit, IH, digit_char_val.
Qed.

Lemma delimited_cases rest :
  delimited rest = true ->
  rest = "" \/ exists c r, rest = String c r /\ (c = "," \/ c = "]" \/ c = "}")%char.
Proof.
  destruct rest as [|c r]; [by left|]. cbn. intros H. right. exists c, r.
  split; [reflexivity|].
  apply orb_prop in H as [H|H]; [apply orb_prop in H as [H|H]|];
    apply Ascii.eqb_eq in H; auto.
Qed.

Ltac delim_cases H :=
  apply delimited_cases in H;
  destruct H as [->|(?c & ?r & -> & [->|[->| ->]])].

Lemma delimited_not_digit rest : delimited rest = true -> not_digit_head rest.
Proof. intros H. delim_cases H; reflexivity. Qed.

Lemma delimited_no_frac rest :
  delimited rest = true -> JsonText.scan_frac rest = (None, rest).
Proof. intros H. delim_cases H; reflexivity. Qed.

Lemma delimited_no_exp rest :
  delimited rest = true -> JsonText.scan_exp rest = (None, rest).
Proof. intros H. delim_cases H; reflexivity. Qed.

Lemma delimited_skip_ws rest :
  delimited rest = true -> JsonText.skip_ws rest = rest.
Proof. intros H. delim_cases H; reflexivity. Qed.

Lemma scan_int_digs ds rest :
  Forall is_dig ds ->
  (ds = [0] \/ exists d tl, ds = d :: tl /\ d <> 0) ->
  not_digit_head rest ->
  JsonText.scan_int (Repr.digs ds +:+ rest) = Some (ds, rest).
Proof.
  intros Hds Hhead Hrest.
  destruct Hhead as [->|(d & tl & -> & Hd)].
  - cbn [Repr.digs]. rewrite append_cons, append_nil_l. reflexivity.
  - apply Forall_cons_1 in Hds as [Hdig Htl].
    cbn [Repr.digs]. rewrite append_cons. cbn [JsonText.scan_int].
    rewrite digit_char_is_digit, digit_char_zero by assumption.
    destruct (Z.eqb_spec d 0); [contradiction|].
    by rewrite span_digits_digs, digit_char_val.
Qed.

(** The exponent as [format_float_short] prints it reads back. *)
Lemma exp_str_spec x :
  exists sg ds,
    Repr.exp_str x = sg +:+ Repr.digs ds /\
    (sg = "-" /\ x < 0 \/ sg = "+" /\ 0 <= x) /\
    Forall is_dig ds /\ ds <> [] /\ JsonText.value ds = Z.abs x.
Proof.
  unfold Repr.exp_str.
  exists (if x <? 0 then "-" else "+"),
         ((if Z.abs x <? 10 then [0] else []) ++
          (if Z.abs x =? 0 then [0] else Repr.digits (Z.abs x))).
  split; [|split; [|split; [|split]]].
  - rewrite digs_app. destruct (Z.abs x <? 10); reflexivity.
  - destruct (Z.ltb_spec x 0); [left | right]; by split.
  - apply Forall_app. split.
    + destruct (Z.abs x <? 10); constructor; [unfold is_dig; lia | constructor].
    + destruct (Z.eqb_spec (Z.abs x) 0).
      * constructor; [unfold is_dig; lia | constructor].
      * apply digits_spec. lia.
  - destruct (Z.eqb_spec (Z.abs x) 0).
    + destruct (Z.abs x <? 10); discriminate.
    + destruct (digits_spec (Z.abs x) ltac:(lia)) as (_ & _ & d & tl & -> & _).
      destruct (Z.abs x <? 10); discriminate.
  - destruct (Z.eqb_spec (Z.abs x) 0) as [E|E].
    + rewrite E. reflexivity.
    + destruct (digits_spec (Z.abs x) ltac:(lia)) as (_ & Hv & _).
      destruct (Z.abs x <? 10); [|exact Hv].
      unfold JsonText.value in *. cbn [app fold_left]. exact Hv.
Qed.

Lemma scan_exp_minus s :
  JsonText.scan_exp ("e" +:+ "-" +:+ s) =
  match JsonText.span_digits s with
  | ([], _) => (None, "e" +:+ "-" +:+ s)
  | (ds, r) => (Some (- JsonText.value ds), r)
  end.
Proof. reflexivity. Qed.

Lemma scan_exp_plus s :
  JsonText.scan_exp ("e" +:+ "+" +:+ s) =
  match JsonText.span_digits s with
  | ([], _) => (None, "e" +:+ "+" +:+ s)
  | (ds, r) => (Some (JsonText.value ds), r)
  end.
Proof. reflexivity. Qed.

Lemma scan_frac_point s :
  JsonText.scan_frac ("." +:+ s) =
  match JsonText.span_digits s with
  | ([], _) => (None, "." +:+ s)
  | (ds, r) => (Some ds, r)
  end.
Proof. reflexivity. Qed.

Lemma scan_exp_text ep rest :
  delimited rest = true ->
  JsonText.scan_exp (exp_text ep +:+ rest) = (ep, rest).
Proof.
  intros Hrest. destruct ep as [x|]; [|by apply delimited_no_exp].
  unfold exp_text.
  destruct (exp_str_spec x) as (sg & ds & -> & Hsg & Hds & Hne & Hv).
  pose proof (delimited_not_digit _ Hrest) as Hnd.
  rewrite !append_assoc.
  destruct Hsg as [[-> Hx]|[-> Hx]];
    [rewrite scan_exp_minus | rewrite scan_exp_plus];
    rewrite (span_digits_digs ds rest Hds Hnd);
    (destruct ds; [contradiction|]); rewrite Hv; do 2 f_equal; lia.
Qed.

Lemma scan_frac_text fp rest :
  match fp with Some ds => Forall is_dig ds /\ ds <> [] | None => True end ->
  not_digit_head rest ->
  (fp = None -> JsonText.scan_frac rest = (None, rest)) ->
  JsonText.scan_frac (frac_text fp +:+ rest) = (fp, rest).
Proof.
  intros Hfp Hnd Hnone. destruct fp as [ds|]; [|by apply Hnone].
  destruct Hfp as [Hds Hne]. unfold frac_text.
  rewrite append_assoc, scan_frac_point.
  rewrite (span_digits_digs ds rest Hds Hnd).
  by destruct ds.
Qed.

Lemma exp_text_head ep rest :
  delimited rest = true ->
  not_digit_head (exp_text ep +:+ rest) /\
  JsonText.scan_frac (exp_text ep +:+ rest) = (None, exp_text ep +:+ rest).
Proof.
  intros Hrest. destruct ep as [x|].
  - split; reflexivity.
  - split; [by apply delimited_not_digit | by apply delimited_no_frac].
Qed.

(** A well-formed number reads back from its spelling. *)
Lemma scan_number_spell n rest :
  wf_number n -> delimited rest = true ->
  JsonText.scan_number (spell n +:+ rest) = Some (n, rest).
Proof.
  intros (Hip & Hhead & Hfp) Hrest. destruct n as [neg ip fp ep]. cbn in *.
  unfold spell. cbn [JsonText.negative JsonText.int_part JsonText.frac_part
                       JsonText.exp_part].
  rewrite !append_assoc.
  destruct (exp_text_head ep rest Hrest) as [Hnd Hnf].
  assert (Hfrac : JsonText.scan_frac (frac_text fp +:+ exp_text ep +:+ rest)
                  = (fp, exp_text ep +:+ rest)).
  { apply scan_frac_text; [exact Hfp | exact Hnd | intros _; exact Hnf]. }
  assert (Hnd' : not_digit_head (frac_text fp +:+ exp_text ep +:+ rest)).
  { destruct fp; [reflexivity | exact Hnd]. }
  assert (Hint : JsonText.scan_int
                   (Repr.digs ip +:+ frac_text fp +:+ exp_text ep +:+ rest)
                 = Some (ip, frac_text fp +:+ exp_text ep +:+ rest)).
  { by apply scan_int_digs. }
  unfold JsonText.scan_number.
  destruct neg; cbn [sign_text].
  - rewrite append_cons, append_nil_l. cbn [Ascii.eqb Bool.eqb].
    rewrite Hint, Hfrac, scan_exp_text by assumption. reflexivity.
  - rewrite append_nil_l.
    assert (Hm : match Repr.digs ip +:+ frac_text fp +:+ exp_text ep +:+ rest with
                 | String c t => Ascii.eqb c "-" = false
                 | "" => True
                 end).
    { destruct Hhead as [->|(d & tl & -> & _)]; [reflexivity|].
      apply Forall_cons_1 in Hip as [Hd _].
      cbn [Repr.digs]. rewrite append_cons. by apply digit_char_not_minus. }
    destruct (Repr.digs ip +:+ frac_text fp +:+ exp_text ep +:+ rest) eqn:E.
    + cbn in Hint. discriminate.
    + rewrite Hm, Hint, Hfrac, scan_exp_text by assumption. reflexivity.
Qed.

(** ** The text of a float is the spelling of a number *)

Lemma digit_char_not_dot d :
  is_dig d -> Ascii.eqb (Repr.digit_char d) "." = false.
Proof. intros H. dig_cases H; reflexivity. Qed.

Lemma strip_trailing_dot_cons a s :
  s <> "" ->
  Repr.strip_trailing_dot (String a s) = String a (Repr.strip_trailing_dot s).
Proof. destruct s; [contradiction | reflexivity]. Qed.

Lemma strip_trailing_dot_app s c t :
  Repr.strip_trailing_dot (s +:+ String c t) =
  s +:+ Repr.strip_trailing_dot (String c t).
Proof.
  induction s as [|a s IH]; [reflexivity|].
  rewrite !append_cons, strip_trailing_dot_cons, IH; [reflexivity|].
  destruct s; discriminate.
Qed.

Lemma strip_trailing_dot_digs ds :
  Forall is_dig ds -> Repr.strip_trailing_dot (Repr.digs ds) = Repr.digs ds.
Proof.
  induction 1 as [|d ds Hd Hds IH]; [reflexivity|].
  cbn [Repr.digs].
  destruct (Repr.digs ds) eqn:E.
  - cbn. by rewrite digit_char_not_dot.
  - rewrite strip_trailing_dot_cons by discriminate. by rewrite IH.
Qed.

Lemma strip_before_digs s ds :
  Forall is_dig ds -> ds <> [] ->
  Repr.strip_trailing_dot (s +:+ Repr.digs ds) = s +:+ Repr.digs ds.
Proof.
  intros Hds Hne. destruct ds as [|d ds]; [contradiction|].
  pose proof (strip_trailing_dot_digs _ Hds) as H.
  cbn [Repr.digs] in H |- *. by rewrite strip_trailing_dot_app, H.
Qed.

(** The digits [ds] with the point at [decpt], as CPython prints them, are
    the spelling of [short_number]. *)
Lemma format_float_short_spell sign ds decpt :
  Forall is_dig ds -> ds <> [] ->
  Repr.format_float_short sign ds decpt = spell (short_number sign ds decpt).
Proof.
  intros Hds Hne.
  unfold Repr.format_float_short, short_number, spell.
  set (len := Z.of_nat (List.length ds)).
  assert (Hlen : 1 <= len).
  { subst len. destruct ds; [contradiction | cbn [List.length]; lia]. }
  destruct ((decpt <=? -4) || (16 <? decpt)) eqn:Eexp.
  - (* exponent notation *)
    cbn [JsonText.negative JsonText.int_part JsonText.frac_part JsonText.exp_part].
    destruct (Z.leb_spec 1 0); [lia|].
    destruct (Z.ltb_spec 0 1); [|lia].
    destruct (Z.leb_spec 1 len); [|lia]. cbn [andb].
    destruct (Z.ltb_spec len 1); [lia|].
    replace (Z.max len 1 - len) with 0 by lia.
    change (Z.to_nat 1) with 1%nat. change (Z.to_nat 0) with 0%nat.
    cbn [Repr.zeros sign_text exp_text]. rewrite append_nil_l, append_nil_r.
    destruct ds as [|d tl]; [contradiction|].
    apply Forall_cons_1 in Hds as [Hd Htl].
    cbn [firstn skipn Repr.digs].
    destruct tl as [|d' tl'].
    + cbn [Repr.digs frac_text]. rewrite !append_cons, !append_nil_l.
      cbn [Repr.strip_trailing_dot]. reflexivity.
    + cbn [frac_text].
      rewrite <- (append_assoc (String (Repr.digit_char d) "") ".").
      rewrite strip_before_digs by (assumption || discriminate).
      by rewrite !append_assoc.
  - apply orb_false_elim in Eexp as [E1 E2].
    apply Z.leb_gt in E1. apply Z.ltb_ge in E2.
    cbn [JsonText.negative JsonText.int_part JsonText.frac_part JsonText.exp_part].
    rewrite append_nil_r.
    destruct (Z.leb_spec decpt 0) as [Hd0|Hd0].
    + (* 0.000ddd *)
      destruct (Z.ltb_spec 0 decpt); [lia|]. cbn [andb].
      destruct (Z.ltb_spec len decpt); [lia|].
      replace (Z.max len (decpt + 1) - len) with 0 by lia.
      change (Z.to_nat 0) with 0%nat. cbn [Repr.zeros].
      cbn [JsonText.negative JsonText.int_part JsonText.frac_part
             JsonText.exp_part sign_text exp_text frac_text].
      rewrite !append_nil_r, zeros_digs.
      rewrite (append_assoc "0." _ _), <- digs_app.
      rewrite strip_before_digs.
      * reflexivity.
      * apply Forall_app. split; [apply Forall_repeat_zero | exact Hds].
      * destruct ds; [contradiction|]. by destruct (repeat 0 _).
    + destruct (Z.ltb_spec 0 decpt); [|lia].
      destruct (Z.ltb_spec decpt len) as [Hlt|Hge].
      * (* ddd.ddd *)
        destruct (Z.leb_spec decpt len); [|lia]. cbn [andb].
        destruct (Z.ltb_spec len decpt); [lia|].
        replace (Z.max len (decpt + 1) - len) with 0 by lia.
        change (Z.to_nat 0) with 0%nat. cbn [Repr.zeros].
        cbn [JsonText.negative JsonText.int_part JsonText.frac_part
               JsonText.exp_part sign_text exp_text frac_text].
        rewrite !append_nil_r, append_nil_l.
        rewrite <- (append_assoc _ "." _).
        rewrite strip_before_digs.
        -- by rewrite append_assoc.
        -- by apply Forall_drop.
        -- intros E. apply (f_equal (@List.length Z)) in E.
           rewrite List.length_skipn in E. cbn in E. lia.
      * cbn [JsonText.negative JsonText.int_part JsonText.frac_part
               JsonText.exp_part sign_text exp_text frac_text].
        rewrite append_nil_l.
        assert (Hz : forall x, Repr.strip_trailing_dot (x +:+ ".0") = x +:+ ".0").
        { intros x.
          replace (x +:+ ".0") with ((x +:+ ".") +:+ Repr.digs [0])
            by (by rewrite append_assoc).
          apply strip_before_digs; [|discriminate].
          constructor; [unfold is_dig; lia | constructor]. }
        destruct (Z.ltb_spec len decpt) as [Hgt|Hle].
        -- (* ddd000.0 *)
           destruct (Z.leb_spec decpt len); [lia|]. cbn [andb].
           replace (Z.max len (decpt + 1) - decpt) with 1 by lia.
           change (Z.to_nat 1) with 1%nat. cbn [Repr.zeros].
           rewrite digs_app, <- zeros_digs.
           change ("." +:+ "0") with ".0". change ("." +:+ Repr.digs [0]) with ".0".
           rewrite <- (append_assoc (Repr.digs ds)), Hz.
           by rewrite append_nil_r, !append_assoc.
        -- (* ddd.0 *)
           assert (decpt = len) as -> by lia.
           destruct (Z.leb_spec len len); [|lia]. cbn [andb].
           replace (Z.max len (len + 1) - len) with 1 by lia.
           replace (len - len) with 0 by lia.
           change (Z.to_nat 1) with 1%nat. change (Z.to_nat 0) with 0%nat.
           cbn [Repr.zeros repeat]. rewrite app_nil_r.
           subst len. rewrite Nat2Z.id, firstn_all, skipn_all.
           change ("." +:+ Repr.digs [0]) with ".0".
           change (Repr.digs []) with "". change ("." +:+ "") with ".".
           rewrite append_assoc. change ("." +:+ "0") with ".0".
           by rewrite Hz, append_nil_r.
Qed.

Lemma Forall_dig_one d : is_dig d -> Forall is_dig [d].
Proof. intros H. constructor; [exact H | constructor]. Qed.

Lemma is_dig_zero : is_dig 0.
Proof. unfold is_dig. lia. Qed.

Lemma wf_short_number sign ds decpt :
  Forall is_dig ds ->
  (ds = [0] /\ decpt = 1 \/ exists d tl, ds = d :: tl /\ d <> 0) ->
  wf_number (short_number sign ds decpt).
Proof.
  intros Hds Hhead.
  assert (Hne : ds <> []) by (destruct Hhead as [[-> _]|(d & tl & -> & _)]; discriminate).
  unfold short_number, wf_number.
  set (len := Z.of_nat (List.length ds)).
  assert (Hlen : 1 <= len).
  { subst len. destruct ds; [contradiction | cbn [List.length]; lia]. }
  assert (H0 : is_dig 0) by (unfold is_dig; lia).
  destruct ((decpt <=? -4) || (16 <? decpt)) eqn:Eexp;
    [|destruct (Z.leb_spec decpt 0); [|destruct (Z.ltb_spec decpt len)]];
    cbn [JsonText.int_part JsonText.frac_part].
  - destruct ds as [|d tl]; [contradiction|].
    apply Forall_cons_1 in Hds as [Hd Htl].
    change (firstn 1 (d :: tl)) with [d]. change (skipn 1 (d :: tl)) with tl.
    split; [by apply Forall_dig_one|]. split.
    + destruct (Z.eq_dec d 0) as [->|]; [by left | right; eauto].
    + destruct tl; [exact I | by split].
  - split; [by apply Forall_dig_one|]. split; [by left|]. split.
    + apply Forall_app. split; [apply Forall_repeat_zero | exact Hds].
    + destruct ds; [contradiction|]. by destruct (repeat 0 _).
  - destruct Hhead as [[-> ->]|(d & tl & -> & Hd)]; [cbn in *; lia|].
    split; [by apply Forall_take|]. split.
    + right. destruct (Z.to_nat decpt) eqn:E; [lia|]. cbn [firstn]. eauto.
    + split; [by apply Forall_drop|].
      intros E. apply (f_equal (@List.length Z)) in E.
      rewrite List.length_skipn in E. subst len. cbn in E, H1. lia.
  - split; [|split].
    + apply Forall_app. split; [exact Hds | apply Forall_repeat_zero].
    + destruct Hhead as [[-> ->]|(d & tl & -> & Hd)]; [by left|].
      right. exists d, (tl ++ repeat 0 (Z.to_nat (decpt - len))). by split.
    + split; [by apply Forall_dig_one | discriminate].
Qed.

Lemma int_repr_spell z : Repr.int_repr z = spell (int_number z).
Proof.
  unfold Repr.int_repr, int_number, spell.
  cbn [JsonText.negative JsonText.int_part JsonText.frac_part JsonText.exp_part
         frac_text exp_text].
  rewrite !append_nil_r.
  destruct (Z.ltb_spec z 0); cbn [sign_text].
  - by rewrite Z.abs_neq by lia.
  - by rewrite Z.abs_eq by lia.
Qed.

Lemma wf_int_number z : wf_number (int_number z).
Proof.
  unfold wf_number, int_number.
  cbn [JsonText.int_part JsonText.frac_part].
  destruct (Z.eq_dec (Z.abs z) 0) as [->|Hz].
  - rewrite digits_zero. split; [|split; [by left | exact I]].
    constructor; [unfold is_dig; lia | constructor].
  - destruct (digits_spec (Z.abs z) ltac:(lia)) as (Hd & _ & Hh).
    split; [exact Hd|]. split; [by right | exact I].
Qed.

(** *** The shortest decimal is a positive integer *)

Lemma scale_num_pos e k : 0 < Repr.scale_num e k.
Proof. unfold Repr.scale_num. apply Z.mul_pos_pos; apply Z.pow_pos_nonneg; lia. Qed.

Lemma scale_den_pos e k : 0 < Repr.scale_den e k.
Proof. unfold Repr.scale_den. apply Z.mul_pos_pos; apply Z.pow_pos_nonneg; lia. Qed.

Lemma lower_mid_pos m e : 1 <= m -> 0 < Repr.lower_mid m e.
Proof. unfold Repr.lower_mid. destruct (_ && _); lia. Qed.

Lemma in_interval_pos m e k D :
  1 <= m -> Repr.in_interval m e k D = true -> 1 <= D.
Proof.
  intros Hm H. unfold Repr.in_interval in H.
  pose proof (scale_num_pos e k) as Hn. pose proof (scale_den_pos e k) as Hd.
  pose proof (lower_mid_pos m e Hm) as Hl.
  assert (0 < Repr.lower_mid m e * Repr.scale_den e k) by (by apply Z.mul_pos_pos).
  assert (0 < D * Repr.scale_num e k).
  { destruct (Z.even m); apply andb_prop in H as [H _];
      [apply Z.leb_le in H | apply Z.ltb_lt in H]; lia. }
  nia.
Qed.

Lemma candidate_in_interval m e k D :
  Repr.candidate m e k = Some D -> Repr.in_interval m e k D = true.
Proof.
  unfold Repr.candidate.
  destruct (Repr.in_interval m e k (_ / _)) eqn:E1,
           (Repr.in_interval m e k (_ / _ + 1)) eqn:E2; try discriminate.
  - destruct (_ ?= _); [destruct (Z.even _)|..]; intros [= <-]; assumption.
  - by intros [= <-].
  - by intros [= <-].
Qed.

Lemma exact_decimal_pos m e : 1 <= m -> 1 <= (Repr.exact_decimal m e).1.
Proof.
  intros Hm. unfold Repr.exact_decimal.
  destruct (Z.ltb_spec e 0); cbn [fst].
  - pose proof (Z.pow_pos_nonneg 5 (- e) ltac:(lia) ltac:(lia)). nia.
  - pose proof (Z.pow_pos_nonneg 2 e ltac:(lia) ltac:(lia)). nia.
Qed.

Lemma shortest_search_pos fuel : forall m e k,
  1 <= m -> 1 <= (Repr.shortest_search fuel m e k).1.
Proof.
  induction fuel as [|fuel IH]; intros m e k Hm; cbn [Repr.shortest_search].
  - by apply exact_decimal_pos.
  - destruct (Repr.candidate m e k) as [D|] eqn:E; [|by apply IH].
    cbn [fst]. eapply in_interval_pos; [exact Hm|].
    by eapply candidate_in_interval.
Qed.

Lemma shortest_decimal_pos m e : 1 <= m -> 1 <= (Repr.shortest_decimal m e).1.
Proof. intros Hm. by apply shortest_search_pos. Qed.

(** The text of a finite float is the spelling of a well-formed number. *)
Lemma floatstr_spell f :
  is_finite f = true ->
  Json.floatstr f = spell (float_number f) /\ wf_number (float_number f).
Proof.
  destruct f as [s|s| |s m e]; try discriminate; intros _.
  - assert (Hd : Forall is_dig [0]) by (apply Forall_dig_one, is_dig_zero).
    split.
    + apply (format_float_short_spell s [0] 1 Hd). discriminate.
    + apply wf_short_number; [exact Hd | by left].
  - cbn [Json.floatstr Repr.float_repr float_number].
    pose proof (shortest_decimal_pos (Z.pos m) e ltac:(lia)) as Hpos.
    destruct (Repr.shortest_decimal (Z.pos m) e) as [D k]. cbn [fst] in Hpos.
    destruct (digits_spec D Hpos) as (Hd & _ & d & tl & E & Hne).
    split.
    + apply format_float_short_spell; [exact Hd | by rewrite E].
    + apply wf_short_number; [exact Hd | right; eauto].
Qed.

(** ** Scanning an escaped string *)

Lemma hex_val_hex_digit d :
  (d < 16)%N -> JsonText.hex_val (Json.hex_digit d) = Some d.
Proof.
  intros H.
  assert (d = 0 \/ d = 1 \/ d = 2 \/ d = 3 \/ d = 4 \/ d = 5 \/ d = 6 \/ d = 7 \/
          d = 8 \/ d = 9 \/ d = 10 \/ d = 11 \/ d = 12 \/ d = 13 \/ d = 14 \/
          d = 15)%N as Hc by lia.
  repeat (destruct Hc as [->|Hc]; [reflexivity|]). by subst.
Qed.

Lemma hex4_val_hex4 u :
  (u < 65536)%N ->
  JsonText.hex4_val (Json.hex_digit (N.shiftr u 12 mod 16))
                    (Json.hex_digit (N.shiftr u 8 mod 16))
                    (Json.hex_digit (N.shiftr u 4 mod 16))
                    (Json.hex_digit (u mod 16)) = Some u.
Proof.
  intros Hu. unfold JsonText.hex4_val.
  rewrite !hex_val_hex_digit by (apply N.mod_lt; discriminate).
  f_equal. rewrite !N.shiftr_div_pow2.
  change (2 ^ 12)%N with (16 * (16 * 16))%N. change (2 ^ 8)%N with (16 * 16)%N.
  change (2 ^ 4)%N with 16%N.
  rewrite <- !N.Div0.div_div.
  pose proof (N.div_mod u 16 ltac:(discriminate)) as H0.
  pose proof (N.mod_lt u 16 ltac:(discriminate)) as L0.
  set (x1 := (u / 16)%N) in *.
  pose proof (N.div_mod x1 16 ltac:(discriminate)) as H1.
  pose proof (N.mod_lt x1 16 ltac:(discriminate)) as L1.
  set (x2 := (x1 / 16)%N) in *.
  pose proof (N.div_mod x2 16 ltac:(discriminate)) as H2.
  pose proof (N.mod_lt x2 16 ltac:(discriminate)) as L2.
  set (x3 := (x2 / 16)%N) in *.
  set (r0 := (u mod 16)%N) in *. set (r1 := (x1 mod 16)%N) in *.
  set (r2 := (x2 mod 16)%N) in *. clearbody r0 r1 r2 x3. clearbody x2. clearbody x1.
  assert (x3 < 16)%N by lia.
  rewrite (N.mod_small x3 16) by assumption. lia.
Qed.

Lemma scan_string_cons a s :
  JsonText.scan_string (String a s) =
  let n := N_of_ascii a in
  if (n =? 34)%N then Some ([], s)
  else if (n =? 92)%N then
    match s with
    | "" => None
    | String e s'' =>
        if (N_of_ascii e =? 117)%N then
          match s'' with
          | String h1 (String h2 (String h3 (String h4 r))) =>
              match JsonText.hex4_val h1 h2 h3 h4 with
              | Some u => JsonText.prepend u (JsonText.scan_string r)
              | None => None
              end
          | _ => None
          end
        else
          match JsonText.unescape e with
          | Some u => JsonText.prepend u (JsonText.scan_string s'')
          | None => None
          end
    end
  else if (n <? 32)%N then None
  else JsonText.prepend n (JsonText.scan_string s).
Proof. reflexivity. Qed.

Lemma scan_string_u u tail :
  (u < 65536)%N ->
  JsonText.scan_string ("\u" +:+ Json.hex4 u +:+ tail) =
  JsonText.prepend u (JsonText.scan_string tail).
Proof.
  intros Hu. unfold Json.hex4.
  change (JsonText.scan_string
            (String "\" (String "u"
               (String (Json.hex_digit (N.shiftr u 12 mod 16))
                  (String (Json.hex_digit (N.shiftr u 8 mod 16))
                     (String (Json.hex_digit (N.shiftr u 4 mod 16))
                        (String (Json.hex_digit (u mod 16)) tail))))))
          = JsonText.prepend u (JsonText.scan_string tail)).
  rewrite scan_string_cons.
  change (N_of_ascii "\") with 92%N. cbn [N.eqb Pos.eqb].
  change (N_of_ascii "u" =? 117)%N with true. cbv iota.
  by rewrite hex4_val_hex4.
Qed.

Lemma lor_land_lt hi x : (hi < 65536)%N -> (N.lor hi (N.land x 1023) < 65536)%N.
Proof.
  intros Hhi.
  assert (Hl : (N.land x 1023 < 2 ^ 16)%N).
  { change 1023%N with (N.ones 10). rewrite N.land_ones.
    pose proof (N.mod_lt x (2 ^ 10) ltac:(discriminate)) as H.
    change (2 ^ 10)%N with 1024%N in *. change (2 ^ 16)%N with 65536%N.
    generalize dependent (x mod 1024)%N. intros. lia. }
  generalize dependent (N.land x 1023). intros y Hy.
  destruct (N.eq_dec (N.lor hi y) 0%N) as [->|Hne]; [reflexivity|].
  change 65536%N with (2 ^ 16)%N in *.
  apply N.log2_lt_pow2; [lia|].
  rewrite N.log2_lor. apply N.max_lub_lt.
  - destruct (N.eq_dec hi 0%N) as [->|]; [reflexivity|].
    apply N.log2_lt_pow2; [lia | exact Hhi].
  - destruct (N.eq_dec y 0%N) as [->|]; [reflexivity|].
    apply N.log2_lt_pow2; [lia | exact Hy].
Qed.

Lemma prepend_app {B} (us1 : list N) (r : option (list N * B)) u :
  JsonText.prepend u
    (match r with Some (us, b) => Some (us1 ++ us, b) | None => None end) =
  match r with Some (us, b) => Some ((u :: us1) ++ us, b) | None => None end.
Proof. by destruct r as [[? ?]|]. Qed.

Ltac simple_escape u tail :=
  transitivity (JsonText.prepend u (JsonText.scan_string tail));
  [reflexivity | by destruct (JsonText.scan_string tail) as [[]|]].

(** One escaped character reads back as its code units. *)
Lemma scan_string_escape_char c tail :
  JsonText.scan_string (Json.escape_char c +:+ tail) =
  match JsonText.scan_string tail with
  | Some (us, r) => Some (units_of c ++ us, r)
  | None => None
  end.
Proof.
  unfold Json.escape_char.
  destruct (N.eqb_spec c 92) as [->|H92]; [by simple_escape 92%N tail|].
  destruct (N.eqb_spec c 34) as [->|H34]; [by simple_escape 34%N tail|].
  destruct (N.eqb_spec c 8) as [->|H8]; [by simple_escape 8%N tail|].
  destruct (N.eqb_spec c 12) as [->|H12]; [by simple_escape 12%N tail|].
  destruct (N.eqb_spec c 10) as [->|H10]; [by simple_escape 10%N tail|].
  destruct (N.eqb_spec c 13) as [->|H13]; [by simple_escape 13%N tail|].
  destruct (N.eqb_spec c 9) as [->|H9]; [by simple_escape 9%N tail|].
  destruct ((32 <=? c)%N && (c <=? 126)%N) eqn:Hp.
  - apply andb_prop in Hp as [Hlo Hhi].
    apply N.leb_le in Hlo. apply N.leb_le in Hhi.
    rewrite append_cons, append_nil_l, scan_string_cons.
    cbv zeta. rewrite N_ascii_embedding by lia.
    destruct (N.eqb_spec c 34); [contradiction|].
    destruct (N.eqb_spec c 92); [contradiction|].
    destruct (N.ltb_spec c 32); [lia|].
    unfold units_of. destruct (N.ltb_spec c 65536); [|lia].
    by destruct (JsonText.scan_string tail) as [[]|].
  - unfold units_of. destruct (N.ltb_spec c 65536) as [Hs|Hb].
    + rewrite append_assoc, scan_string_u by assumption.
      by destruct (JsonText.scan_string tail) as [[]|].
    + rewrite !append_assoc.
      rewrite scan_string_u by (by apply lor_land_lt).
      rewrite scan_string_u by (by apply lor_land_lt).
      by destruct (JsonText.scan_string tail) as [[]|].
Qed.

(** An encoded string reads back as its code units. *)
Lemma scan_string_escape s rest :
  JsonText.scan_string (Json.escape s +:+ Json.dquote +:+ rest) =
  Some (units s, rest).
Proof.
  induction s as [|c s IH]; [reflexivity|].
  cbn [Json.escape]. rewrite append_assoc, scan_string_escape_char, IH.
  reflexivity.
Qed.

(** ** The reader accepts the encoder's text *)

(** A text that starts with something other than white space or a closing
    bracket. *)
Definition starts_value (s : string) : Prop :=
  exists c r, s = String c r /\ JsonText.is_ws c = false /\
              Ascii.eqb c "]" = false.

Lemma starts_value_skip_ws s : starts_value s -> JsonText.skip_ws s = s.
Proof. intros (c & r & -> & Hws & _). cbn. by rewrite Hws. Qed.

Lemma spell_starts_value n x : wf_number n -> starts_value (spell n +:+ x).
Proof.
  intros (Hip & Hhead & _). destruct n as [neg ip fp ep]. cbn in *.
  unfold spell. cbn [JsonText.negative JsonText.int_part].
  destruct neg; cbn [sign_text].
  - rewrite !append_assoc, append_cons. by eexists _, _.
  - rewrite append_nil_l.
    destruct Hhead as [->|(d & tl & -> & _)].
    + rewrite !append_assoc. by eexists _, _.
    + apply Forall_cons_1 in Hip as [Hd _]. cbn [Repr.digs].
      rewrite !append_assoc, append_cons. eexists _, _.
      split; [reflexivity|]. split; [by apply digit_char_not_ws|].
      dig_cases Hd; reflexivity.
Qed.

Lemma render_starts_value v x :
  serializable v = true -> starts_value (render v +:+ x).
Proof.
  destruct v as [|[]|z|f|s|[|v0 l]|[|kv d]|a|n|c attrs]; intros Hs;
    try discriminate; try (by eexists _, _).
  - cbn [render Json.encode_scalar]. rewrite int_repr_spell.
    apply spell_starts_value, wf_int_number.
  - destruct (is_finite f) eqn:Ef.
    + cbn [render Json.encode_scalar].
      destruct (floatstr_spell f Ef) as [-> Hwf]. by apply spell_starts_value.
    + destruct f as [|[]| |]; try discriminate; by eexists _, _.
Qed.

Lemma items_text_delimited l x : delimited (items_text render l +:+ x) = true.
Proof. destruct l; reflexivity. Qed.

Lemma members_text_delimited d x : delimited (members_text render d +:+ x) = true.
Proof. destruct d; reflexivity. Qed.

Section Accept.

Variable ext : bool.

(** What the reader makes of the text of [v] in front of [rest]. *)
Definition accepted (v : pyobj) : Prop :=
  forall fuel rest,
    delimited rest = true ->
    (2 * String.length (render v +:+ rest) + 1 <= fuel)%nat ->
    JsonText.parse_value ext fuel (render v +:+ rest) =
    Some (to_json v, rest).

Definition readable (v : pyobj) : Prop :=
  serializable v = true -> (ext = false -> all_finite v = true) -> accepted v.

Lemma parse_value_number n fuel rest :
  wf_number n -> delimited rest = true ->
  JsonText.parse_value ext (S fuel) (spell n +:+ rest) =
  Some (JsonText.JNumber n, rest).
Proof.
  intros Hwf Hrest. cbn [JsonText.parse_value].
  by rewrite scan_number_spell.
Qed.

Lemma accepted_scalar v :
  match v with PyList _ | PyDict _ => False | _ => True end -> readable v.
Proof.
  intros Hv Hs Hfin fuel rest Hrest Hfuel.
  destruct fuel as [|fuel]; [lia|].
  destruct v as [|[]|z|f|s| | |a|n|c attrs]; try contradiction;
    try discriminate; try reflexivity.
  - cbn [render Json.encode_scalar to_json]. rewrite int_repr_spell.
    apply parse_value_number; [apply wf_int_number | exact Hrest].
  - destruct (is_finite f) eqn:Ef.
    + cbn [render Json.encode_scalar].
      destruct (floatstr_spell f Ef) as [-> Hwf].
      rewrite parse_value_number by assumption.
      by destruct f as [|[]| |].
    + destruct ext; [|by specialize (Hfin eq_refl); cbn in Hfin; congruence].
      destruct f as [|[]| |]; try discriminate; reflexivity.
  - cbn [render Json.encode_scalar to_json]. unfold Json.encode_basestring_ascii.
    change (Json.dquote +:+ Json.escape s +:+ Json.dquote)
      with (String (ascii_of_nat 34) (Json.escape s +:+ Json.dquote)).
    rewrite append_cons, append_assoc. cbn [JsonText.parse_value].
    change (JsonText.scan_number (String (ascii_of_nat 34) ?x)) with (@None (JsonText.number * string)).
    cbv iota. change (N_of_ascii (ascii_of_nat 34) =? 34)%N with true. cbv iota.
    by rewrite scan_string_escape.
Qed.

Lemma parse_items_render (l : list pyobj) : forall v0 fuel rest,
  accepted v0 -> Forall accepted l ->
  serializable v0 = true -> forallb serializable l = true ->
  delimited rest = true ->
  (2 * String.length (render v0 +:+ items_text render l +:+ rest) + 2 <= fuel)%nat ->
  JsonText.parse_items ext fuel (render v0 +:+ items_text render l +:+ rest) =
  Some (to_json v0 :: List.map to_json l, rest).
Proof.
  induction l as [|v l IH]; intros v0 fuel rest Hv0 Hl Hs0 Hsl Hrest Hfuel.
  - destruct fuel as [|fuel]; [lia|]. cbn [JsonText.parse_items items_text].
    rewrite (Hv0 fuel ("]" +:+ rest)) by (reflexivity || (cbn [items_text] in Hfuel; lia)).
    reflexivity.
  - destruct fuel as [|fuel]; [lia|].
    apply Forall_cons_1 in Hl as [Hv Hl]. cbn [forallb] in Hsl.
    apply andb_prop in Hsl as [Hsv Hsl].
    cbn [JsonText.parse_items items_text] in *.
    rewrite !append_assoc in *.
    rewrite (Hv0 fuel (", " +:+ render v +:+ items_text render l +:+ rest))
      by (reflexivity || lia).
    change (JsonText.skip_ws (", " +:+ ?x)) with (String "," (String " " x)).
    cbv iota. change (Ascii.eqb "," ",") with true. cbv iota.
    change (JsonText.skip_ws (String " " ?x)) with (JsonText.skip_ws x).
    rewrite starts_value_skip_ws by (by apply render_starts_value).
    rewrite IH; [reflexivity | assumption..|].
    rewrite !length_append in *. cbn [String.length] in *. lia.
Qed.

Lemma encode_key_text k x :
  Json.encode_basestring_ascii k +:+ x =
  String (ascii_of_nat 34) (Json.escape k +:+ Json.dquote +:+ x).
Proof.
  unfold Json.encode_basestring_ascii.
  change (Json.dquote +:+ Json.escape k +:+ Json.dquote)
    with (String (ascii_of_nat 34) (Json.escape k +:+ Json.dquote)).
  by rewrite append_cons, append_assoc.
Qed.

Lemma member_text_unfold k v x :
  member_text render (k, v) +:+ x =
  String (ascii_of_nat 34)
    (Json.escape k +:+ Json.dquote +:+ ": " +:+ render v +:+ x).
Proof.
  unfold member_text. cbn [fst snd]. by rewrite !append_assoc, encode_key_text.
Qed.

Lemma parse_members_step k v fuel x :
  JsonText.parse_members ext (S fuel) (member_text render (k, v) +:+ x) =
  match JsonText.parse_value ext fuel (JsonText.skip_ws (render v +:+ x)) with
  | None => None
  | Some (jv, s4) =>
      match JsonText.skip_ws s4 with
      | "" => None
      | String c' s5 =>
          if Ascii.eqb c' ","
          then JsonText.prepend (units k, jv)
                 (JsonText.parse_members ext fuel (JsonText.skip_ws s5))
          else if Ascii.eqb c' "}" then Some ([(units k, jv)], s5)
          else None
      end
  end.
Proof.
  rewrite member_text_unfold. cbn [JsonText.parse_members].
  change (N_of_ascii (ascii_of_nat 34) =? 34)%N with true. cbv iota.
  rewrite scan_string_escape. reflexivity.
Qed.

Lemma length_member_text k v x :
  String.length (member_text render (k, v) +:+ x) =
  (String.length (Json.encode_basestring_ascii k) + 2 +
   String.length (render v +:+ x))%nat.
Proof.
  unfold member_text. cbn [fst snd].
  rewrite !append_assoc, !length_append. cbn [String.length]. lia.
Qed.

Lemma parse_members_render (d : list (pystr * pyobj)) : forall kv fuel rest,
  accepted kv.2 -> Forall (fun kv => accepted kv.2) d ->
  serializable kv.2 = true -> forallb (fun kv => serializable kv.2) d = true ->
  delimited rest = true ->
  (2 * String.length (member_text render kv +:+ members_text render d +:+ rest) + 2
   <= fuel)%nat ->
  JsonText.parse_members ext fuel
    (member_text render kv +:+ members_text render d +:+ rest) =
  Some ((units kv.1, to_json kv.2) ::
        List.map (fun kv => (units kv.1, to_json kv.2)) d, rest).
Proof.
  induction d as [|kv' d IH]; intros [k v] fuel rest Hv0 Hd Hs0 Hsd Hrest Hfuel;
    (destruct fuel as [|fuel]; [lia|]); cbn [fst snd] in *;
    rewrite parse_members_step;
    rewrite length_member_text in Hfuel;
    rewrite starts_value_skip_ws by (by apply render_starts_value).
  - cbn [members_text] in *.
    rewrite (Hv0 fuel ("}" +:+ rest)); [reflexivity | reflexivity | lia].
  - apply Forall_cons_1 in Hd as [Hv Hd]. cbn [forallb] in Hsd.
    apply andb_prop in Hsd as [Hsv Hsd].
    cbn [members_text] in *. rewrite !append_assoc in *.
    rewrite (Hv0 fuel (", " +:+ member_text render kv' +:+ members_text render d +:+ rest));
      [|reflexivity|idtac].
    2:{ lia. }
    change (JsonText.skip_ws (", " +:+ ?x)) with (String "," (String " " x)).
    cbv iota. change (Ascii.eqb "," ",") with true. cbv iota.
    assert (Hsk : JsonText.skip_ws
                    (String " " (member_text render kv' +:+
                                 members_text render d +:+ rest))
                  = member_text render kv' +:+ members_text render d +:+ rest).
    { destruct kv' as [k' v']. rewrite member_text_unfold. reflexivity. }
    rewrite Hsk, IH; [reflexivity | assumption..|].
    rewrite (length_append (render v)), (length_append ", ") in Hfuel.
    cbn [String.length] in Hfuel. lia.
Qed.

Lemma parse_value_array fuel s :
  starts_value s ->
  JsonText.parse_value ext (S fuel) ("[" +:+ s) =
  JsonText.on_fst JsonText.JArray (JsonText.parse_items ext fuel s).
Proof.
  intros Hs. rewrite append_cons, append_nil_l. cbn [JsonText.parse_value].
  change (JsonText.scan_number (String "[" s)) with (@None (JsonText.number * string)).
  cbv iota. change (N_of_ascii "[" =? 34)%N with false.
  change (Ascii.eqb "[" "[") with true. cbv iota.
  rewrite starts_value_skip_ws by assumption.
  destruct Hs as (c & r & -> & _ & ->). reflexivity.
Qed.

Lemma parse_value_object fuel k v x :
  JsonText.parse_value ext (S fuel) ("{" +:+ member_text render (k, v) +:+ x) =
  JsonText.on_fst JsonText.JObject
    (JsonText.parse_members ext fuel (member_text render (k, v) +:+ x)).
Proof. rewrite member_text_unfold. reflexivity. Qed.

Lemma Forall_accepted (l : list pyobj) :
  Forall readable l ->
  forallb serializable l = true ->
  (ext = false -> forallb all_finite l = true) ->
  Forall accepted l.
Proof.
  induction 1 as [|v l Hv _ IH]; intros Hs Hfin; constructor.
  - cbn in Hs. apply andb_prop in Hs as [Hsv _].
    apply Hv; [exact Hsv|]. intros E. specialize (Hfin E). cbn in Hfin.
    by apply andb_prop in Hfin as [].
  - apply IH.
    + cbn in Hs. by apply andb_prop in Hs as [].
    + intros E. specialize (Hfin E). cbn in Hfin.
      by apply andb_prop in Hfin as [].
Qed.

Lemma Forall_accepted_members (d : list (pystr * pyobj)) :
  Forall (fun kv => readable kv.2) d ->
  forallb (fun kv => serializable kv.2) d = true ->
  (ext = false -> forallb (fun kv => all_finite kv.2) d = true) ->
  Forall (fun kv => accepted kv.2) d.
Proof.
  induction 1 as [|kv d Hv _ IH]; intros Hs Hfin; constructor.
  - cbn in Hs. apply andb_prop in Hs as [Hsv _].
    apply Hv; [exact Hsv|]. intros E. specialize (Hfin E). cbn in Hfin.
    by apply andb_prop in Hfin as [].
  - apply IH.
    + cbn in Hs. by apply andb_prop in Hs as [].
    + intros E. specialize (Hfin E). cbn in Hfin.
      by apply andb_prop in Hfin as [].
Qed.

(** Every value with only serializable parts reads back as its syntax
    tree; under the standard grammar, provided its floats are finite. *)
Lemma parse_value_render v : readable v.
Proof.
  induction v as [|b|z|f|s|l IH|d IH|a|n|c attrs] using pyobj_ind;
    try (by apply accepted_scalar).
  - intros Hs Hfin fuel rest Hrest Hfuel.
    destruct fuel as [|fuel]; [lia|].
    destruct l as [|v0 l]; [reflexivity|].
    pose proof (Forall_accepted _ IH Hs Hfin) as Hacc.
    apply Forall_cons_1 in Hacc as [Hacc0 Hacc].
    cbn [serializable forallb] in Hs. apply andb_prop in Hs as [Hs0 Hsl].
    cbn [render to_json] in *. rewrite !append_assoc in *.
    rewrite parse_value_array by (by apply render_starts_value).
    rewrite parse_items_render; try assumption; [reflexivity|].
    rewrite (length_append "[") in Hfuel. cbn [String.length] in Hfuel. lia.
  - intros Hs Hfin fuel rest Hrest Hfuel.
    destruct fuel as [|fuel]; [lia|].
    destruct d as [|[k0 v0] d]; [reflexivity|].
    pose proof (Forall_accepted_members _ IH Hs Hfin) as Hacc.
    apply Forall_cons_1 in Hacc as [Hacc0 Hacc].
    cbn [serializable forallb] in Hs. apply andb_prop in Hs as [Hs0 Hsd].
    cbn [render to_json] in *. rewrite !append_assoc in *.
    rewrite parse_value_object.
    rewrite (parse_members_render d (k0, v0)); try assumption; [reflexivity|].
    rewrite (length_append "{") in Hfuel. cbn [String.length] in Hfuel. lia.
Qed.

End Accept.

(** ** The text is ASCII, hence UTF-8 *)

Lemma ascii_only_valid s : Utf8.ascii_only s = true -> Utf8.valid s = true.
Proof.
  induction s as [|c s IH]; [reflexivity|]. cbn [Utf8.ascii_only Utf8.valid].
  intros H. apply andb_prop in H as [-> H]. by apply IH.
Qed.

Lemma ascii_only_app s t :
  Utf8.ascii_only (s +:+ t) = Utf8.ascii_only s && Utf8.ascii_only t.
Proof.
  induction s as [|c s IH]; [reflexivity|].
  rewrite append_cons. cbn [Utf8.ascii_only]. by rewrite IH, andb_assoc.
Qed.

Lemma ascii_only_digs ds : Forall is_dig ds -> Utf8.ascii_only (Repr.digs ds) = true.
Proof.
  induction 1 as [|d ds Hd _ IH]; [reflexivity|]. cbn [Repr.digs Utf8.ascii_only].
  rewrite IH, andb_true_r. dig_cases Hd; reflexivity.
Qed.

Lemma ascii_only_spell n : wf_number n -> Utf8.ascii_only (spell n) = true.
Proof.
  intros (Hip & _ & Hfp). destruct n as [neg ip fp ep]. cbn in *.
  unfold spell. cbn [JsonText.negative JsonText.int_part JsonText.frac_part
                       JsonText.exp_part].
  rewrite !ascii_only_app, ascii_only_digs by assumption.
  assert (Utf8.ascii_only (sign_text neg) = true) as -> by (by destruct neg).
  assert (Utf8.ascii_only (frac_text fp) = true) as ->.
  { destruct fp as [ds|]; [|reflexivity]. cbn [frac_text].
    rewrite ascii_only_app, ascii_only_digs; [reflexivity | apply Hfp]. }
  destruct ep as [x|]; [|reflexivity]. cbn [exp_text].
  destruct (exp_str_spec x) as (sg & ds & -> & Hsg & Hds & _).
  rewrite !ascii_only_app, ascii_only_digs by assumption.
  by destruct Hsg as [[-> _]|[-> _]].
Qed.

Lemma ascii_only_hex_digit d :
  (d < 16)%N -> Utf8.between 0 127 (Json.hex_digit d) = true.
Proof.
  intros H.
  assert (d = 0 \/ d = 1 \/ d = 2 \/ d = 3 \/ d = 4 \/ d = 5 \/ d = 6 \/ d = 7 \/
          d = 8 \/ d = 9 \/ d = 10 \/ d = 11 \/ d = 12 \/ d = 13 \/ d = 14 \/
          d = 15)%N as Hc by lia.
  repeat (destruct Hc as [->|Hc]; [reflexivity|]). by subst.
Qed.

Lemma ascii_only_hex4 u : Utf8.ascii_only (Json.hex4 u) = true.
Proof.
  unfold Json.hex4. cbn [Utf8.ascii_only].
  by rewrite !ascii_only_hex_digit by (apply N.mod_lt; discriminate).
Qed.

Lemma ascii_only_escape_char c : Utf8.ascii_only (Json.escape_char c) = true.
Proof.
  unfold Json.escape_char.
  repeat (destruct (_ =? _)%N; [reflexivity|]).
  destruct ((32 <=? c)%N && (c <=? 126)%N) eqn:Hp.
  - apply andb_prop in Hp as [Hlo Hhi].
    apply N.leb_le in Hlo. apply N.leb_le in Hhi.
    cbn [Utf8.ascii_only]. unfold Utf8.between.
    rewrite N_ascii_embedding by lia. rewrite andb_true_r.
    apply andb_true_intro. split; apply N.leb_le; lia.
  - destruct (_ <? _)%N; rewrite !ascii_only_app, !ascii_only_hex4; reflexivity.
Qed.

Lemma ascii_only_escape s : Utf8.ascii_only (Json.escape s) = true.
Proof.
  induction s as [|c s IH]; [reflexivity|]. cbn [Json.escape].
  by rewrite ascii_only_app, ascii_only_escape_char, IH.
Qed.

Lemma ascii_only_string s :
  Utf8.ascii_only (Json.encode_basestring_ascii s) = true.
Proof.
  unfold Json.encode_basestring_ascii.
  by rewrite !ascii_only_app, ascii_only_escape.
Qed.

Lemma ascii_only_scalar v s :
  Json.encode_scalar v = Some s -> Utf8.ascii_only s = true.
Proof.
  destruct v as [|[]|z|f|str| | | | |]; cbn; try discriminate; intros [= <-];
    try reflexivity.
  - rewrite int_repr_spell. apply ascii_only_spell, wf_int_number.
  - destruct (is_finite f) eqn:Ef.
    + destruct (floatstr_spell f Ef) as [-> Hwf]. by apply ascii_only_spell.
    + by destruct f as [|[]| |].
  - apply ascii_only_string.
Qed.

(** The text of a value is made of ASCII characters. *)
Lemma ascii_only_render v : Utf8.ascii_only (render v) = true.
Proof.
  induction v as [|b|z|f|s|l IH|d IH|a|n|c attrs] using pyobj_ind;
    try reflexivity;
    try (cbn [render]; destruct (Json.encode_scalar _) eqn:E;
         [by eapply ascii_only_scalar | reflexivity]).
  - destruct l as [|v0 l]; [reflexivity|]. cbn [render].
    apply Forall_cons_1 in IH as [H0 IH].
    assert (Hl : Utf8.ascii_only (items_text render l) = true).
    { induction IH as [|v l Hv _ IHl]; [reflexivity|].
      cbn [items_text]. by rewrite !ascii_only_app, Hv, IHl. }
    by rewrite !ascii_only_app, H0, Hl.
  - destruct d as [|[k0 v0] d]; [reflexivity|]. cbn [render].
    apply Forall_cons_1 in IH as [H0 IH]. cbn [snd] in H0.
    unfold member_text at 1. cbn [fst snd].
    assert (Hd : Utf8.ascii_only (members_text render d) = true).
    { induction IH as [|[k v] d Hv _ IHd]; [reflexivity|].
      cbn [members_text]. unfold member_text at 1. cbn [fst snd] in *.
      by rewrite !ascii_only_app, Hv, IHd, ascii_only_string. }
    by rewrite !ascii_only_app, H0, Hd, ascii_only_string.
Qed.

(** ** The output file as JSON *)

Lemma parse_render ext v :
  serializable v = true -> (ext = false -> all_finite v = true) ->
  JsonText.parse ext (render v) = Some (to_json v).
Proof.
  intros Hs Hfin. unfold JsonText.parse.
  pose proof (render_starts_value v "" Hs) as Hst.
  rewrite append_nil_r in Hst. rewrite starts_value_skip_ws by assumption.
  pose proof (parse_value_render ext v Hs Hfin
                (2 * String.length (render v) + 1)%nat "" eq_refl) as H.
  rewrite append_nil_r in H. by rewrite H.
Qed.

Lemma ok_output unpickle w w' :
  convert_svm unpickle w = (Ok tt, w') ->
  exists md,
    exported_record unpickle w = Some md /\ serializable md = true /\
    files w' !! output_path = Some (render md).
Proof.
  intros H.
  apply ok_inv in H as (bytes & o & md & cs & Hf & Hu & Hm & _ & Hj & ->).
  exists md. unfold exported_record. rewrite Hf, Hu, Hm.
  assert (Hs : serializable md = true) by (apply serializable_iff; by rewrite Hj).
  split; [reflexivity|]. split; [exact Hs|].
  destruct (iterencode_yields md Hs) as [_ Ht]. rewrite Hj in Ht. cbn [fst] in Ht.
  cbn. by rewrite lookup_insert_eq, Ht.
Qed.

Lemma record_member_names o md :
  model_data o = Ok md ->
  JsonText.member_names (to_json md) = Some (List.map units field_names).
Proof.
  intros H. destruct (model_data_inv _ _ H)
    as [sv dc ic sp ns g c k Hsv Hdc Hic Hg Hc Hk Hsp Hns ->].
  reflexivity.
Qed.

Lemma exported_record_some unpickle w md :
  exported_record unpickle w = Some md -> exists o, model_data o = Ok md.
Proof.
  unfold exported_record.
  destruct (files w !! input_path) as [bytes|]; [|discriminate].
  destruct (unpickle bytes) as [o|]; [|discriminate].
  destruct (model_data o) as [md'|] eqn:E; [|discriminate].
  intros [= <-]. eauto.
Qed.

(** X12. After a run that ends normally the output file is UTF-8 text
    that holds a single value, an object whose keys are exactly the eight
    fields in the order of the display, in the grammar [json.loads] reads,
    which is JSON with the names [NaN], [Infinity] and [-Infinity]; when no
    float of the record is a NaN or an infinity the text is in the grammar
    of RFC 8259 itself. *)
Theorem export_is_json unpickle (w w' : world) (md : pyobj) :
  convert_svm unpickle w = (Ok tt, w') ->
  exported_record unpickle w = Some md ->
  json_export true w' /\ (all_finite md = true -> json_export false w').
Proof.
  intros Hrun Hrec.
  destruct (ok_output _ _ _ Hrun) as (md' & Hrec' & Hs & Hout).
  assert (md' = md) as -> by congruence.
  destruct (exported_record_some _ _ _ Hrec) as (o & Hm).
  assert (Hex : forall ext, (ext = false -> all_finite md = true) ->
                            json_export ext w').
  { intros ext Hfin. exists (render md), (to_json md).
    split; [exact Hout|]. split; [apply ascii_only_valid, ascii_only_render|].
    split; [by apply parse_render | by eapply record_member_names]. }
  split; [by apply Hex | intros Hfin; by apply Hex].
Qed.

Lemma export_is_json_witness :
  json_export true (convert_svm Example.unpickle Example.w0).2 /\
  json_export false (convert_svm Example.unpickle Example.w0).2.
Proof.
  destruct (export_is_json Example.unpickle Example.w0
              (convert_svm Example.unpickle Example.w0).2 Example.record)
    as [H1 H2]; [vm_compute; reflexivity..|].
  split; [exact H1 | apply H2; vm_compute; reflexivity].
Defined.

(** C2. The output file is not always JSON: the hard-margin classifier,
    whose [C] is infinite, is exported, the run ends normally, and the file
    is not in the JSON grammar, since [json.dump] writes the infinity as
    [Infinity], which is no JSON number. *)
Lemma infinity_is_not_json :
  (convert_svm Example.unpickle Example.w_hard_margin).1 = Ok tt /\
  ~ json_export false (convert_svm Example.unpickle Example.w_hard_margin).2.
Proof.
  split; [vm_compute; reflexivity|].
  intros (text & v & Hout & _ & Hparse & _).
  assert (Hnone : (files (convert_svm Example.unpickle Example.w_hard_margin).2
                     !! output_path) ≫= JsonText.parse false = None)
    by (vm_compute; reflexivity).
  rewrite Hout in Hnone. cbn in Hnone. congruence.
Qed.

(** ** Rounding to the nearest binary64 *)

Lemma pow2_pos n : 0 <= n -> 0 < 2 ^ n.
Proof. intros. by apply Z.pow_pos_nonneg. Qed.

Lemma pow2_split p q : 0 <= p -> 0 <= q -> 2 ^ (p + q) = 2 ^ p * 2 ^ q.
Proof. intros. by apply Z.pow_add_r. Qed.

(** [a / b < 2^(q - p)] moves to any [q' - p'] that is not smaller. *)
Lemma pow2_lt_transfer a b p q p' q' :
  0 <= a -> 0 < b -> 0 <= p -> 0 <= q -> 0 <= p' -> 0 <= q' ->
  a * 2 ^ p < b * 2 ^ q -> q - p <= q' - p' ->
  a * 2 ^ p' < b * 2 ^ q'.
Proof.
  intros Ha Hb Hp Hq Hp' Hq' H Hd.
  set (d := (q' - p') - (q - p)).
  assert (Hd0 : 0 <= d) by (subst d; lia).
  apply Z.mul_lt_mono_pos_r with (p := 2 ^ p); [by apply pow2_pos|].
  apply Z.le_lt_trans with (m := a * 2 ^ p * 2 ^ (p' + d)).
  - rewrite <- !Z.mul_assoc. apply Z.mul_le_mono_nonneg_l; [exact Ha|].
    rewrite <- !pow2_split by lia. apply Z.pow_le_mono_r; lia.
  - replace (b * 2 ^ q' * 2 ^ p) with (b * 2 ^ q * 2 ^ (p' + d)).
    + apply Z.mul_lt_mono_pos_r; [apply pow2_pos; lia | exact H].
    + rewrite <- !Z.mul_assoc. f_equal. rewrite <- !pow2_split by lia.
      f_equal. subst d. lia.
Qed.

(** [2^(q - p) <= a / b] moves to any [q' - p'] that is not larger. *)
Lemma pow2_le_transfer a b p q p' q' :
  0 <= a -> 0 <= b -> 0 <= p -> 0 <= q -> 0 <= p' -> 0 <= q' ->
  b * 2 ^ q <= a * 2 ^ p -> q' - p' <= q - p ->
  b * 2 ^ q' <= a * 2 ^ p'.
Proof.
  intros Ha Hb Hp Hq Hp' Hq' H Hd.
  set (d := (q - p) - (q' - p')).
  assert (Hd0 : 0 <= d) by (subst d; lia).
  apply Z.mul_le_mono_pos_r with (p := 2 ^ (p + d)); [apply pow2_pos; lia|].
  apply Z.le_trans with (m := b * 2 ^ q * 2 ^ p').
  - rewrite <- !Z.mul_assoc. apply Z.mul_le_mono_nonneg_l; [exact Hb|].
    rewrite <- !pow2_split by lia. apply Z.pow_le_mono_r; subst d; lia.
  - replace (a * 2 ^ p' * 2 ^ (p + d)) with (a * 2 ^ p * 2 ^ (p' + d)).
    + apply Z.le_trans with (m := a * 2 ^ p * 2 ^ p').
      * apply Z.mul_le_mono_nonneg_r; [apply Z.lt_le_incl, pow2_pos; lia | exact H].
      * rewrite <- !Z.mul_assoc. apply Z.mul_le_mono_nonneg_l; [exact Ha|].
        apply Z.mul_le_mono_nonneg_l; [apply Z.lt_le_incl, pow2_pos; lia|].
        apply Z.pow_le_mono_r; lia.
    + rewrite <- !Z.mul_assoc. f_equal. rewrite <- !pow2_split by lia.
      f_equal. lia.
Qed.

(** Ties go to the even neighbour. *)
Lemma round_half_even_spec a b m :
  0 < b ->
  (if Z.even m then (2 * m - 1) * b <= 2 * a <= (2 * m + 1) * b
   else (2 * m - 1) * b < 2 * a < (2 * m + 1) * b) ->
  Strtod.round_half_even a b = m.
Proof.
  intros Hb H. unfold Strtod.round_half_even.
  pose proof (Z.div_mod a b ltac:(lia)) as Hdm.
  pose proof (Z.mod_pos_bound a b Hb) as Hr.
  set (q := a / b) in *. set (r := a mod b) in *. clearbody q r.
  assert (Hq : q = m \/ q = m - 1).
  { destruct (Z.even m); nia. }
  destruct (Z.compare_spec (2 * r) b) as [E|L|G].
  - destruct Hq as [->| ->].
    + destruct (Z.even m) eqn:Em; [reflexivity|]. nia.
    + destruct (Z.even m) eqn:Em; [|nia].
      replace (Z.even (m - 1)) with false; [lia|].
      rewrite Z.even_sub, Em. reflexivity.
  - destruct Hq as [->| ->]; [reflexivity|]. destruct (Z.even m); nia.
  - destruct Hq as [->| ->]; [|lia]. destruct (Z.even m); nia.
Qed.

Lemma canonical_bounds m e :
  canonical m e -> 1 <= m < 2 ^ 53 /\ -1074 <= e <= 971.
Proof. unfold canonical. change (2 ^ 52) with 4503599627370496. lia. Qed.

Section Binade.

Variables num den : Z.
Hypothesis Hnum : 0 < num.
Hypothesis Hden : 0 < den.

(** [num / den / 2^e], as a pair of integers. *)
Let A := num * 2 ^ 1074.
Let B (e : Z) := den * 2 ^ (e + 1074).

Lemma B_pos e : -1074 <= e -> 0 < B e.
Proof. intros. unfold B. apply Z.mul_pos_pos; [exact Hden | apply pow2_pos; lia]. Qed.

Lemma B_succ e : -1074 <= e -> B (e + 1) = 2 * B e.
Proof.
  intros. unfold B. replace (e + 1 + 1074) with (1 + (e + 1074)) by lia.
  rewrite pow2_split by lia. change (2 ^ 1) with 2. ring.
Qed.

Lemma B_mono e1 e2 : -1074 <= e1 -> e1 < e2 -> 2 * B e1 <= B e2.
Proof.
  intros H1 H2. rewrite <- B_succ by assumption. unfold B.
  apply Z.mul_le_mono_nonneg_l; [lia|]. apply Z.pow_le_mono_r; lia.
Qed.

Lemma log2_bounds x : 0 < x -> 2 ^ Z.log2 x <= x < 2 ^ (Z.log2 x + 1).
Proof. intros H. pose proof (Z.log2_spec x H). lia. Qed.

(** Below [2^(c + 54)], where [c] is the difference of bit lengths less
    53. *)
Lemma A_upper e :
  -1074 <= e -> Z.log2 num - Z.log2 den - 53 + 1 <= e -> A < 2 ^ 53 * B e.
Proof.
  intros He Hc. unfold A, B.
  pose proof (log2_bounds num Hnum) as [_ Hn].
  pose proof (log2_bounds den Hden) as [Hd _].
  pose proof (Z.log2_nonneg num). pose proof (Z.log2_nonneg den).
  assert (H1 : num * 2 ^ Z.log2 den < den * 2 ^ (Z.log2 num + 1)).
  { apply Z.lt_le_trans with (m := 2 ^ (Z.log2 num + 1) * 2 ^ Z.log2 den).
    - apply Z.mul_lt_mono_pos_r; [apply pow2_pos; lia | exact Hn].
    - rewrite (Z.mul_comm den). apply Z.mul_le_mono_nonneg_l; [|exact Hd].
      apply Z.lt_le_incl, pow2_pos. lia. }
  replace (2 ^ 53 * (den * 2 ^ (e + 1074))) with (den * 2 ^ (53 + (e + 1074)))
    by (rewrite pow2_split by lia; ring).
  eapply pow2_lt_transfer; [| | | | | |exact H1|]; lia.
Qed.

(** Above [2^(c + 52)]. *)
Lemma A_lower e :
  -1074 <= e -> e <= Z.log2 num - Z.log2 den - 53 -> 2 ^ 52 * B e <= A.
Proof.
  intros He Hc. unfold A, B.
  pose proof (log2_bounds num Hnum) as [Hn _].
  pose proof (log2_bounds den Hden) as [_ Hd].
  pose proof (Z.log2_nonneg num). pose proof (Z.log2_nonneg den).
  assert (H1 : den * 2 ^ Z.log2 num <= num * 2 ^ (Z.log2 den + 1)).
  { apply Z.le_trans with (m := 2 ^ (Z.log2 den + 1) * 2 ^ Z.log2 num).
    - apply Z.mul_le_mono_nonneg_r; [apply Z.lt_le_incl, pow2_pos; lia | lia].
    - rewrite (Z.mul_comm num). apply Z.mul_le_mono_nonneg_l; [|exact Hn].
      apply Z.lt_le_incl, pow2_pos. lia. }
  replace (2 ^ 52 * (den * 2 ^ (e + 1074))) with (den * 2 ^ (52 + (e + 1074)))
    by (rewrite pow2_split by lia; ring).
  eapply pow2_le_transfer; [| | | | | |exact H1|]; lia.
Qed.

(** The binade found is the right one. *)
Lemma binade_spec :
  let e := Strtod.binade num den in
  -1074 <= e /\ A < 2 ^ 53 * B e /\ (-1074 < e -> 2 ^ 52 * B e <= A).
Proof.
  unfold Strtod.binade.
  set (c := Z.log2 num - Z.log2 den - 53).
  destruct (Z.ltb_spec (c + 1) (-1074)) as [Hlow|Hhigh].
  - split; [lia|]. split; [apply A_upper; lia | lia].
  - destruct (Z.leb_spec (2 ^ 52 * den * 2 ^ (c + 1 + 1074)) (num * 2 ^ 1074))
      as [Hle|Hgt].
    + split; [lia|]. split; [apply A_upper; lia|].
      intros _. unfold A, B. by rewrite Z.mul_assoc.
    + rewrite <- (Z.mul_assoc (2 ^ 52)) in Hgt. fold (B (c + 1)) in Hgt.
      destruct (Z.le_gt_cases (-1074) c) as [Hc|Hc].
      * rewrite Z.max_r by lia.
        split; [lia|]. split; [|intros _; apply A_lower; lia].
        rewrite B_succ in Hgt by lia. change (2 ^ 53) with (2 * 2 ^ 52).
        unfold A. lia.
      * rewrite Z.max_l by lia.
        split; [lia|]. split; [apply A_upper; lia | lia].
Qed.

(** There is only one. *)
Lemma binade_unique e :
  -1074 <= e -> A < 2 ^ 53 * B e -> (-1074 < e -> 2 ^ 52 * B e <= A) ->
  Strtod.binade num den = e.
Proof.
  intros He Hup Hlo.
  destruct binade_spec as (Hb & Hbup & Hblo).
  set (eb := Strtod.binade num den) in *. clearbody eb.
  destruct (Z.lt_trichotomy eb e) as [Hlt|[Heq|Hgt]]; [|exact Heq|].
  - specialize (Hlo ltac:(lia)).
    pose proof (B_mono eb e Hb Hlt). change (2 ^ 53) with (2 * 2 ^ 52) in *. nia.
  - specialize (Hblo ltac:(lia)).
    pose proof (B_mono e eb He Hgt). change (2 ^ 53) with (2 * 2 ^ 52) in *. nia.
Qed.

(** A quotient inside the rounding interval of a binary64 value rounds to
    that value. *)
Lemma nearest_correct neg m e :
  canonical m e -> rounds_to m e num den ->
  Strtod.nearest_binary64 neg num den = S754_finite neg (Z.to_pos m) e.
Proof.
  intros Hcan Hin.
  destruct (canonical_bounds m e Hcan) as [Hm He].
  pose proof (B_pos e ltac:(lia)) as HB.
  assert (Hlo : Repr.lower_mid m e * B e <= 4 * A /\
                (Z.even m = false -> Repr.lower_mid m e * B e < 4 * A)).
  { unfold rounds_to in Hin. unfold A, B.
    replace (4 * (num * 2 ^ 1074)) with (num * 2 ^ 1076)
      by (change (2 ^ 1076) with (4 * 2 ^ 1074); ring).
    replace (Repr.lower_mid m e * (den * 2 ^ (e + 1074)))
      with (Repr.lower_mid m e * 2 ^ (e + 1074) * den) by ring.
    destruct (Z.even m); split; try discriminate; intros; lia. }
  assert (Hhi : 4 * A <= Repr.upper_mid m * B e /\
                (Z.even m = false -> 4 * A < Repr.upper_mid m * B e)).
  { unfold rounds_to in Hin. unfold A, B.
    replace (4 * (num * 2 ^ 1074)) with (num * 2 ^ 1076)
      by (change (2 ^ 1076) with (4 * 2 ^ 1074); ring).
    replace (Repr.upper_mid m * (den * 2 ^ (e + 1074)))
      with (Repr.upper_mid m * 2 ^ (e + 1074) * den) by ring.
    destruct (Z.even m); split; try discriminate; intros; lia. }
  clear Hin. destruct Hlo as [Hlo Hlo']. destruct Hhi as [Hhi Hhi'].
  unfold Repr.upper_mid in *.
  assert (HmB : m * B e <= (2 ^ 53 - 1) * B e)
    by (apply Z.mul_le_mono_nonneg_r; lia).
  assert (Hup : A < 2 ^ 53 * B e).
  { change (2 ^ 53) with 9007199254740992 in *. lia. }
  assert (Hlm : 4 * m - 2 <= Repr.lower_mid m e <= 4 * m - 1).
  { unfold Repr.lower_mid. destruct (_ && _); lia. }
  assert (HlB : (4 * m - 2) * B e <= Repr.lower_mid m e * B e)
    by (apply Z.mul_le_mono_nonneg_r; lia).
  unfold Strtod.nearest_binary64.
  destruct (Z.le_gt_cases (2 ^ 52 * B e) A) as [Hge|Hlt];
    [|destruct (Z.eq_dec e (-1074)) as [He0|He0]].
  1,2: rewrite (binade_unique e) by (assumption || lia);
    fold (B e); fold A;
    rewrite (round_half_even_spec A (B e) m);
    [ destruct (Z.eqb_spec m (2 ^ 53)); [lia|];
      destruct (Z.eqb_spec m 0); [lia|];
      destruct (Z.ltb_spec 971 e); [lia | reflexivity]
    | exact HB
    | destruct (Z.even m) eqn:Em;
      [ lia
      | specialize (Hlo' eq_refl); specialize (Hhi' eq_refl);
        assert (Repr.lower_mid m e = 4 * m - 2)
          by (unfold Repr.lower_mid;
              destruct (Z.eqb_spec m (2 ^ 52)) as [->|]; [discriminate | reflexivity]);
        lia ] ].
  (* the value is a power of two and the quotient is in the binade below *)
  assert (Hm52 : m = 2 ^ 52).
  { destruct Hcan as [[? ?]|[? ?]]; [|lia].
    change (2 ^ 52) with 4503599627370496 in *. nia. }
  subst m.
  assert (Hl : Repr.lower_mid (2 ^ 52) e = 4 * 2 ^ 52 - 1).
  { unfold Repr.lower_mid. rewrite Z.eqb_refl.
    destruct (Z.ltb_spec (-1074) e); [reflexivity | lia]. }
  rewrite Hl in *.
  pose proof (B_succ (e - 1) ltac:(lia)) as Hs.
  replace (e - 1 + 1) with e in Hs by lia.
  pose proof (B_pos (e - 1) ltac:(lia)) as HB'.
  change (2 ^ 52) with 4503599627370496 in *.
  change (2 ^ 53) with 9007199254740992 in *.
  rewrite (binade_unique (e - 1)); [| lia | | intros _];
    [| change (2 ^ 53) with 9007199254740992; lia
     | change (2 ^ 52) with 4503599627370496; lia].
  fold (B (e - 1)). fold A.
  rewrite (round_half_even_spec A (B (e - 1)) 9007199254740992);
    [| exact HB' | cbn [Z.even]; lia].
  cbn [Z.eqb Pos.eqb]. replace (e - 1 + 1) with e by lia.
  destruct (Z.ltb_spec 971 e); [lia | reflexivity].
Qed.

End Binade.

(** ** The shortest decimal reads back *)

Lemma pow10_pos n : 0 < 10 ^ n \/ n < 0.
Proof. destruct (Z.le_gt_cases 0 n); [left; by apply Z.pow_pos_nonneg | by right]. Qed.

Lemma scale_pow2 e :
  -1074 <= e ->
  2 ^ Z.max (2 - e) 0 * 2 ^ (e + 1074) = 2 ^ Z.max (e - 2) 0 * 2 ^ 1076.
Proof.
  intros He. rewrite <- !pow2_split by lia. f_equal. lia.
Qed.

(** Cross-multiplied comparisons of [x * 2^(e-2)] with a decimal carry
    over to any fraction of the same value. *)
Lemma decimal_le_transfer x e k D num den :
  -1074 <= e -> 0 < den ->
  num * 10 ^ Z.max (- k) 0 = D * 10 ^ Z.max k 0 * den ->
  (x * Repr.scale_den e k <= D * Repr.scale_num e k <->
   x * 2 ^ (e + 1074) * den <= num * 2 ^ 1076) /\
  (D * Repr.scale_num e k <= x * Repr.scale_den e k <->
   num * 2 ^ 1076 <= x * 2 ^ (e + 1074) * den).
Proof.
  intros He Hden Hval. unfold Repr.scale_den, Repr.scale_num.
  pose proof (scale_pow2 e He) as Hp.
  set (TA := 10 ^ Z.max (- k) 0) in *. set (TB := 10 ^ Z.max k 0) in *.
  set (P := 2 ^ Z.max (2 - e) 0) in *. set (Q := 2 ^ Z.max (e - 2) 0) in *.
  set (W := 2 ^ (e + 1074)) in *. set (T := 2 ^ 1076) in *.
  assert (HTA : 0 < TA) by (apply Z.pow_pos_nonneg; lia).
  assert (HQ : 0 < Q) by (apply pow2_pos; lia).
  assert (HW : 0 < W) by (apply pow2_pos; lia).
  assert (HS : 0 < TA * Q * (W * den)) by (repeat apply Z.mul_pos_pos; assumption).
  assert (E1 : D * (TB * P) * (W * den) = num * T * (TA * Q)).
  { replace (D * (TB * P) * (W * den)) with (D * TB * den * (P * W)) by ring.
    rewrite <- Hval, Hp. ring. }
  assert (E2 : x * (TA * Q) * (W * den) = x * W * den * (TA * Q)) by ring.
  clearbody TA TB P Q W T.
  split; split; intros H.
  - apply Z.mul_le_mono_pos_r with (p := TA * Q); [lia|].
    rewrite <- E1, <- E2. apply Z.mul_le_mono_nonneg_r; lia.
  - apply Z.mul_le_mono_pos_r with (p := W * den); [lia|].
    rewrite E1, E2. apply Z.mul_le_mono_nonneg_r; lia.
  - apply Z.mul_le_mono_pos_r with (p := TA * Q); [lia|].
    rewrite <- E1, <- E2. apply Z.mul_le_mono_nonneg_r; lia.
  - apply Z.mul_le_mono_pos_r with (p := W * den); [lia|].
    rewrite E1, E2. apply Z.mul_le_mono_nonneg_r; lia.
Qed.

(** A decimal the printer accepts rounds to the value, whatever fraction
    spells it. *)
Lemma in_interval_rounds_to m e k D num den :
  -1074 <= e -> 0 < den ->
  Repr.in_interval m e k D = true ->
  num * 10 ^ Z.max (- k) 0 = D * 10 ^ Z.max k 0 * den ->
  rounds_to m e num den.
Proof.
  intros He Hden Hin Hval.
  destruct (decimal_le_transfer (Repr.lower_mid m e) e k D num den He Hden Hval)
    as [L1 L2].
  destruct (decimal_le_transfer (Repr.upper_mid m) e k D num den He Hden Hval)
    as [U1 U2].
  unfold Repr.in_interval in Hin. unfold rounds_to.
  destruct (Z.even m); apply andb_prop in Hin as [Hl Hu].
  - apply Z.leb_le in Hl, Hu. split; [by apply L1 | by apply U2].
  - apply Z.ltb_lt in Hl, Hu. split.
    + apply Z.nle_gt. intros C. apply L2 in C. lia.
    + apply Z.nle_gt. intros C. apply U1 in C. lia.
Qed.

Lemma lower_upper_mid m e :
  Repr.lower_mid m e < 4 * m < Repr.upper_mid m.
Proof. unfold Repr.lower_mid, Repr.upper_mid. destruct (_ && _); lia. Qed.

(** The value itself is inside its rounding interval. *)
Lemma exact_decimal_in_interval m e :
  Repr.in_interval m e (Repr.exact_decimal m e).2 (Repr.exact_decimal m e).1 = true.
Proof.
  pose proof (lower_upper_mid m e) as [Hl Hu].
  assert (Hgoal : forall c s, 0 < s -> c = 4 * m * s ->
            (if Z.even m
             then (Repr.lower_mid m e * s <=? c) && (c <=? Repr.upper_mid m * s)
             else (Repr.lower_mid m e * s <? c) && (c <? Repr.upper_mid m * s)) = true).
  { intros c s Hs ->. destruct (Z.even m); apply andb_true_intro; split;
      (apply Z.leb_le || apply Z.ltb_lt); nia. }
  unfold Repr.exact_decimal, Repr.in_interval, Repr.scale_num, Repr.scale_den.
  destruct (Z.ltb_spec e 0) as [Hneg|Hpos]; cbn [fst snd].
  - rewrite (Z.max_l (- e)), (Z.max_r e 0), (Z.max_l (2 - e)), (Z.max_r (e - 2)) by lia.
    change (10 ^ 0) with 1. change (2 ^ 0) with 1. rewrite !Z.mul_1_r, Z.mul_1_l.
    apply Hgoal; [apply Z.pow_pos_nonneg; lia|].
    replace (2 - e) with (2 + - e) by lia. rewrite pow2_split by lia.
    change 10 with (5 * 2). rewrite Z.pow_mul_l. change (2 ^ 2) with 4. ring.
  - change (Z.max 0 0) with 0. rewrite (Z.max_r (- 0)) by lia.
    change (10 ^ 0) with 1. rewrite !Z.mul_1_l.
    apply Hgoal; [apply pow2_pos; lia|].
    destruct (Z.le_gt_cases e 2) as [H2|H2].
    + rewrite (Z.max_l (2 - e)), (Z.max_r (e - 2)) by lia.
      change (2 ^ 0) with 1. rewrite Z.mul_1_r, <- Z.mul_assoc, <- pow2_split by lia.
      replace (e + (2 - e)) with 2 by lia. change (2 ^ 2) with 4. ring.
    + rewrite (Z.max_r (2 - e)), (Z.max_l (e - 2)) by lia.
      change (2 ^ 0) with 1. rewrite Z.mul_1_r.
      replace e with (2 + (e - 2)) at 1 by lia. rewrite pow2_split by lia.
      change (2 ^ 2) with 4. ring.
Qed.

Lemma shortest_search_in_interval fuel : forall m e k,
  Repr.in_interval m e (Repr.shortest_search fuel m e k).2
                       (Repr.shortest_search fuel m e k).1 = true.
Proof.
  induction fuel as [|fuel IH]; intros m e k; cbn [Repr.shortest_search].
  - apply exact_decimal_in_interval.
  - destruct (Repr.candidate m e k) as [D|] eqn:E; [|apply IH].
    by apply candidate_in_interval.
Qed.

(** What [float.__repr__] prints rounds to the float. *)
Lemma shortest_decimal_in_interval m e :
  Repr.in_interval m e (Repr.shortest_decimal m e).2
                       (Repr.shortest_decimal m e).1 = true.
Proof. apply shortest_search_in_interval. Qed.

(** A decimal of the value the printer chose reads back as the float. *)
Lemma float_of_decimal_correct neg m e D k D' k' :
  canonical m e ->
  Repr.in_interval m e k D = true ->
  0 < D' ->
  D' * 10 ^ Z.max k' 0 * 10 ^ Z.max (- k) 0 =
  D * 10 ^ Z.max k 0 * 10 ^ Z.max (- k') 0 ->
  Strtod.float_of_decimal neg D' k' = S754_finite neg (Z.to_pos m) e.
Proof.
  intros Hcan Hin HD' Hval. unfold Strtod.float_of_decimal.
  destruct (Z.leb_spec D' 0); [lia|].
  destruct (canonical_bounds m e Hcan) as [_ He].
  assert (0 < 10 ^ Z.max k' 0) by (apply Z.pow_pos_nonneg; lia).
  assert (0 < 10 ^ Z.max (- k') 0) by (apply Z.pow_pos_nonneg; lia).
  apply nearest_correct; [by apply Z.mul_pos_pos | assumption | assumption |].
  eapply in_interval_rounds_to; [lia | assumption | exact Hin | exact Hval].
Qed.

(** ** [json.loads] after [json.dump] *)

Lemma value_app l1 l2 :
  JsonText.value (l1 ++ l2) =
  JsonText.value l1 * 10 ^ Z.of_nat (List.length l2) + JsonText.value l2.
Proof.
  induction l2 as [|d l2 IH] using rev_ind.
  - rewrite app_nil_r. cbn. lia.
  - rewrite app_assoc, !value_snoc, IH, length_app. cbn [List.length].
    rewrite Nat2Z.inj_add, Z.pow_add_r by lia. change (10 ^ Z.of_nat 1) with 10.
    ring.
Qed.

Lemma value_repeat_zero n : JsonText.value (repeat 0 n) = 0.
Proof.
  induction n as [|n IH]; [reflexivity|].
  change (repeat 0 (S n)) with ([0] ++ repeat 0 n). rewrite value_app, IH.
  change (JsonText.value [0]) with 0. lia.
Qed.

Lemma of_number_int z : Loads.of_number (int_number z) = PyInt z.
Proof.
  unfold Loads.of_number, int_number.
  cbn [JsonText.frac_part JsonText.exp_part JsonText.negative JsonText.int_part].
  f_equal.
  assert (Hv : JsonText.value (Repr.digits (Z.abs z)) = Z.abs z).
  { destruct (Z.eq_dec (Z.abs z) 0) as [->|Hz]; [reflexivity|].
    apply digits_spec. lia. }
  rewrite Hv. destruct (Z.ltb_spec z 0); lia.
Qed.

Lemma of_number_float n :
  (JsonText.frac_part n <> None \/ JsonText.exp_part n <> None) ->
  Loads.of_number n =
  PyFloat
    (Strtod.float_of_decimal (JsonText.negative n)
       (JsonText.value
          (JsonText.int_part n ++
           match JsonText.frac_part n with Some ds => ds | None => [] end))
       (match JsonText.exp_part n with Some x => x | None => 0 end -
        Z.of_nat (List.length
                    match JsonText.frac_part n with Some ds => ds | None => [] end))).
Proof.
  unfold Loads.of_number.
  destruct (JsonText.frac_part n), (JsonText.exp_part n); try reflexivity.
  intros [H|H]; contradiction.
Qed.

(** The spelling of the digits [ds] with the point at [decpt] reads back
    as the float that [value ds * 10^(decpt - len)] rounds to. *)
Lemma of_number_short sign ds decpt m e :
  canonical m e -> ds <> [] -> 0 < JsonText.value ds ->
  Repr.in_interval m e (decpt - Z.of_nat (List.length ds)) (JsonText.value ds) = true ->
  Loads.of_number (short_number sign ds decpt) =
  PyFloat (S754_finite sign (Z.to_pos m) e).
Proof.
  intros Hcan Hne Hpos Hin.
  set (len := Z.of_nat (List.length ds)) in *.
  assert (Hlen : 1 <= len).
  { subst len. destruct ds; [contradiction | cbn [List.length]; lia]. }
  unfold short_number. fold len.
  destruct ((decpt <=? -4) || (16 <? decpt)) eqn:Eexp;
    [|destruct (Z.leb_spec decpt 0); [|destruct (Z.ltb_spec decpt len)]];
    (rewrite of_number_float;
     [|cbn [JsonText.frac_part JsonText.exp_part]; (by left) || (by right)]);
    cbn [JsonText.negative JsonText.int_part JsonText.frac_part JsonText.exp_part];
    f_equal.
  - (* d.ddde+xx *)
    assert (E : firstn 1 ds ++ match match skipn 1 ds with
                                     | [] => None
                                     | tl => Some tl
                                     end with
                               | Some l => l
                               | None => []
                               end = ds /\
                Z.of_nat (List.length match match skipn 1 ds with
                                            | [] => None
                                            | tl => Some tl
                                            end with
                                      | Some l => l
                                      | None => []
                                      end) = len - 1).
    { subst len. destruct ds as [|d [|d' tl]]; [contradiction|..];
        cbn -[Z.of_nat]; split; try reflexivity; lia. }
    destruct E as [-> ->].
    eapply float_of_decimal_correct; [exact Hcan | exact Hin | exact Hpos|].
    replace (decpt - 1 - (len - 1)) with (decpt - len) by lia. reflexivity.
  - (* 0.000ddd *)
    change (0 :: ?l) with ([0] ++ l). rewrite !value_app, value_repeat_zero.
    change (JsonText.value [0]) with 0. rewrite !Z.mul_0_l, !Z.add_0_l.
    rewrite length_app, repeat_length, Nat2Z.inj_add, Z2Nat.id by lia. fold len.
    eapply float_of_decimal_correct; [exact Hcan | exact Hin | exact Hpos|].
    replace (0 - (- decpt + len)) with (decpt - len) by lia. reflexivity.
  - (* ddd.ddd *)
    rewrite firstn_skipn, List.length_skipn, Nat2Z.inj_sub, Z2Nat.id by lia.
    fold len.
    eapply float_of_decimal_correct; [exact Hcan | exact Hin | exact Hpos|].
    replace (0 - (len - decpt)) with (decpt - len) by lia. reflexivity.
  - (* ddd000.0 *)
    rewrite !value_app, value_repeat_zero, repeat_length.
    change (JsonText.value [0]) with 0. cbn [List.length].
    rewrite Z2Nat.id by lia. change (Z.of_nat 1) with 1. change (10 ^ 1) with 10.
    eapply float_of_decimal_correct; [exact Hcan | exact Hin | |].
    + pose proof (Z.pow_pos_nonneg 10 (decpt - len) ltac:(lia) ltac:(lia)). nia.
    + change (0 - 1) with (-1). rewrite (Z.max_r (-1) 0) by lia.
      change (- -1) with 1. rewrite (Z.max_l 1 0), (Z.max_l (decpt - len) 0),
        (Z.max_r (- (decpt - len)) 0) by lia.
      change (10 ^ 0) with 1. change (10 ^ 1) with 10. ring.
Qed.

(** A binary64 value in the sense of the Standard Library has a canonical
    mantissa and exponent. *)
Lemma digits2_pos_size p : digits2_pos p = Pos.size p.
Proof. induction p as [p IH|p IH|]; cbn; by rewrite ?IH. Qed.

Lemma binary64_canonical s m e :
  binary64 (S754_finite s m e) = true -> canonical (Z.pos m) e.
Proof.
  unfold binary64, valid_binary, bounded, canonical_mantissa, fexp, emin.
  intros H. apply andb_prop in H as [Hc He].
  apply Z.eqb_eq in Hc. apply Z.leb_le in He.
  rewrite digits2_pos_size in Hc.
  assert (Hs : Z.pos (Pos.size m) = Z.log2 (Z.pos m) + 1).
  { destruct m; cbn; lia. }
  rewrite Hs in Hc.
  pose proof (Z.log2_spec (Z.pos m) ltac:(lia)) as [Hlo Hhi].
  replace (Z.succ (Z.log2 (Z.pos m))) with (Z.log2 (Z.pos m) + 1) in Hhi by lia.
  pose proof (Z.log2_nonneg (Z.pos m)) as Hnn.
  destruct (Z.max_spec (Z.log2 (Z.pos m) + 1 + e - 53) (3 - 1024 - 53))
    as [[Hlt Hmax]|[Hge Hmax]]; rewrite Hmax in Hc.
  - right. split; [|lia]. split; [lia|].
    eapply Z.lt_le_trans; [exact Hhi|]. apply Z.pow_le_mono_r; lia.
  - left. assert (Z.log2 (Z.pos m) = 52) as E by lia. rewrite E in *.
    split; [split; [exact Hlo | exact Hhi] | lia].
Qed.

(** A float reads back from its text. *)
Lemma of_number_float_number f :
  is_finite f = true -> binary64 f = true ->
  Loads.of_number (float_number f) = PyFloat f.
Proof.
  destruct f as [s|s| |s m e]; try discriminate; intros _ Hb.
  - by destruct s.
  - pose proof (binary64_canonical s m e Hb) as Hcan.
    cbn [float_number].
    pose proof (shortest_decimal_pos (Z.pos m) e ltac:(lia)) as Hpos.
    pose proof (shortest_decimal_in_interval (Z.pos m) e) as Hin.
    destruct (Repr.shortest_decimal (Z.pos m) e) as [D k]. cbn [fst snd] in *.
    destruct (digits_spec D Hpos) as (_ & Hv & d & tl & E & _).
    rewrite (of_number_short s (Repr.digits D) _ (Z.pos m) e); try assumption.
    + reflexivity.
    + by rewrite E.
    + rewrite Hv. lia.
    + rewrite Hv. replace (_ + k - _) with k by lia. exact Hin.
Qed.

Lemma combine_units s :
  forallb (fun c => (c <? 55296)%N) s = true -> Loads.combine (units s) = s.
Proof.
  induction s as [|c s IH]; [reflexivity|]. cbn [forallb].
  intros H. apply andb_prop in H as [Hc Hs]. apply N.ltb_lt in Hc.
  specialize (IH Hs). unfold units in *. cbn [flat_map].
  unfold units_of at 1. destruct (N.ltb_spec c 65536); [|lia].
  cbn [app Loads.combine].
  destruct (flat_map units_of s) as [|u us] eqn:E.
  - cbn in IH. by rewrite <- IH.
  - unfold Loads.is_high. destruct (N.leb_spec 55296 c); [lia|].
    cbn [andb]. by rewrite IH.
Qed.

(** A lossless value of binary64 floats reads back from its syntax tree. *)
Lemma to_py_to_json v :
  lossless v = true -> all_binary64 v = true -> Loads.to_py (to_json v) = v.
Proof.
  induction v as [|b|z|f|s|l IH|d IH|a|n|c attrs] using pyobj_ind;
    intros Hl Hb; try discriminate; try reflexivity.
  - apply of_number_int.
  - cbn in Hb. destruct (is_finite f) eqn:Ef.
    + replace (to_json (PyFloat f)) with (JsonText.JNumber (float_number f))
        by (by destruct f as [|[]| |]).
      by apply of_number_float_number.
    + by destruct f as [|[]| |].
  - cbn [to_json Loads.to_py]. f_equal. by apply combine_units.
  - cbn [to_json Loads.to_py]. f_equal. cbn in Hl, Hb.
    induction IH as [|v l Hv _ IHl]; [reflexivity|].
    cbn in Hl, Hb. apply andb_prop in Hl as [Hl1 Hl2].
    apply andb_prop in Hb as [Hb1 Hb2].
    cbn [List.map]. by rewrite Hv, IHl.
Qed.

(** What [json.loads] makes of the text of a record of the script. *)
Lemma loads_record v1 v2 v3 v4 v5 v6 v7 v8 :
  Loads.to_py
    (to_json (PyDict [ (str "support_vectors", v1); (str "dual_coef", v2);
                       (str "intercept", v3); (str "gamma", v4);
                       (str "C", v5); (str "kernel", v6);
                       (str "support", v7); (str "n_support", v8) ])) =
  PyDict [ (str "support_vectors", Loads.to_py (to_json v1));
           (str "dual_coef", Loads.to_py (to_json v2));
           (str "intercept", Loads.to_py (to_json v3));
           (str "gamma", Loads.to_py (to_json v4));
           (str "C", Loads.to_py (to_json v5));
           (str "kernel", Loads.to_py (to_json v6));
           (str "support", Loads.to_py (to_json v7));
           (str "n_support", Loads.to_py (to_json v8)) ].
Proof. reflexivity. Qed.

Lemma record_lookup (f : pyobj -> pyobj) v1 v2 v3 v4 v5 v6 v7 v8 field v :
  In field field_names ->
  Py.getitem
    (PyDict [ (str "support_vectors", v1); (str "dual_coef", v2);
              (str "intercept", v3); (str "gamma", v4);
              (str "C", v5); (str "kernel", v6);
              (str "support", v7); (str "n_support", v8) ]) field = Some v ->
  Py.getitem
    (PyDict [ (str "support_vectors", f v1); (str "dual_coef", f v2);
              (str "intercept", f v3); (str "gamma", f v4);
              (str "C", f v5); (str "kernel", f v6);
              (str "support", f v7); (str "n_support", f v8) ]) field
  = Some (f v).
Proof.
  intros Hin Hget. cbn in Hin.
  repeat (destruct Hin as [<-|Hin];
          [vm_compute in Hget; injection Hget as <-; vm_compute; reflexivity|]).
  contradiction.
Qed.

Lemma dict_get_binary64 d k v :
  Py.dict_get k d = Some v ->
  forallb (fun kv => all_binary64 kv.2) d = true ->
  all_binary64 v = true.
Proof.
  induction d as [|[k' v'] d IH]; [discriminate|]. cbn [Py.dict_get forallb snd].
  intros Hget Hb. apply andb_prop in Hb as [Hv Hd].
  destruct (decide (k = k')); [by injection Hget as <- | by apply IH].
Qed.

(** *** The numbers of the model *)

Lemma SFeqb_refl f : not_nan f = true -> SFeqb f f = true.
Proof.
  unfold SFeqb, SFcompare. destruct f as [s|s| |s m e]; try discriminate; intros _.
  - reflexivity.
  - by destruct s.
  - rewrite Z.compare_refl, Pos.compare_cont_refl. by destruct s.
Qed.

Lemma assoc_forallb {A} (P : A -> bool) name (l : list (string * A)) v :
  assoc name l = Some v ->
  forallb (fun kv => P kv.2) l = true -> P v = true.
Proof.
  induction l as [|[k x] l IH]; [discriminate|]. cbn [assoc forallb snd].
  intros Hget Hall. apply andb_prop in Hall as [Hx Hl].
  destruct (String.eqb name k); [by injection Hget as <- | by apply IH].
Qed.

Lemma getattr_floats P o attr x :
  model_floats P o = true -> getattr o attr = Ok x -> value_floats P x = true.
Proof.
  unfold model_floats, getattr. destruct o; try discriminate.
  intros Hall Hget. destruct (assoc attr attrs) as [v|] eqn:E; [|discriminate].
  injection Hget as <-. by eapply (assoc_forallb (value_floats P)).
Qed.

Lemma nth_elem_floats P buf i :
  forallb (elem_floats P) buf = true ->
  elem_floats P (nth i buf (NpInt 0)) = true.
Proof.
  intros Hall. destruct (nth_in_or_default i buf (NpInt 0)) as [Hin| ->];
    [|reflexivity].
  rewrite forallb_forall in Hall. by apply Hall.
Qed.

Lemma item_floats P a idx :
  forallb (elem_floats P) (data a) = true ->
  elem_floats P (Np.item a idx) = true.
Proof. apply nth_elem_floats. Qed.

(** What holds of every float of a buffer holds of every float of its
    nested list. *)
Lemma recursive_tolist_floats (P : pyfloat -> bool) (Q : pyobj -> bool) buf :
  (forall f, Q (PyFloat f) = P f) ->
  (forall z, Q (PyInt z) = true) ->
  (forall l, Q (PyList l) = forallb Q l) ->
  forallb (elem_floats P) buf = true ->
  forall dims p, Q (Np.recursive_tolist buf dims p) = true.
Proof.
  intros Hf Hi Hl Hall. induction dims as [|n dims IH]; intros p.
  - cbn [Np.recursive_tolist].
    pose proof (nth_elem_floats P buf p Hall) as Hp.
    destruct (nth p buf (NpInt 0)) as [f|z]; cbn [Np.getitem];
      [by rewrite Hf | apply Hi].
  - cbn [Np.recursive_tolist]. rewrite Hl. apply forallb_forall.
    intros v Hv. apply in_map_iff in Hv as (i & <- & _). apply IH.
Qed.

Lemma tolist_binary64 a :
  forallb (elem_floats binary64) (data a) = true ->
  all_binary64 (Np.tolist a) = true.
Proof.
  intros H. by apply (recursive_tolist_floats binary64 all_binary64).
Qed.

Lemma tolist_finite a :
  forallb (elem_floats is_finite) (data a) = true ->
  all_finite (Np.tolist a) = true.
Proof.
  intros H. by apply (recursive_tolist_floats is_finite all_finite).
Qed.

Lemma value_floats_finite x :
  value_floats is_finite x = true -> all_finite x = true.
Proof.
  induction x as [|b|z|f|s|l IH|d IH|a|n|c attrs] using pyobj_ind;
    try reflexivity; cbn [value_floats all_finite]; [done| |].
  - induction IH as [|v l Hv _ IHl]; [reflexivity|]. cbn [forallb].
    intros H. apply andb_prop in H as [H1 H2]. by rewrite Hv, IHl.
  - induction IH as [|[k v] d Hv _ IHd]; [reflexivity|]. cbn [forallb snd] in *.
    intros H. apply andb_prop in H as [H1 H2]. by rewrite Hv, IHd.
Qed.

Lemma has_shape_lossless dims : forall v, has_shape dims v -> lossless v = true.
Proof.
  induction dims as [|n dims IH]; intros v Hv; cbn in Hv.
  - by destruct v.
  - destruct v; try contradiction. destruct Hv as [_ Hl]. cbn.
    apply forallb_forall. intros x Hx. apply IH.
    rewrite Forall_forall in Hl. by apply Hl, list_elem_of_In.
Qed.

Lemma elem_eq_getitem x :
  elem_floats not_nan x = true -> elem_eq x (Np.getitem x) = true.
Proof.
  destruct x as [f|z]; cbn; [apply SFeqb_refl | intros _; apply Z.eqb_refl].
Qed.

Lemma num_eq_refl x :
  is_number x = true -> value_floats not_nan x = true -> num_eq x x = true.
Proof.
  destruct x; try discriminate; cbn; intros _;
    [intros _; apply Z.eqb_refl | apply SFeqb_refl].
Qed.

Lemma number_reads_back x :
  is_number x = true -> value_floats binary64 x = true ->
  Loads.to_py (to_json x) = x.
Proof.
  intros Hn Hb. apply to_py_to_json; destruct x; try discriminate; done.
Qed.

(** The nested list of an array of binary64 values reads back from its
    syntax tree. *)
Lemma tolist_reads_back a :
  forallb (elem_floats binary64) (data a) = true ->
  Loads.to_py (to_json (Np.tolist a)) = Np.tolist a.
Proof.
  intros Hb. apply to_py_to_json; [|by apply tolist_binary64].
  eapply has_shape_lossless, tolist_shape.
Qed.

(** The array field of the model [o] read back from the tree of the
    record. *)
Lemma array_reads_back (o : pyobj) (a : ndarray) (attr : string) :
  model_floats binary64 o = true ->
  model_floats not_nan o = true ->
  getattr o attr = Ok (PyArray a) ->
  Loads.to_py (to_json (Np.tolist a)) = Np.tolist a /\
  has_shape (shape a) (Np.tolist a) /\
  forall idx, Np.in_bounds (shape a) idx = true ->
              exists leaf, Py.index (Np.tolist a) idx = Some leaf /\
                           elem_eq (Np.item a idx) leaf = true.
Proof.
  intros Hb Hn Ha.
  pose proof (getattr_floats _ _ _ _ Hb Ha) as Hba.
  pose proof (getattr_floats _ _ _ _ Hn Ha) as Hna. cbn in Hba, Hna.
  split; [by apply tolist_reads_back|]. split; [apply tolist_shape|].
  intros idx Hidx. exists (Np.getitem (Np.item a idx)).
  split; [by apply tolist_index|].
  by apply elem_eq_getitem, item_floats.
Qed.

(** C3 (as amended). After a run that ends normally on a model that holds
    no NaN, the output file read with [json.loads] gives, for every array
    attribute of the loaded model, a nested list of the attribute's shape
    whose number at each index is equal to the attribute's element there, and
    for [gamma], [C] and [kernel] a number equal to the attribute where the
    attribute is a number: equal exactly, not only within a tolerance. When
    the model's floats are all finite the same holds of every reader of
    the JSON grammar. The model's floats are binary64 values. *)
Theorem export_reads_back unpickle (w w' : world) (bytes : string) (o : pyobj) :
  files w !! input_path = Some bytes ->
  unpickle bytes = Ok o ->
  convert_svm unpickle w = (Ok tt, w') ->
  model_floats binary64 o = true ->
  model_floats not_nan o = true ->
  reads_back true o w' /\
  (model_floats is_finite o = true -> reads_back false o w').
Proof.
  intros Hf Hu Hrun Hb Hn.
  destruct (ok_output _ _ _ Hrun) as (md & Hrec & Hs & Hout).
  unfold exported_record in Hrec. rewrite Hf, Hu in Hrec.
  destruct (model_data o) as [md0|] eqn:Hm; [|discriminate].
  injection Hrec as ->.
  destruct (model_data_inv _ _ Hm)
    as [sv dc ic sp ns g c k Hsv Hdc Hic Hg Hc Hk Hsp Hns ->].
  assert (Hex : forall ext,
             (ext = false ->
              all_finite
                (PyDict [ (str "support_vectors", Np.tolist sv);
                          (str "dual_coef", Np.tolist dc);
                          (str "intercept", Np.tolist ic);
                          (str "gamma", g); (str "C", c); (str "kernel", k);
                          (str "support", Np.tolist sp);
                          (str "n_support", Np.tolist ns) ]) = true) ->
             reads_back ext o w').
  { intros ext Hfin. eexists _, _. split; [exact Hout|].
    split; [by apply parse_render|]. rewrite loads_record. split.
    - intros field attr a Hin Ha. cbn in Hin.
      destruct (array_reads_back o a attr Hb Hn Ha) as (Hback & Hshape & Hidx).
      exists (Np.tolist a). split; [|by split].
      destruct Hin as [E|[E|[E|[E|[E|[]]]]]]; injection E as <- <-;
        match goal with
        | H : getattr o _ = Ok (PyArray ?b) |- _ =>
            lazymatch b with
            | a => fail
            | _ => assert (b = a) as -> by congruence
            end
        end; rewrite Hback; reflexivity.
    - intros field x Hin Hx Hnum. cbn in Hin.
      pose proof (getattr_floats _ _ _ _ Hb Hx) as Hbx.
      pose proof (getattr_floats _ _ _ _ Hn Hx) as Hnx.
      exists x. split; [|by apply num_eq_refl].
      destruct Hin as [<-|[<-|[<-|[]]]];
        match goal with
        | H : getattr o _ = Ok ?y |- _ =>
            lazymatch y with
            | x => fail
            | PyArray _ => fail
            | _ => assert (y = x) as -> by congruence
            end
        end; rewrite (number_reads_back x Hnum Hbx); reflexivity. }
  split; [apply Hex; discriminate|].
  intros Hfin. apply Hex. intros _. cbn [all_finite forallb snd].
  rewrite !tolist_finite
    by (eapply (getattr_floats is_finite o _ (PyArray _)); eassumption).
  rewrite !value_floats_finite
    by (eapply (getattr_floats is_finite o); eassumption).
  reflexivity.
Qed.

Lemma export_reads_back_witness :
  reads_back true Example.svc (convert_svm Example.unpickle Example.w0).2 /\
  reads_back false Example.svc (convert_svm Example.unpickle Example.w0).2.
Proof.
  destruct (export_reads_back Example.unpickle Example.w0
              (convert_svm Example.unpickle Example.w0).2 "svc" Example.svc)
    as [H1 H2]; [vm_compute; reflexivity..|].
  split; [exact H1 | apply H2; vm_compute; reflexivity].
Defined.

(** C3 (as stated) fails: a classifier whose [gamma] is a NaN is exported,
    the run ends normally, and whatever the reader, the file does not give
    back a number equal to the model's [gamma], since a NaN is equal to
    nothing. *)
Lemma nan_is_not_read_back_equal :
  (convert_svm Example.unpickle_nan Example.w0).1 = Ok tt /\
  model_floats binary64 Example.svc_nan = true /\
  forall ext,
    ~ reads_back ext Example.svc_nan
        (convert_svm Example.unpickle_nan Example.w0).2.
Proof.
  split; [vm_compute; reflexivity|]. split; [vm_compute; reflexivity|].
  intros ext (text & tree & Hout & Hparse & _ & Hv).
  destruct (Hv "gamma" (PyFloat S754_nan)) as (v & Hget & Heq);
    [cbn; tauto | reflexivity | reflexivity |].
  assert (Htree : (files (convert_svm Example.unpickle_nan Example.w0).2
                     !! output_path) ≫= JsonText.parse ext
                  = Some tree)
    by (rewrite Hout; exact Hparse).
  destruct ext; vm_compute in Htree; [|discriminate].
  injection Htree as <-. vm_compute in Hget. injection Hget as <-.
  discriminate.
Qed.

(** * Further properties of the script *)

(** ** Failures of the display *)

Lemma getattr_raises o name e :
  getattr o name = Raise e -> e = AttributeError name.
Proof.
  unfold getattr. destruct o; try (by intros [= <-]).
  destruct (assoc name attrs); [discriminate | by intros [= <-]].
Qed.

Lemma tolist_attr_raises o name e :
  tolist_attr o name = Raise e ->
  e = AttributeError name \/ e = AttributeError "tolist".
Proof.
  unfold tolist_attr. destruct (getattr o name) as [a|e'] eqn:E; cbn.
  - destruct a; cbn; intros [= <-]; by right.
  - intros [= <-]. left. by eapply getattr_raises.
Qed.

Lemma bind_raises {A B} (r : result A) (k : A -> result B) e :
  r ≫= k = Raise e -> r = Raise e \/ exists a, r = Ok a /\ k a = Raise e.
Proof. destruct r as [a|e']; cbn; [eauto | intros [= <-]; by left]. Qed.

(** The display can only fail with an [AttributeError], for one of the
    attributes it reads or for [tolist]. *)
Lemma model_data_raises o e :
  model_data o = Raise e ->
  exists name, In name attributes_read /\ e = AttributeError name.
Proof.
  unfold model_data, attributes_read. intros H.
  repeat
    (apply bind_raises in H as [H|(? & _ & H)];
     [ first
         [ apply tolist_attr_raises in H as [->| ->]
         | apply getattr_raises in H as -> ];
       eexists; (split; [|reflexivity]); cbn; tauto | ]).
  discriminate.
Qed.

(** X1. When the artifact loads but the loaded object lacks one of the
    attributes, or one of the five array attributes has no [tolist], the run
    ends with that [AttributeError] before the output file is opened: every
    file is as it was, and nothing is printed. *)
Theorem extraction_failure_touches_nothing unpickle (w : world) bytes o e :
  files w !! input_path = Some bytes ->
  unpickle bytes = Ok o ->
  model_data o = Raise e ->
  (convert_svm unpickle w).1 = Raise e /\
  (exists name, In name attributes_read /\ e = AttributeError name) /\
  files (convert_svm unpickle w).2 = files w /\
  stdout (convert_svm unpickle w).2 = stdout w.
Proof.
  intros Hf Hu Hm. rewrite convert_svm_unfold. unfold run_cases.
  rewrite Hf, Hu, Hm. cbn. split; [reflexivity|].
  split; [exact (model_data_raises _ _ Hm) | by split].
Qed.

Lemma extraction_failure_touches_nothing_witness :
  (convert_svm Example.unpickle Example.w_not_a_model).1 =
    Raise (AttributeError "support_vectors_") /\
  (exists name, In name attributes_read /\
                AttributeError "support_vectors_" = AttributeError name) /\
  files (convert_svm Example.unpickle Example.w_not_a_model).2 =
    files Example.w_not_a_model /\
  stdout (convert_svm Example.unpickle Example.w_not_a_model).2 =
    stdout Example.w_not_a_model.
Proof.
  apply (extraction_failure_touches_nothing Example.unpickle
           Example.w_not_a_model "none" PyNone); reflexivity.
Defined.

(** ** When the run succeeds, and how it can fail *)

Lemma exported_record_spec unpickle w md :
  exported_record unpickle w = Some md <->
  exists bytes o, files w !! input_path = Some bytes /\
                  unpickle bytes = Ok o /\ model_data o = Ok md.
Proof.
  unfold exported_record. split.
  - destruct (files w !! input_path) as [bytes|]; [|discriminate].
    destruct (unpickle bytes) as [o|] eqn:Hu; [|discriminate].
    destruct (model_data o) as [md'|] eqn:Hm; [|discriminate].
    intros [= <-]. by exists bytes, o.
  - intros (bytes & o & -> & -> & ->). reflexivity.
Qed.

(** X2. A run ends normally only when the artifact exists and loads, the
    display evaluates, every part of the record is serializable and the
    output path can be opened for writing. *)
Theorem run_succeeds_only_if unpickle (w : world) :
  (convert_svm unpickle w).1 = Ok tt ->
  exists md, exported_record unpickle w = Some md /\
             serializable md = true /\
             output_path ∉ readonly w.
Proof.
  rewrite convert_svm_unfold. unfold run_cases, exported_record.
  destruct (files w !! input_path) as [bytes|]; [|discriminate].
  destruct (unpickle bytes) as [o|]; [|discriminate].
  destruct (model_data o) as [md|]; [|discriminate].
  destruct (decide (output_path ∈ readonly w)) as [Hro|Hro]; [discriminate|].
  pose proof (serializable_iff md) as Hs.
  destruct (Json.iterencode md) as [cs [e|]]; cbn [snd] in Hs; [discriminate|].
  intros _. exists md. split; [reflexivity|]. split; [by apply Hs | exact Hro].
Qed.

Lemma run_succeeds_only_if_witness :
  exists md, exported_record Example.unpickle Example.w0 = Some md /\
             serializable md = true /\
             output_path ∉ readonly Example.w0.
Proof.
  apply (run_succeeds_only_if Example.unpickle Example.w0).
  vm_compute. reflexivity.
Defined.

(** An encoder that stops does so with a [TypeError]. *)
Lemma yield_type_error c g :
  fails_with_type_error g -> fails_with_type_error (Json.yield c g).
Proof. by destruct g. Qed.

Lemma yield_from_type_error g1 g2 :
  fails_with_type_error g1 -> fails_with_type_error g2 ->
  fails_with_type_error (Json.yield_from g1 g2).
Proof.
  unfold Json.yield_from, fails_with_type_error.
  destruct g1 as [c1 [e1|]], g2 as [c2 [e2|]]; cbn; auto.
Qed.

Lemma iterencode_type_error v : fails_with_type_error (Json.iterencode v).
Proof.
  induction v as [|b|z|f|s|l IH|d IH|a|n|c attrs] using pyobj_ind;
    try (by destruct b); try exact I;
    try (cbn; unfold Json.not_serializable; eauto).
  - destruct l as [|v0 l]; [exact I|].
    change (Json.iterencode (PyList (v0 :: l)))
      with (Json.iterencode_list Json.iterencode true (v0 :: l)).
    generalize true. induction IH as [|v l' Hv _ IHl]; intros first; [exact I|].
    cbn [Json.iterencode_list]. destruct (Json.encode_scalar v).
    + apply yield_type_error, IHl.
    + apply yield_type_error, yield_from_type_error; [exact Hv | apply IHl].
  - destruct d as [|kv0 d]; [exact I|].
    change (Json.iterencode (PyDict (kv0 :: d)))
      with (Json.yield "{" (Json.iterencode_dict Json.iterencode true (kv0 :: d))).
    apply yield_type_error.
    generalize true. induction IH as [|[k v] d' Hv _ IHd]; intros first; [exact I|].
    cbn [Json.iterencode_dict]. apply yield_from_type_error; [exact I|].
    cbn [snd] in Hv. destruct (Json.encode_scalar v).
    + apply yield_type_error, IHd.
    + apply yield_from_type_error; [exact Hv | apply IHd].
Qed.

(** ** What the run leaves alone *)

(** X4. Whatever the outcome, the run changes no file other than the one
    at the output path; the artifact in particular is never modified. *)
Theorem only_output_changes unpickle (w : world) (path : string) :
  path <> output_path ->
  files (convert_svm unpickle w).2 !! path = files w !! path.
Proof.
  intros Hp. rewrite convert_svm_unfold. unfold run_cases.
  destruct (files w !! input_path) as [bytes|]; [|reflexivity].
  destruct (unpickle bytes) as [o|]; [|reflexivity].
  destruct (model_data o) as [md|]; [|reflexivity].
  destruct (decide _); [reflexivity|].
  destruct (Json.iterencode md) as [cs [e|]]; cbn; by rewrite lookup_insert_ne.
Qed.

Lemma only_output_changes_witness :
  files (convert_svm Example.unpickle Example.w0).2 !! input_path =
  files Example.w0 !! input_path.
Proof.
  apply (only_output_changes Example.unpickle Example.w0 input_path).
  discriminate.
Defined.

(** X5. When the output path cannot be opened for writing the run never
    ends normally and no file changes: an earlier export stays as it
    is. *)
Theorem protected_output_is_kept unpickle (w : world) :
  output_path ∈ readonly w ->
  (convert_svm unpickle w).1 <> Ok tt /\
  files (convert_svm unpickle w).2 = files w.
Proof.
  intros Hro. rewrite convert_svm_unfold. unfold run_cases.
  destruct (files w !! input_path) as [bytes|]; [|by split].
  destruct (unpickle bytes) as [o|]; [|by split].
  destruct (model_data o) as [md|]; [|by split].
  destruct (decide _); [by split | contradiction].
Qed.

Lemma protected_output_is_kept_witness :
  (convert_svm Example.unpickle Example.w_readonly).1 <> Ok tt /\
  files (convert_svm Example.unpickle Example.w_readonly).2 =
    files Example.w_readonly.
Proof.
  apply (protected_output_is_kept Example.unpickle Example.w_readonly).
  vm_compute. reflexivity.
Defined.

(** ** A failing encoder *)

Lemma has_shape_serializable dims : forall v,
  has_shape dims v -> serializable v = true.
Proof.
  induction dims as [|n dims IH]; intros v Hv; cbn in Hv.
  - by destruct v.
  - destruct v; try contradiction. destruct Hv as [_ Hl]. cbn.
    apply forallb_forall. intros x Hx. apply IH.
    rewrite Forall_forall in Hl. by apply Hl, list_elem_of_In.
Qed.

Lemma tolist_serializable a : serializable (Np.tolist a) = true.
Proof. eapply has_shape_serializable, tolist_shape. Qed.

(** X6. The arrays never make the encoder fail: the record is serializable
    exactly when [gamma], [C] and [kernel] are. *)
Theorem only_parameters_can_fail (o md g c k : pyobj) :
  model_data o = Ok md ->
  getattr o "gamma" = Ok g -> getattr o "C" = Ok c ->
  getattr o "kernel" = Ok k ->
  serializable md = serializable g && serializable c && serializable k.
Proof.
  intros H Hg' Hc' Hk'. destruct (model_data_inv _ _ H)
    as [sv dc ic sp ns g0 c0 k0 Hsv Hdc Hic Hg Hc Hk Hsp Hns ->].
  assert (g0 = g) as -> by congruence. assert (c0 = c) as -> by congruence.
  assert (k0 = k) as -> by congruence.
  cbn [serializable forallb snd]. rewrite !tolist_serializable.
  cbn [andb]. by rewrite !andb_true_r, andb_assoc.
Qed.

Lemma only_parameters_can_fail_witness :
  serializable Example.record =
  serializable (PyFloat Example.f_0_1) && serializable (PyFloat Example.f_1_0) &&
  serializable (PyStr (str "rbf")).
Proof.
  apply (only_parameters_can_fail Example.svc); reflexivity.
Defined.

(** X7. When the encoder fails the run has already truncated the output
    file and written the chunks produced so far: the run ends with the
    [TypeError], nothing is printed, and the file holds that partial text
    whatever it held before. *)
Theorem failed_dump_leaves_partial_file unpickle (w : world) md cs e :
  exported_record unpickle w = Some md ->
  output_path ∉ readonly w ->
  Json.iterencode md = (cs, Some e) ->
  (convert_svm unpickle w).1 = Raise e /\
  (exists msg, e = TypeError msg) /\
  files (convert_svm unpickle w).2 !! output_path = Some (String.concat "" cs) /\
  stdout (convert_svm unpickle w).2 = stdout w.
Proof.
  intros Hrec Hro Hj.
  apply exported_record_spec in Hrec as (bytes & o & Hf & Hu & Hm).
  pose proof (iterencode_type_error md) as Ht. unfold fails_with_type_error in Ht.
  rewrite Hj in Ht. cbn in Ht.
  rewrite convert_svm_unfold. unfold run_cases.
  rewrite Hf, Hu, Hm, decide_False, Hj by assumption. cbn.
  split; [reflexivity|]. split; [exact Ht|].
  split; [apply lookup_insert_eq | reflexivity].
Qed.

Lemma failed_dump_leaves_partial_file_witness :
  exists cs e,
    Json.iterencode Example.record_callable_kernel = (cs, Some e) /\
    (convert_svm Example.unpickle Example.w_callable_kernel).1 = Raise e /\
    (exists msg, e = TypeError msg) /\
    files (convert_svm Example.unpickle Example.w_callable_kernel).2 !! output_path
      = Some (String.concat "" cs) /\
    stdout (convert_svm Example.unpickle Example.w_callable_kernel).2 =
      stdout Example.w_callable_kernel.
Proof.
  destruct (Json.iterencode Example.record_callable_kernel)
    as [cs [e|]] eqn:E; [|vm_compute in E; discriminate].
  exists cs, e. split; [reflexivity|].
  apply (failed_dump_leaves_partial_file Example.unpickle
           Example.w_callable_kernel Example.record_callable_kernel cs e);
    [vm_compute; reflexivity | | exact E].
  vm_compute. intros H. inversion H.
Defined.

(** ** The with statement *)

Lemma in_order_writes cs evs :
  in_order Opened (List.map (EvWrite output_path) cs ++ evs) =
  in_order Opened evs.
Proof. induction cs as [|c cs IH]; [reflexivity | exact IH]. Qed.

(** X8. Whatever the outcome, the events a run adds come in the order of
    the script: the artifact is loaded first, only then is the output file
    opened, chunks are written to that file and only while it is open, the
    file is closed before the run ends, also when the encoder raises
    half-way, and the message is printed only after the file was closed. *)
Theorem output_file_is_closed unpickle (w : world) :
  exists evs,
    trace (convert_svm unpickle w).2 = trace w ++ evs /\
    in_order Start evs = true.
Proof.
  rewrite convert_svm_unfold. unfold run_cases.
  destruct (files w !! input_path) as [bytes|].
  2:{ exists []. by rewrite app_nil_r. }
  destruct (unpickle bytes) as [o|]; [|by exists [EvLoad input_path]].
  destruct (model_data o) as [md|]; [|by exists [EvLoad input_path]].
  destruct (decide _); [by exists [EvLoad input_path]|].
  destruct (Json.iterencode md) as [cs [e|]].
  - eexists. split; [reflexivity|].
    change (in_order Opened
              (List.map (EvWrite output_path) cs ++ [EvClose output_path])
            = true).
    by rewrite in_order_writes.
  - exists (EvLoad input_path :: EvOpen output_path ::
            List.map (EvWrite output_path) cs ++
            [EvClose output_path; EvPrint success_message]).
    split.
    + cbn. rewrite <- !app_assoc. cbn. by rewrite <- app_assoc.
    + change (in_order Opened
                (List.map (EvWrite output_path) cs ++
                 [EvClose output_path; EvPrint success_message]) = true).
      by rewrite in_order_writes.
Qed.

(** ** [tolist] keeps every element *)

Lemma flatten_getitem x : flatten (Np.getitem x) = [Np.getitem x].
Proof. by destruct x. Qed.

Lemma flatten_recursive_tolist buf dims : forall p,
  (p + Np.size dims <= List.length buf)%nat ->
  flatten (Np.recursive_tolist buf dims p) =
  List.map Np.getitem (take (Np.size dims) (drop p buf)).
Proof.
  induction dims as [|n dims IH]; intros p Hp.
  - cbn in Hp. cbn [Np.recursive_tolist Np.size fold_right].
    rewrite flatten_getitem.
    destruct (buf !! p) as [x|] eqn:E.
    + rewrite (drop_S _ _ _ E). cbn. by rewrite nth_lookup, E.
    + apply lookup_ge_None in E. lia.
  - cbn [Np.recursive_tolist flatten].
    change (Np.size (n :: dims)) with (n * Np.size dims)%nat in *.
    replace (drop p buf) with (drop (p + 0 * Np.size dims) buf)
      by (f_equal; lia).
    assert (Hrow : forall n' k, (k + n' <= n)%nat ->
              flat_map flatten
                (List.map
                   (fun i => Np.recursive_tolist buf dims (p + i * Np.size dims))
                   (seq k n')) =
              List.map Np.getitem
                (take (n' * Np.size dims) (drop (p + k * Np.size dims) buf))).
    { intros n'. induction n' as [|n' IHn]; intros k Hk; [reflexivity|].
      cbn [seq List.map flat_map]. rewrite IHn by lia. rewrite IH by nia.
      rewrite <- List.map_app. f_equal.
      replace (p + S k * Np.size dims)%nat
        with (p + k * Np.size dims + Np.size dims)%nat by lia.
      rewrite <- (drop_drop buf (Np.size dims) (p + k * Np.size dims)).
      replace (S n' * Np.size dims)%nat
        with (Np.size dims + n' * Np.size dims)%nat by lia.
      apply take_take_drop. }
    apply Hrow. lia.
Qed.

Lemma flatten_tolist (a : ndarray) :
  Np.wf a = true ->
  flatten (Np.tolist a) = List.map Np.getitem (data a).
Proof.
  unfold Np.wf, Np.tolist. intros H. apply Nat.eqb_eq in H.
  rewrite flatten_recursive_tolist by lia.
  rewrite drop_0, <- H. by rewrite firstn_all.
Qed.

Lemma same_number_getitem l : Forall2 same_number l (List.map Np.getitem l).
Proof.
  induction l as [|x l IH]; constructor; [by destruct x | exact IH].
Qed.

(** X9. The export neither drops, repeats nor reorders an element of an
    array: read left to right, the numbers of an exported array field are
    the elements of the buffer of the model's attribute, one for one and in
    storage order, each a float for a float and an int for an int, of the
    same value. *)
Theorem exported_arrays_keep_every_element (o md : pyobj) (field attr : string)
        (a : ndarray) :
  model_data o = Ok md ->
  In (field, attr) array_fields ->
  getattr o attr = Ok (PyArray a) ->
  Np.wf a = true ->
  exists v, Py.getitem md (str field) = Some v /\
            Forall2 same_number (data a) (flatten v).
Proof.
  intros H Hin Ha Hwf. destruct (model_data_inv _ _ H)
    as [sv dc ic sp ns g c k Hsv Hdc Hic Hg Hc Hk Hsp Hns ->].
  exists (Np.tolist a). rewrite (flatten_tolist a Hwf).
  split; [|apply same_number_getitem].
  cbn in Hin.
  destruct Hin as [E|[E|[E|[E|[E|[]]]]]]; injection E as <- <-;
    match goal with
    | H : getattr o _ = Ok (PyArray ?b) |- _ =>
        lazymatch b with
        | a => fail
        | _ => assert (b = a) as -> by congruence
        end
    end; reflexivity.
Qed.

Lemma exported_arrays_keep_every_element_witness :
  exists v, Py.getitem Example.record (str "support_vectors") = Some v /\
            Forall2 same_number (data Example.matrix) (flatten v).
Proof.
  apply (exported_arrays_keep_every_element Example.svc Example.record
           "support_vectors" "support_vectors_" Example.matrix);
    [reflexivity | cbn; tauto | reflexivity | reflexivity].
Defined.

(** ** Strings outside ASCII *)

Lemma lor_high_low a b : (b < 1024)%N -> N.lor (a * 1024) b = (a * 1024 + b)%N.
Proof.
  intros Hb.
  assert (H : N.land (a * 1024) b = 0%N).
  { apply N.bits_inj. intros i. rewrite N.land_spec, N.bits_0.
    change 1024%N with (2 ^ 10)%N in *.
    destruct (N.lt_ge_cases i 10) as [Hi|Hi].
    - by rewrite N.mul_pow2_bits_low.
    - rewrite <- (N.mod_small b (2 ^ 10)) by exact Hb.
      rewrite N.mod_pow2_bits_high by exact Hi. apply andb_false_r. }
  rewrite (N.add_nocarry_lxor _ _ H). symmetry. by apply N.lxor_lor.
Qed.

(** A code point above the basic plane is written as a high and a low
    surrogate that [py_scanstring] joins into the code point again. *)
Lemma units_of_pair c :
  (65536 <= c < 1114112)%N ->
  exists hi lo,
    units_of c = [hi; lo] /\ Loads.is_high hi = true /\ Loads.is_low lo = true /\
    (65536 + N.lor (N.shiftl (hi - 55296) 10) (lo - 56320))%N = c.
Proof.
  intros Hc. unfold units_of. destruct (N.ltb_spec c 65536); [lia|].
  cbv zeta. set (n := (c - 65536)%N).
  assert (Hn : (n < 1048576)%N) by (subst n; lia).
  change 1023%N with (N.ones 10). rewrite !N.land_ones, N.shiftr_div_pow2.
  change (2 ^ 10)%N with 1024%N.
  pose proof (N.Div0.div_mod n 1024) as Hdm.
  pose proof (N.mod_lt n 1024 ltac:(discriminate)) as Hr.
  assert (Hq : (n / 1024 < 1024)%N)
    by (apply N.Div0.div_lt_upper_bound; exact Hn).
  rewrite (N.mod_small (n / 1024) 1024) by exact Hq.
  set (q := (n / 1024)%N) in *. set (r := (n mod 1024)%N) in *.
  clearbody q r.
  change 55296%N with (54 * 1024)%N. change 56320%N with (55 * 1024)%N.
  rewrite !lor_high_low by assumption.
  eexists _, _. split; [reflexivity|].
  unfold Loads.is_high, Loads.is_low.
  split; [apply andb_true_intro; split; apply N.leb_le; lia|].
  split; [apply andb_true_intro; split; apply N.leb_le; lia|].
  replace (54 * 1024 + q - 54 * 1024)%N with q by lia.
  replace (55 * 1024 + r - 55 * 1024)%N with r by lia.
  rewrite N.shiftl_mul_pow2. change (2 ^ 10)%N with 1024%N.
  rewrite lor_high_low by assumption. subst n. lia.
Qed.

(** The code units of a string of scalar values join into the string. *)
Lemma combine_units_scalar s :
  forallb scalar_value s = true -> Loads.combine (units s) = s.
Proof.
  induction s as [|c s IH]; [reflexivity|]. cbn [forallb].
  intros H. apply andb_prop in H as [Hc Hs]. specialize (IH Hs).
  unfold units in *. cbn [flat_map].
  destruct (N.ltb_spec c 65536) as [Hlo|Hhi].
  - unfold units_of at 1. destruct (N.ltb_spec c 65536); [|lia].
    cbn [app Loads.combine].
    destruct (flat_map units_of s) as [|u us] eqn:E.
    + cbn in IH. by rewrite <- IH.
    + assert (Loads.is_high c = false) as ->.
      { unfold Loads.is_high, scalar_value in *.
        apply orb_prop in Hc as [Hc|Hc].
        - apply N.ltb_lt in Hc. destruct (N.leb_spec 55296 c); [lia|reflexivity].
        - apply andb_prop in Hc as [Hc _]. apply N.leb_le in Hc.
          destruct (N.leb_spec c 56319); [lia|]. apply andb_false_r. }
      cbn [andb]. by rewrite IH.
  - assert (Hr : (65536 <= c < 1114112)%N).
    { split; [exact Hhi|]. unfold scalar_value in Hc.
      apply orb_prop in Hc as [Hc|Hc].
      - apply N.ltb_lt in Hc. lia.
      - apply andb_prop in Hc as [_ Hc]. by apply N.ltb_lt in Hc. }
    destruct (units_of_pair c Hr) as (hi & lo & -> & Hh & Hl & Hv).
    cbn [app Loads.combine]. rewrite Hh, Hl. cbn [andb]. by rewrite Hv, IH.
Qed.

(** X10. A text parameter survives the export whatever it holds: after a
    run that ends normally, a field whose exported value is a string of
    Unicode scalar values, ASCII or not, inside the basic plane or above
    it, is read back by [json.loads] as that very string. *)
Theorem text_fields_read_back unpickle (w w' : world) (md : pyobj)
        (field s : pystr) :
  convert_svm unpickle w = (Ok tt, w') ->
  exported_record unpickle w = Some md ->
  In field field_names ->
  Py.getitem md field = Some (PyStr s) ->
  forallb scalar_value s = true ->
  exists text md',
    files w' !! output_path = Some text /\
    Loads.loads text = Some md' /\
    Py.getitem md' field = Some (PyStr s).
Proof.
  intros Hrun Hrec Hin Hget Hs.
  destruct (ok_output _ _ _ Hrun) as (md0 & Hrec' & Hser & Hout).
  assert (md0 = md) as -> by congruence.
  destruct (exported_record_some _ _ _ Hrec) as (o & Hm).
  exists (render md), (Loads.to_py (to_json md)).
  split; [exact Hout|]. split.
  { unfold Loads.loads. by rewrite parse_render. }
  destruct (model_data_inv _ _ Hm)
    as [sv dc ic sp ns g c k Hsv Hdc Hic Hg Hc Hk Hsp Hns ->].
  rewrite loads_record.
  rewrite (record_lookup (fun v => Loads.to_py (to_json v)) _ _ _ _ _ _ _ _
             field (PyStr s) Hin Hget).
  cbn [to_json Loads.to_py]. by rewrite combine_units_scalar.
Qed.

Lemma text_fields_read_back_witness :
  exists text md',
    files (convert_svm Example.unpickle_unicode Example.w0).2 !! output_path
      = Some text /\
    Loads.loads text = Some md' /\
    Py.getitem md' (str "kernel") = Some (PyStr [114%N; 233%N; 128512%N]).
Proof.
  apply (text_fields_read_back Example.unpickle_unicode Example.w0
           (convert_svm Example.unpickle_unicode Example.w0).2
           Example.record_unicode_kernel (str "kernel")
           [114%N; 233%N; 128512%N]);
    [vm_compute; reflexivity | vm_compute; reflexivity | | vm_compute; reflexivity
    | vm_compute; reflexivity].
  cbn. tauto.
Defined.

(** ** The text is one line of printable ASCII *)

Lemma printable_app s t :
  printable (s +:+ t) = printable s && printable t.
Proof.
  induction s as [|c s IH]; [reflexivity|].
  rewrite append_cons. cbn [printable]. by rewrite IH, andb_assoc.
Qed.

Lemma printable_digs ds : Forall is_dig ds -> printable (Repr.digs ds) = true.
Proof.
  induction 1 as [|d ds Hd _ IH]; [reflexivity|]. cbn [Repr.digs printable].
  rewrite IH, andb_true_r. dig_cases Hd; reflexivity.
Qed.

Lemma printable_spell n : wf_number n -> printable (spell n) = true.
Proof.
  intros (Hip & _ & Hfp). destruct n as [neg ip fp ep]. cbn in *.
  unfold spell. cbn [JsonText.negative JsonText.int_part JsonText.frac_part
                       JsonText.exp_part].
  rewrite !printable_app, printable_digs by assumption.
  assert (printable (sign_text neg) = true) as -> by (by destruct neg).
  assert (printable (frac_text fp) = true) as ->.
  { destruct fp as [ds|]; [|reflexivity]. cbn [frac_text].
    rewrite printable_app, printable_digs; [reflexivity | apply Hfp]. }
  destruct ep as [x|]; [|reflexivity]. cbn [exp_text].
  destruct (exp_str_spec x) as (sg & ds & -> & Hsg & Hds & _).
  rewrite !printable_app, printable_digs by assumption.
  by destruct Hsg as [[-> _]|[-> _]].
Qed.

Lemma printable_hex_digit d :
  (d < 16)%N -> Utf8.between 32 126 (Json.hex_digit d) = true.
Proof.
  intros H.
  assert (d = 0 \/ d = 1 \/ d = 2 \/ d = 3 \/ d = 4 \/ d = 5 \/ d = 6 \/ d = 7 \/
          d = 8 \/ d = 9 \/ d = 10 \/ d = 11 \/ d = 12 \/ d = 13 \/ d = 14 \/
          d = 15)%N as Hc by lia.
  repeat (destruct Hc as [->|Hc]; [reflexivity|]). by subst.
Qed.

Lemma printable_hex4 u : printable (Json.hex4 u) = true.
Proof.
  unfold Json.hex4. cbn [printable].
  by rewrite !printable_hex_digit by (apply N.mod_lt; discriminate).
Qed.

Lemma printable_escape_char c : printable (Json.escape_char c) = true.
Proof.
  unfold Json.escape_char.
  repeat (destruct (_ =? _)%N; [reflexivity|]).
  destruct ((32 <=? c)%N && (c <=? 126)%N) eqn:Hp.
  - apply andb_prop in Hp as [Hlo Hhi].
    apply N.leb_le in Hlo. apply N.leb_le in Hhi.
    cbn [printable]. unfold Utf8.between.
    rewrite N_ascii_embedding by lia. rewrite andb_true_r.
    apply andb_true_intro. split; apply N.leb_le; lia.
  - destruct (_ <? _)%N; rewrite !printable_app, !printable_hex4; reflexivity.
Qed.

Lemma printable_escape s : printable (Json.escape s) = true.
Proof.
  induction s as [|c s IH]; [reflexivity|]. cbn [Json.escape].
  by rewrite printable_app, printable_escape_char, IH.
Qed.

Lemma printable_string s :
  printable (Json.encode_basestring_ascii s) = true.
Proof.
  unfold Json.encode_basestring_ascii.
  by rewrite !printable_app, printable_escape.
Qed.

Lemma printable_scalar v s :
  Json.encode_scalar v = Some s -> printable s = true.
Proof.
  destruct v as [|[]|z|f|str| | | | |]; cbn; try discriminate; intros [= <-];
    try reflexivity.
  - rewrite int_repr_spell. apply printable_spell, wf_int_number.
  - destruct (is_finite f) eqn:Ef.
    + destruct (floatstr_spell f Ef) as [-> Hwf]. by apply printable_spell.
    + by destruct f as [|[]| |].
  - apply printable_string.
Qed.

(** The text of a value is made of printable ASCII characters. *)
Lemma printable_render v : printable (render v) = true.
Proof.
  induction v as [|b|z|f|s|l IH|d IH|a|n|c attrs] using pyobj_ind;
    try reflexivity;
    try (cbn [render]; destruct (Json.encode_scalar _) eqn:E;
         [by eapply printable_scalar | reflexivity]).
  - destruct l as [|v0 l]; [reflexivity|]. cbn [render].
    apply Forall_cons_1 in IH as [H0 IH].
    assert (Hl : printable (items_text render l) = true).
    { induction IH as [|v l Hv _ IHl]; [reflexivity|].
      cbn [items_text]. by rewrite !printable_app, Hv, IHl. }
    by rewrite !printable_app, H0, Hl.
  - destruct d as [|[k0 v0] d]; [reflexivity|]. cbn [render].
    apply Forall_cons_1 in IH as [H0 IH]. cbn [snd] in H0.
    unfold member_text at 1. cbn [fst snd].
    assert (Hd : printable (members_text render d) = true).
    { induction IH as [|[k v] d Hv _ IHd]; [reflexivity|].
      cbn [members_text]. unfold member_text at 1. cbn [fst snd] in *.
      by rewrite !printable_app, Hv, IHd, printable_string. }
    by rewrite !printable_app, H0, Hd, printable_string.
Qed.

(** X11. After a run that ends normally the output file is one line of
    printable ASCII: every character lies between the space and the tilde,
    so there is no line break, no control character and no character
    outside ASCII, whatever the strings of the model hold. *)
Theorem output_is_one_printable_line unpickle (w w' : world) :
  convert_svm unpickle w = (Ok tt, w') ->
  exists text, files w' !! output_path = Some text /\ printable text = true.
Proof.
  intros Hrun. destruct (ok_output _ _ _ Hrun) as (md & _ & _ & Hout).
  exists (render md). split; [exact Hout | apply printable_render].
Qed.

Lemma output_is_one_printable_line_witness :
  exists text,
    files (convert_svm Example.unpickle_unicode Example.w0).2 !! output_path
      = Some text /\
    printable text = true.
Proof.
  apply (output_is_one_printable_line Example.unpickle_unicode Example.w0).
  vm_compute. reflexivity.
Defined.
